(** * Link resolution and repair engine of Anya-core's documentation scripts

    A shallow embedding of [scripts/link_campaign.py] and
    [scripts/simple_link_campaign.py]: the scan of the directory tree that
    builds the document index, the reference extractor, the resolver
    ([find_best_match]), the checker ([check_links]), the rewriter
    ([fix_links]), the report and the exit status of [main]; of
    [fix_file] of [scripts/fix_critical_links.py], which applies the same
    table of mappings; and of the parts of Python's [str], [re], [os] and
    [posixpath] that these functions call.

    Conventions of the embedding:
    - a Python [str] is a [string]; characters are bytes, and [str.lower]
      acts on the ASCII letters;
    - a [dict] is a [gmap]; a [set] of paths is a [gset] where it is built,
      and where it is iterated over the [list] of its elements in the order
      in which the interpreter iterates over it (the order of a [set] of
      strings is not fixed by the language and changes from one process to
      the next);
    - an uncaught exception is [None] in the [option] monad; a function that
      can also return Python's [None] has type [option (option _)]; where
      the file system left by a run that raises matters, the function
      returns it beside the [None];
    - the template language of [re.sub] is that of the [re] module of
      Python 3.11 on ASCII templates, with the default limit of [int] on
      the number of digits;
    - the file system is a finite map from absolute paths to file contents
      plus a set of other existing paths, threaded explicitly, with a log of
      the writes performed; paths are looked up as the strings that
      [normpath] returns, there are no symbolic links, and a write to a
      file that was read, to the report or to the mappings file succeeds;
    - the directory tree that [os.walk] visits is a tree of names.

    Left out: the messages printed, and the parsing and the serialisation
    of the mappings file.  The table of mappings as loaded is an argument,
    and the text that [json.dump] writes for a table is a parameter of
    [main]; the index that the checker iterates over is an argument too,
    and what the scan guarantees of it is proved of the scan. *)

From Stdlib Require Import Ascii String.
From stdpp Require Import base option list strings gmap pretty.

(** ** Python strings *)

Module PyStr.

Definition lower_ascii (c : ascii) : ascii :=
  let n := nat_of_ascii c in
  if (65 <=? n) && (n <=? 90) then ascii_of_nat (n + 32) else c.

(** [s.lower()] *)
Fixpoint lower (s : string) : string :=
  match s with
  | EmptyString => EmptyString
  | String c s' => String (lower_ascii c) (lower s')
  end.

(** [s.startswith(p)] *)
Definition startswith (s p : string) : bool := String.prefix p s.

(** [s.endswith(suf)] *)
Fixpoint endswith (s suf : string) : bool :=
  bool_decide (s = suf) ||
  match s with
  | EmptyString => false
  | String _ s' => endswith s' suf
  end.

(** [s.split(c)] for a one-character separator: never the empty list. *)
Fixpoint split (c : ascii) (s : string) : list string :=
  match s with
  | EmptyString => [EmptyString]
  | String a s' =>
      if bool_decide (a = c) then EmptyString :: split c s'
      else match split c s' with
           | [] => [String a EmptyString]
           | h :: t => String a h :: t
           end
  end.

(** [sep.join(l)] *)
Definition join (sep : string) (l : list string) : string :=
  String.concat sep l.

(** [s.rpartition(c)] when [c] occurs in [s]: the parts before and after
    its last occurrence. *)
Fixpoint rpartition (c : ascii) (s : string) : option (string * string) :=
  match s with
  | EmptyString => None
  | String a s' =>
      match rpartition c s' with
      | Some (h, t) => Some (String a h, t)
      | None => if bool_decide (a = c) then Some (EmptyString, s') else None
      end
  end.

(** [s.rstrip(c)] *)
Fixpoint rstrip (c : ascii) (s : string) : string :=
  match s with
  | EmptyString => EmptyString
  | String a s' =>
      let r := rstrip c s' in
      if bool_decide (a = c) && bool_decide (r = EmptyString)
      then EmptyString else String a r
  end.

Fixpoint all_char (c : ascii) (s : string) : bool :=
  match s with
  | EmptyString => true
  | String a s' => bool_decide (a = c) && all_char c s'
  end.

(** [c * n] *)
Fixpoint repeat_char (c : ascii) (n : nat) : string :=
  match n with
  | O => EmptyString
  | S k => String c (repeat_char c k)
  end.

(** [pat in s] *)
Fixpoint contains (s pat : string) : bool :=
  startswith s pat ||
  match s with
  | EmptyString => false
  | String _ s' => contains s' pat
  end.

(** [s.replace(old, new)] for a non-empty [old]: the occurrences are
    replaced from the left and do not overlap.  [skip] counts the
    characters of the current occurrence still to be dropped. *)
Fixpoint replace_go (skip : nat) (old new s : string) : string :=
  match s with
  | EmptyString => EmptyString
  | String c s' =>
      match skip with
      | S k => replace_go k old new s'
      | O =>
          if startswith s old
          then new +:+ replace_go (String.length old - 1) old new s'
          else String c (replace_go 0 old new s')
      end
  end.

Definition replace (s old new : string) : string := replace_go 0 old new s.

(** The characters of [s] before the first line feed. *)
Fixpoint first_line (s : string) : string :=
  match s with
  | EmptyString => EmptyString
  | String a s' =>
      if bool_decide (a = "010"%char) then EmptyString
      else String a (first_line s')
  end.

(** Truth value of a string: [if s:]. *)
Definition truthy (s : string) : bool := negb (bool_decide (s = EmptyString)).

End PyStr.

(** ** [posixpath] *)

Module PosixPath.
Import PyStr.

Definition sep : ascii := "/"%char.

(** [os.path.join(a, b)] *)
Definition join (a b : string) : string :=
  if startswith b "/" then b
  else if bool_decide (a = "") || endswith a "/" then a +:+ b
  else a +:+ "/" +:+ b.

(** [os.path.basename(p)]: what follows the last slash. *)
Definition basename (p : string) : string :=
  match rpartition sep p with
  | Some (_, t) => t
  | None => p
  end.

(** [os.path.dirname(p)]: the head up to and including the last slash,
    with its trailing slashes removed unless it consists of slashes. *)
Definition dirname (p : string) : string :=
  match rpartition sep p with
  | Some (h, _) =>
      let head := h +:+ "/" in
      if all_char sep head then head else rstrip sep head
  | None => ""
  end.

(** One turn of the loop of [normpath] over the components. *)
Definition normpath_step (initial_slashes : nat) (new_comps : list string)
    (comp : string) : list string :=
  if bool_decide (comp = "") || bool_decide (comp = ".") then new_comps
  else if negb (bool_decide (comp = ".."))
          || (bool_decide (initial_slashes = 0) && bool_decide (new_comps = []))
          || bool_decide (last new_comps = Some "..")
  then new_comps ++ [comp]
  else removelast new_comps.

Definition initial_slashes (path : string) : nat :=
  if startswith path "/" then
    if startswith path "//" && negb (startswith path "///") then 2 else 1
  else 0.

(** [os.path.normpath(path)] *)
Definition normpath (path : string) : string :=
  if bool_decide (path = "") then "."
  else
    let n := initial_slashes path in
    let comps := foldl (normpath_step n) [] (split sep path) in
    let p := repeat_char sep n +:+ PyStr.join "/" comps in
    if bool_decide (p = "") then "." else p.

(** [os.path.abspath(path)] in the working directory [cwd]. *)
Definition abspath (cwd path : string) : string :=
  normpath (if startswith path "/" then path else join cwd path).

(** [len(os.path.commonprefix([l1, l2]))] on lists of components. *)
Fixpoint common_prefix_length (l1 l2 : list string) : nat :=
  match l1, l2 with
  | x :: l1', y :: l2' =>
      if bool_decide (x = y) then S (common_prefix_length l1' l2') else 0
  | _, _ => 0
  end.

Definition nonempty_comps (p : string) : list string :=
  filter (λ x, x ≠ "") (split sep p).

(** [os.path.relpath(path, start)]; [None] is the [ValueError] raised for
    an empty [path]. *)
Definition relpath (cwd path start : string) : option string :=
  if bool_decide (path = "") then None
  else
    let start_list := nonempty_comps (abspath cwd start) in
    let path_list := nonempty_comps (abspath cwd path) in
    let i := common_prefix_length start_list path_list in
    let rel_list :=
      replicate (length start_list - i) ".." ++ drop i path_list in
    match rel_list with
    | [] => Some "."
    | a :: p => Some (foldl join a p)
    end.

End PosixPath.

(** ** The two regular expressions of the scripts *)

Module Re.
Import PyStr.

(** A greedy negated class followed by its own delimiter, as in
    [[^\]]+\]]: the run of characters before the first [stop], and the
    rest of the string from that [stop] on.  Backtracking cannot shorten
    the run, since the character after a shorter run is not [stop]. *)
Fixpoint span_until (stop : ascii) (s : string) : option (string * string) :=
  match s with
  | EmptyString => None
  | String c s' =>
      if bool_decide (c = stop) then Some (EmptyString, s)
      else match span_until stop s' with
           | Some (r, rest) => Some (String c r, rest)
           | None => None
           end
  end.

(** A match of [\[([^\]]+)\]\(([^)]+)\)] at the start of [s]: the two
    groups and what follows the match. *)
Definition match_link (s : string) : option (string * string * string) :=
  match s with
  | String "["%char s1 =>
      match span_until "]" s1 with
      | Some (text, String "]"%char (String "("%char s2)) =>
          if truthy text then
            match span_until ")" s2 with
            | Some (link, String ")"%char rest) =>
                if truthy link then Some (text, link, rest) else None
            | _ => None
            end
          else None
      | _ => None
      end
  | _ => None
  end.

(** [MARKDOWN_LINK_PATTERN.findall(content)]: the matches from left to
    right, without overlap.  [skip] counts the characters of the last
    match that are still to be passed over. *)
Fixpoint findall_go (skip : nat) (s : string) : list (string * string) :=
  match s with
  | EmptyString => []
  | String _ s' =>
      match skip with
      | S k => findall_go k s'
      | O =>
          match match_link s with
          | Some (text, link, _) =>
              (text, link)
                :: findall_go (String.length text + String.length link + 3) s'
          | None => findall_go 0 s'
          end
      end
  end.

Definition findall (content : string) : list (string * string) :=
  findall_go 0 content.

(** [ANCHOR_PATTERN.match(s)]: the pattern is a greedy group of any
    characters, a hash sign and a second such group.  A dot stops at a line
    feed and the first group is greedy, so the split is at the last hash
    sign of the first line. *)
Definition anchor_match (s : string) : option (string * string) :=
  rpartition "#" (first_line s).

(** [re.search(re.escape(pat), s)] *)
Definition search_literal (pat s : string) : bool := contains s pat.

(** [re.sub(re.escape(pat), new.replace('\\', '\\\\'), s)]: the pattern is
    a literal, and so is the template once its backslashes are doubled. *)
Definition sub_literal (pat new s : string) : string := replace s pat new.

(** *** The replacement template of [re.sub]

    [re.sub] hands a replacement that holds a backslash to
    [parse_template], before it looks for a match.  The template is read
    token by token, a token being a character or a backslash with the
    character after it; a backslash at the end is an error. *)
Inductive token := Char (c : ascii) | Escape (c : ascii).

Fixpoint tokens (s : string) : option (list token) :=
  match s with
  | EmptyString => Some []
  | String c s' =>
      if bool_decide (c = "\"%char) then
        match s' with
        | EmptyString => None
        | String e s'' => cons (Escape e) <$> tokens s''
        end
      else cons (Char c) <$> tokens s'
  end.

Definition in_range (lo hi : nat) (c : ascii) : bool :=
  (lo <=? nat_of_ascii c) && (nat_of_ascii c <=? hi).

Definition is_digit (c : ascii) : bool := in_range 48 57 c.
Definition is_octal (c : ascii) : bool := in_range 48 55 c.
Definition is_ascii_letter (c : ascii) : bool :=
  in_range 65 90 c || in_range 97 122 c.
Definition digit_value (c : ascii) : nat := nat_of_ascii c - 48.

(** The white space that [int] strips from an ASCII string. *)
Definition is_space (c : ascii) : bool :=
  in_range 9 13 c || bool_decide (c = " "%char).

(** [chr(n)] for [n] below 256, as the bytes that a file in UTF-8 holds
    for it. *)
Definition chr (n : nat) : string :=
  if n <? 128 then String (ascii_of_nat n) ""
  else String (ascii_of_nat (192 + n / 64))
         (String (ascii_of_nat (128 + n mod 64)) "").

(** The table [ESCAPES] of the parser: the codes of the characters that a
    backslash and a letter stand for, and the backslash itself. *)
Definition escape_code (c : ascii) : option nat :=
  if bool_decide (c = "a"%char) then Some 7
  else if bool_decide (c = "b"%char) then Some 8
  else if bool_decide (c = "f"%char) then Some 12
  else if bool_decide (c = "n"%char) then Some 10
  else if bool_decide (c = "r"%char) then Some 13
  else if bool_decide (c = "t"%char) then Some 9
  else if bool_decide (c = "v"%char) then Some 11
  else if bool_decide (c = "\"%char) then Some 92
  else None.

(** The digits of a group number that [int] reads as zero: zeros, single
    underscores between them, and white space after them.  The result is
    the number of digits. *)
Fixpoint zeros (after_digit : bool) (n : nat) (s : string) : option nat :=
  match s with
  | EmptyString => if after_digit then Some n else None
  | String c s' =>
      if bool_decide (c = "0"%char) then zeros true (S n) s'
      else if bool_decide (c = "_"%char) then
        if after_digit then zeros false n s' else None
      else if is_space c && after_digit
              && forallb is_space (list_ascii_of_string s')
      then Some n
      else None
  end.

Fixpoint lstrip_space (s : string) : string :=
  match s with
  | EmptyString => EmptyString
  | String c s' => if is_space c then lstrip_space s' else s
  end.

(** The names [name] for which [\g<name>] stands for the whole match when
    the pattern has no group: [int(name)] is zero.  [int] takes white space
    around the number, a sign, and at most 4300 digits.  Every other name
    makes the parser raise: a number of a group that does not exist, a
    name of a group that does not exist, or a bad character. *)
Definition is_group_zero (name : string) : bool :=
  let s := lstrip_space name in
  let s :=
    match s with
    | String c s' =>
        if bool_decide (c = "+"%char) || bool_decide (c = "-"%char)
        then s' else s
    | EmptyString => s
    end in
  match zeros false 0 s with
  | Some n => n <=? 4300
  | None => false
  end.

(** [parse_template] and the expansion of its result for a match
    [matched] of a pattern without groups; [None] is the exception raised
    for a template that is not well formed.  [name] holds the group name
    read so far while the parser is between [\g<] and [>]. *)
Fixpoint expand (matched : string) (name : option string) (ts : list token)
    : option string :=
  match name with
  | Some acc =>
      match ts with
      | [] => None
      | Char c :: ts' =>
          if bool_decide (c = ">"%char) then
            if is_group_zero acc
            then String.append matched <$> expand matched None ts'
            else None
          else expand matched (Some (acc +:+ String c "")) ts'
      | Escape c :: ts' =>
          expand matched (Some (acc +:+ String "\" (String c ""))) ts'
      end
  | None =>
      match ts with
      | [] => Some ""
      | Char c :: ts' => String c <$> expand matched None ts'
      | Escape c :: ts' =>
          if bool_decide (c = "g"%char) then
            match ts' with
            | Char lt :: ts'' =>
                if bool_decide (lt = "<"%char)
                then expand matched (Some "") ts''
                else None
            | _ => None
            end
          else if bool_decide (c = "0"%char) then
            match ts' with
            | Char d1 :: ts1 =>
                if is_octal d1 then
                  match ts1 with
                  | Char d2 :: ts2 =>
                      if is_octal d2
                      then String.append
                             (chr (8 * digit_value d1 + digit_value d2))
                             <$> expand matched None ts2
                      else String.append (chr (digit_value d1))
                             <$> expand matched None ts1
                  | _ => String.append (chr (digit_value d1))
                           <$> expand matched None ts1
                  end
                else String.append (chr 0) <$> expand matched None ts'
            | _ => String.append (chr 0) <$> expand matched None ts'
            end
          else if is_digit c then
            match ts' with
            | Char d2 :: Char d3 :: ts3 =>
                let code :=
                  64 * digit_value c + 8 * digit_value d2 + digit_value d3 in
                if is_octal c && is_octal d2 && is_octal d3 && (code <=? 255)
                then String.append (chr code) <$> expand matched None ts3
                else None
            | _ => None
            end
          else
            match escape_code c with
            | Some code => String.append (chr code) <$> expand matched None ts'
            | None =>
                if is_ascii_letter c then None
                else (λ r, String "\" (String c r))
                       <$> expand matched None ts'
            end
      end
  end.

(** What a match [matched] is replaced with under the template. *)
Definition expand_template (template matched : string) : option string :=
  ts ← tokens template; expand matched None ts.

(** [re.sub(re.escape(pat), template, s)] for a pattern that is not empty:
    the template is parsed first, match or no match. *)
Definition sub_template (pat template s : string) : option string :=
  repl ← expand_template template pat; Some (replace s pat repl).

End Re.

(** ** [list.sort(key=...)]: a stable sort *)

Module PySort.
Section sort.
Context {A : Type} (key : A → nat).

(** Insertion before the first element whose key is not smaller. *)
Fixpoint insert_asc (x : A) (l : list A) : list A :=
  match l with
  | [] => [x]
  | y :: l' => if key x <=? key y then x :: l else y :: insert_asc x l'
  end.

(** [l.sort(key=key)] *)
Definition sort_by_key (l : list A) : list A := foldr insert_asc [] l.

Fixpoint insert_desc (x : A) (l : list A) : list A :=
  match l with
  | [] => [x]
  | y :: l' => if key y <=? key x then x :: l else y :: insert_desc x l'
  end.

(** [l.sort(key=key, reverse=True)]: elements with equal keys keep their
    order. *)
Definition sort_by_key_desc (l : list A) : list A := foldr insert_desc [] l.
End sort.
End PySort.

(** ** The file system *)

Record filesystem := FileSystem {
  files : gmap string string;   (* regular text files, by absolute path *)
  others : gset string;         (* directories and other existing paths *)
  writes : list string          (* paths written, latest last *)
}.

(** [os.path.exists(p)] *)
Definition fs_exists (fs : filesystem) (p : string) : bool :=
  bool_decide (is_Some (files fs !! p)) || bool_decide (p ∈ others fs).

(** [open(p, 'r').read()]; [None] is the exception raised when [p] is not a
    readable text file. *)
Definition fs_read (fs : filesystem) (p : string) : option string :=
  files fs !! p.

(** [open(p, 'w').write(content)] *)
Definition fs_write (fs : filesystem) (p content : string) : filesystem :=
  {| files := <[p := content]> (files fs);
     others := others fs;
     writes := writes fs ++ [p] |}.

(** A loop whose body can raise. *)
Fixpoint foldlM {A B : Type} (f : A → B → option A) (a : A) (l : list B)
    : option A :=
  match l with
  | [] => Some a
  | x :: l' => a' ← f a x; foldlM f a' l'
  end.

(** A loop whose body can change the file system and can raise: the
    result is [None] when a turn of the loop has raised, beside the file
    system as it is then. *)
Fixpoint foldlE {A B : Type}
    (f : A → B → filesystem → option A * filesystem) (a : A) (l : list B)
    (fs : filesystem) : option A * filesystem :=
  match l with
  | [] => (Some a, fs)
  | x :: l' =>
      match f a x fs with
      | (Some a', fs') => foldlE f a' l' fs'
      | (None, fs') => (None, fs')
      end
  end.

(** ** [scripts/link_campaign.py] *)

Module LinkCampaign.
Import PyStr PosixPath Re PySort.

(** An entry of [broken_links]: the dictionary with the keys [source],
    [text], [link] and [suggested_fix]. *)
Record link_info := LinkInfo {
  source : string;
  text : string;
  link : string;
  suggested_fix : option string
}.

Global Instance link_info_eq_dec : EqDecision link_info.
Proof. solve_decision. Defined.

Record LinkDatabase := Db {
  all_files : list string;
  file_content : gmap string string;
  broken_links : list link_info;
  fixed_links : list link_info;
  manual_review : list link_info;
  custom_mappings : gmap string string
}.

(** [LinkDatabase()] after [load_custom_mappings] and [scan_all_files]. *)
Definition init (mappings : gmap string string) (index : list string)
    : LinkDatabase :=
  Db index ∅ [] [] [] mappings.

Definition set_file_content (self : LinkDatabase) (k v : string) :=
  Db (all_files self) (<[k := v]> (file_content self)) (broken_links self)
     (fixed_links self) (manual_review self) (custom_mappings self).

Definition add_broken (self : LinkDatabase) (li : link_info) :=
  Db (all_files self) (file_content self) (broken_links self ++ [li])
     (fixed_links self) (manual_review self) (custom_mappings self).

Definition set_results (self : LinkDatabase) (fixed manual : list link_info) :=
  Db (all_files self) (file_content self) (broken_links self)
     fixed manual (custom_mappings self).

Section with_environment.
(** [ROOT_DIR], and the working directory of the process. *)
Variables (ROOT_DIR cwd : string).

(** The distance of [file] from [source_file]: the number of components
    of the relative path between their directories. *)
Definition distance (source_file file : string) : nat :=
  let source_dir := dirname source_file in
  let target_dir := dirname file in
  let source_dir := if truthy source_dir then source_dir else "." in
  let target_dir := if truthy target_dir then target_dir else "." in
  match relpath cwd target_dir source_dir with
  | Some rel_path => length (split "/" rel_path)
  | None => 1000
  end.

(** First loop over [all_files]. *)
Definition filename_matches (index : list string)
    (target_file source_file : string) : list (string * nat) :=
  (λ file, (file, distance source_file file)) <$>
    List.filter
      (λ file, endswith (lower file) ("/" +:+ lower target_file)) index.

(** Second loop over [all_files]. *)
Definition basename_matches (index : list string)
    (target_file source_file : string) : list (string * nat) :=
  (λ file, (file, distance source_file file)) <$>
    List.filter
      (λ file, bool_decide (lower (basename file) = lower target_file))
      index.

(** The file name and the anchor taken from the last component of the
    link. *)
Definition target_and_anchor (broken_link : string)
    : string * option string :=
  let link_parts := split "/" broken_link in
  let target_file := default "" (last link_parts) in
  match anchor_match target_file with
  | Some (g1, g2) => (g1, Some g2)
  | None => (target_file, None)
  end.

(** The list [matches] after the two loops. *)
Definition candidate_matches (index : list string)
    (target_file source_file : string) : list (string * nat) :=
  let matches := filename_matches index target_file source_file in
  match matches with
  | [] => basename_matches index target_file source_file
  | _ => matches
  end.

(** The list [matches] after the sort by distance. *)
Definition sorted_matches (index : list string)
    (target_file source_file : string) : list (string * nat) :=
  sort_by_key snd (candidate_matches index target_file source_file).

Definition with_anchor (rel_path : string) (anchor : option string)
    : string :=
  match anchor with
  | Some a => if truthy a then rel_path +:+ "#" +:+ a else rel_path
  | None => rel_path
  end.

(** [LinkDatabase.find_best_match] *)
Definition find_best_match (self : LinkDatabase)
    (broken_link source_file : string) : option (option string) :=
  match custom_mappings self !! broken_link with
  | Some corrected => Some (Some corrected)
  | None =>
      let '(target_file, anchor) := target_and_anchor broken_link in
      match sorted_matches (all_files self) target_file source_file with
      | (best_match, _) :: _ =>
          rel_path ← relpath cwd (join ROOT_DIR best_match)
                        (dirname (join ROOT_DIR source_file));
          let rel_path := replace rel_path "\" "/" in
          Some (Some (with_anchor rel_path anchor))
      | [] => Some None
      end
  end.

(** The links that [check_links] passes over. *)
Definition skipped (link : string) : bool :=
  startswith link "http://" || startswith link "https://"
  || startswith link "#" || startswith link "/".

(** The absolute path a link of [source_file] points to. *)
Definition link_target (source_file link_path : string) : string :=
  normpath (join (dirname (join ROOT_DIR source_file)) link_path).

(** The body of the inner loop of [check_links]. *)
Definition check_link (fs : filesystem) (source_file : string)
    (self : LinkDatabase) (m : string * string) : option LinkDatabase :=
  let '(text, link) := m in
  if skipped link then Some self
  else
    let link_path := default "" (head (split "#" link)) in
    if negb (truthy link_path) then Some self
    else
      let link_full_path := link_target source_file link_path in
      _ ← relpath cwd link_full_path ROOT_DIR;
      if negb (fs_exists fs link_full_path) then
        best_match ← find_best_match self link source_file;
        Some (add_broken self (LinkInfo source_file text link best_match))
      else Some self.

(** The body of the outer loop of [check_links]. *)
Definition check_file (fs : filesystem) (self : LinkDatabase)
    (source_file : string) : option LinkDatabase :=
  let full_path := join ROOT_DIR source_file in
  if negb (fs_exists fs full_path) then Some self
  else
    content ← fs_read fs full_path;
    let self := set_file_content self source_file content in
    foldlM (check_link fs source_file) self (findall content).

(** [links_by_file]: the entries grouped by source, the groups in the
    order of their first entry. *)
Fixpoint group_insert (li : link_info)
    (groups : list (string * list link_info))
    : list (string * list link_info) :=
  match groups with
  | [] => [(source li, [li])]
  | (k, lis) :: groups' =>
      if bool_decide (k = source li) then (k, lis ++ [li]) :: groups'
      else (k, lis) :: group_insert li groups'
  end.

Definition links_by_file (broken : list link_info)
    : list (string * list link_info) :=
  foldl (λ groups li, group_insert li groups) [] broken.

Definition old_syntax (li : link_info) : string :=
  "[" +:+ text li +:+ "](" +:+ link li +:+ ")".

Definition new_syntax (li : link_info) (suggestion : string) : string :=
  "[" +:+ text li +:+ "](" +:+ suggestion +:+ ")".

(** The state of the loop over the links of one file:
    [updated_content], [fixed_links] and [manual_review]. *)
Definition fix_state : Type := string * list link_info * list link_info.

(** The body of the inner loop of [fix_links]. *)
Definition fix_link (st : fix_state) (li : link_info) : fix_state :=
  let '(updated_content, fixed, manual) := st in
  match suggested_fix li with
  | Some suggestion =>
      if truthy suggestion then
        if search_literal (old_syntax li) updated_content then
          (sub_literal (old_syntax li) (new_syntax li suggestion)
             updated_content,
           fixed ++ [li], manual)
        else (updated_content, fixed, manual ++ [li])
      else (updated_content, fixed, manual ++ [li])
  | None => (updated_content, fixed, manual ++ [li])
  end.

(** The body of the outer loop of [fix_links]; [None] is the [KeyError]
    of [self.file_content[source_file]]. *)
Definition fix_file (st : LinkDatabase * filesystem)
    (group : string * list link_info)
    : option (LinkDatabase * filesystem) :=
  let '(self, fs) := st in
  let '(source_file, links) := group in
  content ← file_content self !! source_file;
  let links := sort_by_key_desc (λ li, String.length (link li)) links in
  let '(updated_content, fixed, manual) :=
    foldl fix_link (content, fixed_links self, manual_review self) links in
  let fs :=
    if bool_decide (content ≠ updated_content)
    then fs_write fs (join ROOT_DIR source_file) updated_content
    else fs in
  Some (set_results self fixed manual, fs).

(** [LinkDatabase.fix_links] *)
Definition fix_links (self : LinkDatabase) (fs : filesystem)
    : option (LinkDatabase * filesystem) :=
  foldlM fix_file (self, fs) (links_by_file (broken_links self)).

(** [LinkDatabase.check_links] *)
Definition check_links (self : LinkDatabase) (fs : filesystem)
    (dry_run : bool) : option (LinkDatabase * filesystem) :=
  self ← foldlM (check_file fs) self (all_files self);
  if negb dry_run then fix_links self fs else Some (self, fs).

End with_environment.
End LinkCampaign.

(** ** [scripts/simple_link_campaign.py] *)

Module SimpleLinkCampaign.
Import PyStr PosixPath Re PySort.

(** An entry of the lists returned by [check_links_in_file]. *)
Record link_record := LinkRecord {
  source : string;
  text : string;
  link : string;
  resolved : string
}.

Section with_environment.
(** [ROOT_DIR], the working directory, and the two module globals. *)
Variables (ROOT_DIR cwd : string).
Variable custom_mappings : gmap string string.
Variable all_files : list string.

(** The number of leading components that the directory of
    [match_path] shares with [source_dir]. *)
Definition similarity_score (source_dir match_path : string) : nat :=
  let match_dir := dirname match_path in
  common_prefix_length (split sep source_dir) (split sep match_dir).

Definition exact_matches (filename : string) : list string :=
  List.filter (λ file_path, bool_decide (basename file_path = filename))
    all_files.

Definition case_insensitive_matches (filename : string) : list string :=
  List.filter
    (λ file_path,
       bool_decide (lower (basename file_path) = lower filename))
    all_files.

(** [find_best_match]; the [ValueError] of [relpath] is caught there and
    the match itself returned. *)
Definition find_best_match (broken_link source_file : string)
    : option string :=
  match custom_mappings !! broken_link with
  | Some corrected => Some corrected
  | None =>
      let filename := basename broken_link in
      let matches := exact_matches filename in
      let matches :=
        match matches with
        | [] => case_insensitive_matches filename
        | _ => matches
        end in
      let source_dir := dirname source_file in
      match sort_by_key_desc (similarity_score source_dir) matches with
      | best_match :: _ =>
          match relpath cwd best_match source_dir with
          | Some rel_path => Some rel_path
          | None => Some best_match
          end
      | [] => None
      end
  end.

(** The links that [check_links_in_file] passes over. *)
Definition skipped (link_path : string) : bool :=
  startswith link_path "http://" || startswith link_path "https://"
  || startswith link_path "mailto:" || startswith link_path "#".

(** The body of the loop of [check_links_in_file] over the links; the
    state is the pair of [broken_links] and [valid_links]. *)
Definition check_link (fs : filesystem) (file_path : string)
    (st : list link_record * list link_record) (m : string * string)
    : list link_record * list link_record :=
  let '(broken_links, valid_links) := st in
  let '(link_text, link_path) := m in
  if skipped link_path then st
  else if startswith link_path "#" then st
  else
    let source_dir := dirname file_path in
    let full_path := normpath (join source_dir link_path) in
    let entry := LinkRecord file_path link_text link_path full_path in
    if fs_exists fs (join ROOT_DIR full_path)
    then (broken_links, valid_links ++ [entry])
    else (broken_links ++ [entry], valid_links).

(** [check_links_in_file]; a file that cannot be read gives two empty
    lists. *)
Definition check_links_in_file (fs : filesystem) (file_path : string)
    : list link_record * list link_record :=
  match fs_read fs (join ROOT_DIR file_path) with
  | None => ([], [])
  | Some content => foldl (check_link fs file_path) ([], []) (findall content)
  end.

(** The body of the loop of [fix_links_in_file] over the fixes; the state
    is the pair of [content] and [fixes_applied].  The replacement is
    passed to [re.sub] as it is, so it is read as a template, and the
    exception that [re.sub] raises for a template that is not well formed
    is not caught. *)
Definition apply_fix (st : string * nat) (entry : string * string)
    : option (string * nat) :=
  let '(content, fixes_applied) := st in
  let '(old_link, new_link) := entry in
  new_content ←
    sub_template ("](" +:+ old_link +:+ ")") ("](" +:+ new_link +:+ ")")
      content;
  if bool_decide (new_content ≠ content)
  then Some (new_content, fixes_applied + 1)
  else Some (content, fixes_applied).

(** [fix_links_in_file]: the number of fixes applied, or [None] when
    [re.sub] has raised, and the file system afterwards.  [fixes] lists the
    items of the dictionary in order. *)
Definition fix_links_in_file (fs : filesystem) (file_path : string)
    (fixes : list (string * string)) : option nat * filesystem :=
  match fs_read fs (join ROOT_DIR file_path) with
  | None => (Some 0, fs)
  | Some original_content =>
      match foldlM apply_fix (original_content, 0) fixes with
      | Some (content, fixes_applied) =>
          if bool_decide (content ≠ original_content)
          then (Some fixes_applied,
                fs_write fs (join ROOT_DIR file_path) content)
          else (Some fixes_applied, fs)
      | None => (None, fs)
      end
  end.

End with_environment.
End SimpleLinkCampaign.

(** ** The directory tree and the two scans *)

Module OsWalk.
Import PyStr PosixPath.

Unset Elimination Schemes.
(** A directory as [os.scandir] lists it: the names of its files, and its
    subdirectories with their names, both in the order of the listing. *)
Inductive directory :=
  Directory (files : list string) (subdirs : list (string * directory)).
Set Elimination Schemes.

Definition dir_files (d : directory) : list string :=
  match d with Directory files _ => files end.

Definition dir_subdirs (d : directory) : list (string * directory) :=
  match d with Directory _ subdirs => subdirs end.

(** [os.walk(top)], top-down, for a caller that replaces [dirs] by its
    members that satisfy [keep] before the walk descends: the pairs of
    [root] and [files], in the order in which they are yielded. *)
Fixpoint walk (keep : string → bool) (top : string) (d : directory)
    : list (string * list string) :=
  match d with
  | Directory files subdirs =>
      (top, files)
        :: flat_map
             (λ entry,
                if keep entry.1 then walk keep (join top entry.1) entry.2
                else [])
             subdirs
  end.

(** Every name in the tree satisfies [ok]. *)
Fixpoint names_ok (ok : string → bool) (d : directory) : bool :=
  match d with
  | Directory files subdirs =>
      forallb ok files
      && forallb (λ entry, ok entry.1 && names_ok ok entry.2) subdirs
  end.

(** The directory reached from [d] through the subdirectories [dirs]. *)
Fixpoint dir_at (d : directory) (dirs : list string) (sub : directory)
    : Prop :=
  match dirs with
  | [] => sub = d
  | name :: dirs' =>
      ∃ child, (name, child) ∈ dir_subdirs d ∧ dir_at child dirs' sub
  end.

(** [d] has a file [name] in the directory reached through [dirs]. *)
Definition file_at (d : directory) (dirs : list string) (name : string)
    : Prop :=
  ∃ sub, dir_at d dirs sub ∧ name ∈ dir_files sub.

Section scans.
(** [ROOT_DIR], and the working directory of the process. *)
Variables (ROOT_DIR cwd : string).

(** The loop over [files] of both scans: the path relative to the root of
    every file that [is_markdown] accepts is added to the set. *)
Definition add_files (is_markdown : string → bool) (root : string)
    (all_files : gset string) (files : list string) : option (gset string) :=
  foldlM
    (λ all_files file,
       if is_markdown file then
         rel_path ← relpath cwd (join root file) ROOT_DIR;
         Some (all_files ∪ {[ rel_path ]})
       else Some all_files)
    all_files files.

(** [LinkDatabase.scan_all_files] of [link_campaign.py], from the empty
    set: hidden directories are not entered, and a file counts whatever
    the case of its extension. *)
Definition scan_all_files (tree : directory) : option (gset string) :=
  foldlM
    (λ all_files step,
       add_files (λ file, endswith (lower file) ".md") step.1 all_files step.2)
    ∅
    (walk (λ d, negb (startswith d ".")) ROOT_DIR tree).

(** [find_markdown_files] of [simple_link_campaign.py], from the empty
    set. *)
Definition find_markdown_files (tree : directory) : option (gset string) :=
  foldlM
    (λ all_files step,
       add_files (λ file, endswith file ".md") step.1 all_files step.2)
    ∅
    (walk
       (λ d, negb (startswith d ".")
             && negb (bool_decide
                        (d ∈ ["node_modules"; "__pycache__"; "target";
                              "build"; "dist"])))
       ROOT_DIR tree).

End scans.
End OsWalk.

(** ** The text of the reports *)

Module Report.

(** A line feed and a double quote. *)
Definition nl : string := String "010" "".
Definition dq : string := String "034" "".

(** [str(len(l))] *)
Definition str_len {A} (l : list A) : string := pretty (length l).

End Report.

(** ** The report and [main] of [scripts/link_campaign.py] *)

Module LinkCampaignMain.
Import PyStr PosixPath LinkCampaign Report.

(** A row of the table of fixed links; [str(None)] is [None]. *)
Definition fixed_row (li : link_info) : string :=
  "| " +:+ source li +:+ " | " +:+ text li +:+ " | " +:+ link li +:+ " | "
  +:+ default "None" (suggested_fix li) +:+ " |" +:+ nl.

(** A row of the table of links left for manual review. *)
Definition manual_row (li : link_info) : string :=
  let suggestion :=
    match suggested_fix li with
    | Some s => if truthy s then s else "No suggestion"
    | None => "No suggestion"
    end in
  "| " +:+ source li +:+ " | " +:+ text li +:+ " | " +:+ link li +:+ " | "
  +:+ suggestion +:+ " |" +:+ nl.

Definition report_title : string :=
  "# Link Campaign Report" +:+ nl +:+ nl
  +:+ "Generated: June 17, 2025" +:+ nl +:+ nl.

(** The summary, from the four numbers it shows. *)
Definition report_summary (n_files n_broken n_fixed n_manual : string)
    : string :=
  "## Summary" +:+ nl +:+ nl
  +:+ "- Total markdown files: " +:+ n_files +:+ nl
  +:+ "- Broken links found: " +:+ n_broken +:+ nl
  +:+ "- Links fixed automatically: " +:+ n_fixed +:+ nl
  +:+ "- Links requiring manual review: " +:+ n_manual +:+ nl +:+ nl.

Definition fixed_section (fixed : list link_info) : string :=
  match fixed with
  | [] => ""
  | _ =>
      "## Links Fixed Automatically" +:+ nl +:+ nl
      +:+ "| Source File | Link Text | Old Path | New Path |" +:+ nl
      +:+ "|-------------|-----------|----------|----------|" +:+ nl
      +:+ String.concat "" (fixed_row <$> fixed)
      +:+ nl
  end.

Definition manual_section (manual : list link_info) : string :=
  match manual with
  | [] => ""
  | _ =>
      "## Links Requiring Manual Review" +:+ nl +:+ nl
      +:+ "| Source File | Link Text | Broken Path | Suggested Fix |" +:+ nl
      +:+ "|-------------|-----------|-------------|---------------|" +:+ nl
      +:+ String.concat "" (manual_row <$> manual)
      +:+ nl
  end.

Definition report_guidance : string :=
  "## Next Steps" +:+ nl +:+ nl
  +:+ "1. Review this report for any incorrectly fixed links" +:+ nl
  +:+ "2. Manually update links in the 'Manual Review' section" +:+ nl
  +:+ "3. Run the link checker again to verify all issues are resolved" +:+ nl
  +:+ "4. Update custom mappings for problematic links" +:+ nl +:+ nl
  +:+ "## How to Create Custom Link Mappings" +:+ nl +:+ nl
  +:+ "Edit the file `scripts/link_mappings.json` with entries like:"
  +:+ nl +:+ nl
  +:+ "```json" +:+ nl
  +:+ "{" +:+ nl
  +:+ "  " +:+ dq +:+ "broken/path.md" +:+ dq +:+ ": "
  +:+ dq +:+ "correct/path.md" +:+ dq +:+ "," +:+ nl
  +:+ "  " +:+ dq +:+ "another/broken.md" +:+ dq +:+ ": "
  +:+ dq +:+ "../fixed.md" +:+ dq +:+ nl
  +:+ "}" +:+ nl
  +:+ "```" +:+ nl.

(** What [generate_report] writes to the report file. *)
Definition report_text (self : LinkDatabase) : string :=
  report_title
  +:+ report_summary (str_len (all_files self)) (str_len (broken_links self))
        (str_len (fixed_links self)) (str_len (manual_review self))
  +:+ fixed_section (fixed_links self)
  +:+ manual_section (manual_review self)
  +:+ report_guidance.

Section with_environment.
Variables (ROOT_DIR cwd : string).
(** The text that [json.dump(table, f, indent=2, sort_keys=True)] writes
    for a table. *)
Variable json_dump : gmap string string → string.

Definition REPORT_PATH : string := join ROOT_DIR "link_campaign_report.md".
Definition LINK_MAPPING_FILE : string :=
  join (join ROOT_DIR "scripts") "link_mappings.json".

(** [LinkDatabase.generate_report]: the report, and an empty table in the
    mappings file when there is no such file. *)
Definition generate_report (self : LinkDatabase) (fs : filesystem)
    : filesystem :=
  let fs := fs_write fs REPORT_PATH (report_text self) in
  if negb (fs_exists fs LINK_MAPPING_FILE)
  then fs_write fs LINK_MAPPING_FILE "{}"
  else fs.

(** [LinkDatabase.save_custom_mappings] *)
Definition save_custom_mappings (self : LinkDatabase) (fs : filesystem)
    : filesystem :=
  fs_write fs LINK_MAPPING_FILE (json_dump (custom_mappings self)).

(** [main] from the call of [check_links] on, for the flags [--fix] and
    [--report], the table that [load_custom_mappings] has read and the
    index that [scan_all_files] has built: the exit status and the file
    system afterwards. *)
Definition main (args_fix args_report : bool)
    (mappings : gmap string string) (index : list string) (fs : filesystem)
    : option (nat * filesystem) :=
  let db := init mappings index in
  '(db, fs) ← check_links ROOT_DIR cwd db fs (negb args_fix);
  let fs := generate_report db fs in
  let fs :=
    if args_report then fs
    else if args_fix then save_custom_mappings db fs
    else fs in
  Some (match manual_review db with [] => 0 | _ => 1 end, fs).

End with_environment.
End LinkCampaignMain.

(** ** The report and [main] of [scripts/simple_link_campaign.py] *)

Module SimpleLinkCampaignMain.
Import PyStr PosixPath SimpleLinkCampaign Report.

(** [sorted(l)] for a list of strings: they compare by the codes of their
    characters, a proper prefix before the longer string. *)
Fixpoint insert_sorted (x : string) (l : list string) : list string :=
  match l with
  | [] => [x]
  | y :: l' => if String.leb x y then x :: l else y :: insert_sorted x l'
  end.

Definition sorted (l : list string) : list string := foldr insert_sorted [] l.

(** An entry of [fixed_links]: the entry of [all_broken_links] with its
    key [suggested_fix]. *)
Definition fixed_record : Type := link_record * string.

Definition fixed_row (entry : fixed_record) : string :=
  "| " +:+ source entry.1 +:+ " | " +:+ text entry.1 +:+ " | "
  +:+ link entry.1 +:+ " | " +:+ entry.2 +:+ " |" +:+ nl.

(** An entry of [manual_review] has [None] under [suggested_fix]. *)
Definition manual_row (entry : link_record) : string :=
  "| " +:+ source entry +:+ " | " +:+ text entry +:+ " | "
  +:+ link entry +:+ " | " +:+ "No suggestion" +:+ " |" +:+ nl.

(** What [generate_report] writes; [now] is the time stamp. *)
Definition report_text (now : string) (broken_links : list link_record)
    (fixed_links : list fixed_record) (manual_review : list link_record)
    (dry_run : bool) : string :=
  "# Link Campaign Report" +:+ nl +:+ nl
  +:+ "*Generated: " +:+ now +:+ "*" +:+ nl +:+ nl
  +:+ "## Summary" +:+ nl +:+ nl
  +:+ "- **Total broken links found**: " +:+ str_len broken_links +:+ nl
  +:+ "- **Links automatically fixed**: " +:+ str_len fixed_links +:+ nl
  +:+ "- **Links requiring manual review**: " +:+ str_len manual_review
  +:+ nl
  +:+ "- **Mode**: " +:+ (if dry_run then "Dry run" else "Applied fixes")
  +:+ nl +:+ nl
  +:+ match fixed_links with
      | [] => ""
      | _ =>
          "## Automatically Fixed Links" +:+ nl +:+ nl
          +:+ "| Source File | Link Text | Old Path | New Path |" +:+ nl
          +:+ "|-------------|-----------|----------|----------|" +:+ nl
          +:+ String.concat "" (fixed_row <$> fixed_links)
          +:+ nl
      end
  +:+ match manual_review with
      | [] => ""
      | _ =>
          "## Links Requiring Manual Review" +:+ nl +:+ nl
          +:+ "| Source File | Link Text | Broken Path | Suggested Fix |"
          +:+ nl
          +:+ "|-------------|-----------|-------------|---------------|"
          +:+ nl
          +:+ String.concat "" (manual_row <$> manual_review)
          +:+ nl
      end
  +:+ "## Next Steps" +:+ nl +:+ nl
  +:+ "1. Review this report for any incorrectly fixed links" +:+ nl
  +:+ "2. Manually update links in the 'Manual Review' section" +:+ nl
  +:+ "3. Run the link checker again to verify all issues are resolved" +:+ nl
  +:+ "4. Update custom mappings for problematic links" +:+ nl.

Section with_environment.
(** [ROOT_DIR], the working directory, the two module globals (the table
    as loaded, the set as [find_markdown_files] has filled it) and the
    time at which the report is written. *)
Variables (ROOT_DIR cwd : string).
Variable custom_mappings : gmap string string.
Variable all_files : list string.
Variable now : string.

Definition REPORT_PATH : string := join ROOT_DIR "link_campaign_report.md".

(** The first loop of [main]: [all_broken_links] and [all_valid_links]. *)
Definition check_all (fs : filesystem)
    : list link_record * list link_record :=
  foldl
    (λ st file_path,
       let '(broken_links, valid_links) :=
         check_links_in_file ROOT_DIR fs file_path in
       (st.1 ++ broken_links, st.2 ++ valid_links))
    ([], []) (sorted all_files).

(** The body of the second loop of [main]; the state is [fixed_links]
    and [manual_review], beside the file system.  An exception raised in
    [fix_links_in_file] is not caught. *)
Definition resolve_link (args_fix : bool)
    (st : list fixed_record * list link_record) (broken_link : link_record)
    (fs : filesystem)
    : option (list fixed_record * list link_record) * filesystem :=
  let '(fixed_links, manual_review) := st in
  match find_best_match cwd custom_mappings all_files (link broken_link)
          (source broken_link) with
  | Some suggested_fix =>
      if truthy suggested_fix then
        let fixed_links := fixed_links ++ [(broken_link, suggested_fix)] in
        if args_fix then
          match fix_links_in_file ROOT_DIR fs (source broken_link)
                  [(link broken_link, suggested_fix)] with
          | (Some fixes_applied, fs) => (Some (fixed_links, manual_review), fs)
          | (None, fs) => (None, fs)
          end
        else (Some (fixed_links, manual_review), fs)
      else (Some (fixed_links, manual_review ++ [broken_link]), fs)
  | None => (Some (fixed_links, manual_review ++ [broken_link]), fs)
  end.

(** [main] after [find_markdown_files], for the flags [--fix] and
    [--report]: the exit status that [main] returns, or [None] when it
    raises, and the file system afterwards.  The flag [--report] only
    selects a message. *)
Definition main (args_fix args_report : bool) (fs : filesystem)
    : option nat * filesystem :=
  let '(all_broken_links, all_valid_links) := check_all fs in
  match foldlE (resolve_link args_fix) ([], []) all_broken_links fs with
  | (Some (fixed_links, manual_review), fs) =>
      let fs :=
        fs_write fs REPORT_PATH
          (report_text now all_broken_links fixed_links manual_review
             (negb args_fix)) in
      (Some (if bool_decide (length all_broken_links = length fixed_links)
             then 0 else 1),
       fs)
  | (None, fs) => (None, fs)
  end.

End with_environment.
End SimpleLinkCampaignMain.

(** ** [scripts/fix_critical_links.py] *)

Module FixCriticalLinks.
Import PyStr Re.

(** The table used when [link_mappings.json] cannot be loaded. *)
Definition default_fixes : gmap string string :=
  {[ "troubleshooting.md" := "../TROUBLESHOOTING.md";
     "./troubleshooting.md" := "troubleshooting.md";
     "./related1.md" := "../INSTALLATION.md";
     "./related2.md" := "../INSTALLATION_REVIEW.md" ]}.

Section with_table.
(** The module global [critical_link_fixes]. *)
Variable critical_link_fixes : gmap string string.

(** The body of the loop of [fix_file]; the state is [content] and
    [fixed_count]. *)
Definition fix_link (st : string * nat) (m : string * string)
    : string * nat :=
  let '(content, fixed_count) := st in
  let '(link_text, link_path) := m in
  if startswith link_path "http://" || startswith link_path "https://"
  then st
  else
    match critical_link_fixes !! link_path with
    | Some new_link =>
        let old_link := "[" +:+ link_text +:+ "](" +:+ link_path +:+ ")" in
        let new_link_text := "[" +:+ link_text +:+ "](" +:+ new_link +:+ ")" in
        (replace content old_link new_link_text, fixed_count + 1)
    | None => st
    end.

(** [fix_file]: the number returned and the file system afterwards;
    [None] is the exception raised when the file exists and cannot be
    read. *)
Definition fix_file (fs : filesystem) (file_path : string)
    : option (nat * filesystem) :=
  if negb (fs_exists fs file_path) then Some (0, fs)
  else
    original_content ← fs_read fs file_path;
    let '(content, fixed_count) :=
      foldl fix_link (original_content, 0) (findall original_content) in
    let fs :=
      if bool_decide (content ≠ original_content)
      then fs_write fs file_path content
      else fs in
    Some (fixed_count, fs).

End with_table.
End FixCriticalLinks.

(** ** Normalised paths

    [scan_all_files] fills the index with the results of [os.path.relpath]
    on the files that [os.walk] finds below [ROOT_DIR], and [ROOT_DIR] is a
    result of [os.path.abspath]: the paths of the index are sequences of
    names separated by single slashes, and the root is a slash followed by
    such a sequence. *)

Module Normalised.
Import PyStr.

Fixpoint has_char (c : ascii) (s : string) : bool :=
  match s with
  | EmptyString => false
  | String a s' => bool_decide (a = c) || has_char c s'
  end.

(** A name of a directory entry. *)
Definition is_name (s : string) : bool :=
  truthy s && negb (bool_decide (s = ".")) && negb (bool_decide (s = ".."))
  && negb (has_char "/" s).

(** A relative path as [relpath] returns it for a file below its start. *)
Definition relative (p : string) : bool :=
  forallb is_name (split "/" p).

(** An absolute path as [abspath] returns it. *)
Definition absolute (p : string) : bool :=
  match p with
  | String "/"%char EmptyString => true
  | String "/"%char q => relative q
  | _ => false
  end.

(** A path written with forward slashes only. *)
Definition forward_slashes (p : string) : bool := negb (has_char "\" p).

(** A path without a hash sign. *)
Definition without_hash (p : string) : bool := negb (has_char "#" p).

(** An index as [scan_all_files] builds it on a system whose file names
    hold no backslash. *)
Definition normalised_index (index : list string) : bool :=
  forallb (λ file, relative file && forward_slashes file) index.

Definition rel_of (names : list string) : string := PyStr.join "/" names.
Definition abs_of (names : list string) : string := "/" +:+ rel_of names.

End Normalised.

(** ** Predicates used in the statements and proofs *)

(** A component of a path: non-empty and without a slash. *)
Definition comp (s : string) : Prop :=
  s ≠ "" ∧ Normalised.has_char "/" s = false.

Abbreviation names := (Forall (λ s, Normalised.is_name s = true)).

(** The list [rel_list] of [relpath] for a start with the components [S]
    and a path with the components [P], and the string made of it. *)
Definition rel_list (S P : list string) : list string :=
  replicate (length S - PosixPath.common_prefix_length S P) ".."
  ++ drop (PosixPath.common_prefix_length S P) P.

Definition rel_string (l : list string) : string :=
  match l with [] => "." | _ => Normalised.rel_of l end.

(** Every group of [links_by_file] is non-empty and holds entries of one
    source. *)
Definition grouped (groups : list (string * list LinkCampaign.link_info))
    : Prop :=
  ∀ k lis, (k, lis) ∈ groups →
           lis ≠ [] ∧ ∀ li, li ∈ lis → LinkCampaign.source li = k.


Section invariants.
Import LinkCampaign.
Variables (ROOT_DIR cwd : string).

(** What [check_links] has established of an entry of [broken_links]. *)
Definition reported (fs : filesystem) (db0 : LinkDatabase) (li : link_info)
    : Prop :=
  source li ∈ all_files db0
  ∧ skipped (link li) = false
  ∧ PyStr.truthy (default "" (head (PyStr.split "#" (link li)))) = true
  ∧ fs_exists fs
      (link_target ROOT_DIR (source li)
         (default "" (head (PyStr.split "#" (link li))))) = false
  ∧ find_best_match ROOT_DIR cwd db0 (link li) (source li)
    = Some (suggested_fix li).

(** The invariant of the loops of [check_links]. *)
Definition analysed (fs : filesystem) (db0 db : LinkDatabase) : Prop :=
  all_files db = all_files db0
  ∧ custom_mappings db = custom_mappings db0
  ∧ fixed_links db = fixed_links db0
  ∧ manual_review db = manual_review db0
  ∧ (∀ k c, file_content db !! k = Some c →
            fs_read fs (PosixPath.join ROOT_DIR k) = Some c)
  ∧ (∀ li, li ∈ broken_links db →
           is_Some (file_content db !! source li) ∧ reported fs db0 li).
End invariants.

(** Every file of the index that exists can be read. *)
Definition index_readable (ROOT_DIR : string) (fs : filesystem)
    (index : list string) : bool :=
  forallb
    (λ file,
       implb (fs_exists fs (PosixPath.join ROOT_DIR file))
         (bool_decide (is_Some (fs_read fs (PosixPath.join ROOT_DIR file)))))
    index.

(** No path of the index holds a hash sign. *)
Definition hash_free_index (index : list string) : bool :=
  forallb Normalised.without_hash index.


(** An index in which a file with the name of the broken target exists, and
    a table that sends the target elsewhere. *)
Definition db_override_and_candidate : LinkCampaign.LinkDatabase :=
  LinkCampaign.init {[ "setup.md" := "guide/install.md" ]}
    ["index.md"; "docs/setup.md"; "guide/install.md"].

(** What an entry of [broken_links] was read from. *)
Definition extracted (ROOT_DIR : string) (fs : filesystem)
    (li : LinkCampaign.link_info) : Prop :=
  ∃ content,
    fs_read fs (PosixPath.join ROOT_DIR (LinkCampaign.source li))
      = Some content
    ∧ (LinkCampaign.text li, LinkCampaign.link li) ∈ Re.findall content.

(** The analysis only appends to [broken_links], and leaves the index and
    the table as they are. *)
Definition grows (db db' : LinkCampaign.LinkDatabase) : Prop :=
  LinkCampaign.all_files db' = LinkCampaign.all_files db
  ∧ LinkCampaign.custom_mappings db' = LinkCampaign.custom_mappings db
  ∧ ∀ li, li ∈ LinkCampaign.broken_links db →
          li ∈ LinkCampaign.broken_links db'.

(** The suggestion that [main] of [simple_link_campaign.py] accepts for an
    entry of [all_broken_links]: a result of [find_best_match] that is not
    empty. *)
Definition accepted_fix (cwd : string) (mappings : gmap string string)
    (index : list string) (entry : SimpleLinkCampaign.link_record)
    : option string :=
  match SimpleLinkCampaign.find_best_match cwd mappings index
          (SimpleLinkCampaign.link entry) (SimpleLinkCampaign.source entry) with
  | Some suggested_fix =>
      if PyStr.truthy suggested_fix then Some suggested_fix else None
  | None => None
  end.

(** The fix that [main] of [simple_link_campaign.py] accepts for an entry
    makes a template that [re.sub] rejects. *)
Definition rejected_fix (cwd : string) (mappings : gmap string string)
    (index : list string) (entry : SimpleLinkCampaign.link_record) : bool :=
  match accepted_fix cwd mappings index entry with
  | Some suggested_fix =>
      bool_decide
        (Re.expand_template ("](" +:+ suggested_fix +:+ ")")
           ("](" +:+ SimpleLinkCampaign.link entry +:+ ")") = None)
  | None => false
  end.

(** What a part of a run may change of the file system: no path is
    created or removed, and only the files [paths] are changed or
    written. *)
Definition touches_only (paths : list string) (fs fs' : filesystem) : Prop :=
  (∀ p, is_Some (files fs' !! p) ↔ is_Some (files fs !! p))
  ∧ others fs' = others fs
  ∧ (∀ p, files fs' !! p ≠ files fs !! p → p ∈ paths)
  ∧ ∃ written,
      writes fs' = writes fs ++ written ∧ ∀ p, p ∈ written → p ∈ paths.

(** The documents of the entries for which [main] of
    [simple_link_campaign.py] accepts a suggestion. *)
Definition fixed_documents (ROOT_DIR cwd : string)
    (mappings : gmap string string) (index : list string)
    (entries : list SimpleLinkCampaign.link_record) : list string :=
  (λ entry, PosixPath.join ROOT_DIR (SimpleLinkCampaign.source entry))
    <$> List.filter
          (λ entry, bool_decide (is_Some (accepted_fix cwd mappings index entry)))
          entries.




(** The entry that [check_links_in_file] of [simple_link_campaign.py]
    makes of a link. *)
Definition entry_of (file_path : string) (m : string * string)
    : SimpleLinkCampaign.link_record :=
  SimpleLinkCampaign.LinkRecord file_path m.1 m.2
    (PosixPath.normpath (PosixPath.join (PosixPath.dirname file_path) m.2)).

(** A link that [fix_file] of [fix_critical_links.py] rewrites: not
    external, and with an entry in the table. *)
Definition critical_hit (table : gmap string string) (m : string * string)
    : bool :=
  negb (PyStr.startswith m.2 "http://" || PyStr.startswith m.2 "https://")
  && bool_decide (is_Some (table !! m.2)).

(** A repository with a hidden directory, a directory of build products
    and an extension in capitals. *)
Definition example_tree : OsWalk.directory :=
  OsWalk.Directory ["README.md"; "notes.txt"]
    [("docs", OsWalk.Directory ["Guide.MD"; "api.md"]
                [("build", OsWalk.Directory ["out.md"] [])]);
     (".github", OsWalk.Directory ["PULL_REQUEST.md"] []);
     ("node_modules", OsWalk.Directory ["pkg.md"] [])].

(** A document with a link that can be fixed and one that cannot. *)
Definition fs_two_broken_links : filesystem :=
  FileSystem
    {[ "/repo/index.md" := "[a](x.md) and [gone](nowhere.md)";
       "/repo/sub/x.md" := "x" ]} ∅ [].

(** A document with an anchored link to an existing document. *)
Definition fs_anchored_link : filesystem :=
  FileSystem
    {[ "/repo/index.md" := "See [install](guide.md#install).";
       "/repo/guide.md" := "# Install" ]} ∅ [].

(** A document with a link that occurs twice, a second link in the
    fallback table and an external link. *)
Definition fs_critical : filesystem :=
  FileSystem
    {[ "/repo/README.md" :=
         "[t](./troubleshooting.md), [t](./troubleshooting.md), [r](./related1.md) and [s](https://example.org)" ]}
    ∅ [].

(** * Properties *)

(** ** Stable sorting *)

Section sort_facts.
Import PySort.
Context {A : Type} (key : A → nat).

Lemma insert_asc_not_nil x l : insert_asc key x l ≠ [].
Proof. destruct l as [|y l]; simpl; [done|]. by destruct (_ <=? _). Qed.

Lemma sort_by_key_nil_inv l : sort_by_key key l = [] → l = [].
Proof.
  destruct l as [|x l]; [done|]. simpl. intros H.
  by apply insert_asc_not_nil in H.
Qed.

(** The head of the sorted list is the first element of the list, in its
    original order, whose key is minimal. *)
Lemma sort_by_key_head l x rest :
  sort_by_key key l = x :: rest →
  ∃ pre post, l = pre ++ x :: post
    ∧ Forall (λ y, key x < key y) pre ∧ Forall (λ y, key x ≤ key y) post.
Proof.
  revert x rest. induction l as [|a l IH]; intros x rest; [done|].
  simpl. destruct (sort_by_key key l) as [|y r] eqn:Hs.
  - apply sort_by_key_nil_inv in Hs as ->. simpl. intros [= <- <-].
    by exists [], [].
  - destruct (IH y r eq_refl) as (pre & post & -> & Hpre & Hpost).
    simpl. destruct (key a <=? key y) eqn:Hle.
    + apply Nat.leb_le in Hle. intros [= <- <-].
      exists [], (pre ++ y :: post). split; [done|]. split; [done|].
      apply Forall_app. split.
      * eapply Forall_impl; [exact Hpre|]. simpl. lia.
      * constructor; [done|]. eapply Forall_impl; [exact Hpost|]. simpl. lia.
    + apply Nat.leb_gt in Hle. intros [= <- <-].
      exists (a :: pre), post. split; [done|]. split; [|done].
      by constructor.
Qed.

Lemma insert_asc_perm x l : insert_asc key x l ≡ₚ x :: l.
Proof.
  induction l as [|y l IH]; simpl; [done|].
  destruct (_ <=? _); [done|]. rewrite IH. apply Permutation_swap.
Qed.

Lemma sort_by_key_perm l : sort_by_key key l ≡ₚ l.
Proof.
  induction l as [|x l IH]; simpl; [done|].
  by rewrite insert_asc_perm, IH.
Qed.

Lemma insert_desc_perm x l : insert_desc key x l ≡ₚ x :: l.
Proof.
  induction l as [|y l IH]; simpl; [done|].
  destruct (_ <=? _); [done|]. rewrite IH. apply Permutation_swap.
Qed.

Lemma sort_by_key_desc_perm l : sort_by_key_desc key l ≡ₚ l.
Proof.
  induction l as [|x l IH]; simpl; [done|].
  by rewrite insert_desc_perm, IH.
Qed.

Lemma sort_by_key_desc_head_in l x rest :
  sort_by_key_desc key l = x :: rest → x ∈ l.
Proof.
  intros H. rewrite <- (sort_by_key_desc_perm l), H. by left.
Qed.

End sort_facts.

(** ** Loops that can raise *)

Section loops.

Lemma foldlM_app {A B} (f : A → B → option A) a l1 l2 :
  foldlM f a (l1 ++ l2) = foldlM f a l1 ≫= λ a', foldlM f a' l2.
Proof.
  revert a. induction l1 as [|x l1 IH]; intros a; simpl; [done|].
  destruct (f a x); simpl; [apply IH|done].
Qed.

(** An invariant of a loop that can raise. *)
Lemma foldlM_invariant {A B} (f : A → B → option A) (P : A → Prop) l a a' :
  (∀ a x a', x ∈ l → P a → f a x = Some a' → P a') →
  P a → foldlM f a l = Some a' → P a'.
Proof.
  revert a. induction l as [|x l IH]; intros a Hstep Ha; simpl.
  - by intros [= <-].
  - destruct (f a x) as [a1|] eqn:Hf; [|done]. simpl.
    apply IH.
    + intros ???? . apply Hstep. by right.
    + eapply Hstep; [by left|done..].
Qed.

Lemma foldlM_total {A B} (f : A → B → option A) (P : A → Prop) l a :
  (∀ a x, x ∈ l → P a → ∃ a', f a x = Some a' ∧ P a') →
  P a → ∃ a', foldlM f a l = Some a' ∧ P a'.
Proof.
  revert a. induction l as [|x l IH]; intros a Hstep Ha; cbn [foldlM].
  - by exists a.
  - destruct (Hstep a x) as (a1 & -> & Ha1); [by left|done|].
    cbn [mbind option_bind]. apply IH; [|done].
    intros a2 y Hy. apply Hstep. by right.
Qed.

End loops.

(** ** Strings and paths *)

Section string_facts.
Import PyStr Normalised.

Lemma app_cons (c : ascii) (s t : string) :
  String c s +:+ t = String c (s +:+ t).
Proof. done. Qed.

Lemma app_empty_l (s : string) : "" +:+ s = s.
Proof. done. Qed.

Lemma app_empty_r (s : string) : s +:+ "" = s.
Proof. induction s as [|c s IH]; [done|]. by rewrite app_cons, IH. Qed.

Lemma app_assoc_str (s t u : string) : (s +:+ t) +:+ u = s +:+ (t +:+ u).
Proof. induction s as [|c s IH]; [done|]. by rewrite !app_cons, IH. Qed.

Lemma app_eq_empty (s t : string) : s +:+ t = "" → s = "" ∧ t = "".
Proof. destruct s; [done|]. by rewrite app_cons. Qed.

Lemma has_char_app c s t :
  has_char c (s +:+ t) = has_char c s || has_char c t.
Proof.
  induction s as [|a s IH]; [done|].
  rewrite app_cons. simpl. by rewrite IH, orb_assoc.
Qed.

Lemma split_not_nil c s : split c s ≠ [].
Proof.
  induction s as [|a s IH]; simpl; [done|].
  case_bool_decide; [done|]. by destruct (split c s).
Qed.

Lemma split_without c s : has_char c s = false → split c s = [s].
Proof.
  induction s as [|a s IH]; simpl; [done|].
  intros [Ha Hs]%orb_false_elim. rewrite Ha, (IH Hs). done.
Qed.

Lemma split_app c s t :
  has_char c s = false → split c (s +:+ String c t) = s :: split c t.
Proof.
  induction s as [|a s IH]; simpl.
  - intros _. by rewrite bool_decide_eq_true_2.
  - intros [Ha Hs]%orb_false_elim. by rewrite Ha, (IH Hs).
Qed.

Lemma split_components c s : Forall (λ x, has_char c x = false) (split c s).
Proof.
  induction s as [|a s IH]; simpl; [by constructor|].
  case_bool_decide as Ha; [by constructor|].
  pose proof (split_not_nil c s) as Hne.
  destruct (split c s) as [|h t]; [done|].
  inversion_clear IH as [|?? Hh Ht]. constructor; [|done].
  simpl. rewrite Hh. by rewrite bool_decide_eq_false_2.
Qed.

Lemma join_cons sep x y l :
  join sep (x :: y :: l) = x +:+ sep +:+ join sep (y :: l).
Proof. done. Qed.

Lemma join_app sep l1 l2 :
  l1 ≠ [] → l2 ≠ [] →
  join sep (l1 ++ l2) = join sep l1 +:+ sep +:+ join sep l2.
Proof.
  intros H1 H2. induction l1 as [|x l1 IH]; [done|].
  destruct l1 as [|y l1].
  - destruct l2; [done|]. done.
  - change ((x :: y :: l1) ++ l2) with (x :: (y :: l1) ++ l2).
    change ((y :: l1) ++ l2) with (y :: l1 ++ l2) at 1.
    rewrite join_cons. change (y :: l1 ++ l2) with ((y :: l1) ++ l2).
    rewrite IH by done. rewrite join_cons. by rewrite !app_assoc_str.
Qed.

Lemma join_split c s : join (String c "") (split c s) = s.
Proof.
  induction s as [|a s IH]; simpl; [done|].
  pose proof (split_not_nil c s) as Hne.
  case_bool_decide as Ha.
  - subst a. destruct (split c s) as [|h t]; [done|].
    rewrite join_cons, IH. done.
  - destruct (split c s) as [|h t]; [done|].
    destruct t as [|h' t].
    + simpl in *. by rewrite IH.
    + rewrite join_cons in *. rewrite app_cons. by rewrite IH.
Qed.

Lemma split_join c l :
  l ≠ [] → Forall (λ x, has_char c x = false) l →
  split c (join (String c "") l) = l.
Proof.
  intros Hne Hl. induction l as [|x l IH]; [done|].
  inversion_clear Hl as [|?? Hx Hl'].
  destruct l as [|y l].
  - simpl. by apply split_without.
  - rewrite join_cons. rewrite app_cons, app_empty_l.
    rewrite split_app by done. by rewrite IH.
Qed.

Lemma has_char_join c sep l :
  has_char c sep = false → Forall (λ x, has_char c x = false) l →
  has_char c (join sep l) = false.
Proof.
  intros Hsep Hl. induction l as [|x l IH]; [done|].
  inversion_clear Hl as [|?? Hx Hl'].
  destruct l as [|y l]; [done|].
  rewrite join_cons, !has_char_app, Hx, Hsep. simpl. by apply IH.
Qed.

Lemma startswith_cons c s t :
  startswith (String c s) (String c t) = startswith s t.
Proof.
  unfold startswith. simpl. destruct (ascii_dec c c); [done|congruence].
Qed.

Lemma startswith_char c d s :
  startswith (String c s) (String d "") = bool_decide (d = c).
Proof.
  unfold startswith. simpl. destruct (ascii_dec d c).
  - rewrite bool_decide_eq_true_2 by done. by destruct s.
  - by rewrite bool_decide_eq_false_2.
Qed.

Lemma startswith_empty s : startswith s "" = true.
Proof. by destruct s. Qed.

Lemma length_app_str (s t : string) :
  String.length (s +:+ t) = String.length s + String.length t.
Proof. induction s as [|a s IH]; simpl; [done|]. by rewrite IH. Qed.

Lemma endswith_app s t suf :
  t ≠ "" → String.length suf ≤ String.length t →
  endswith (s +:+ t) suf = endswith t suf.
Proof.
  intros Ht Hlen. induction s as [|a s IH]; [done|].
  rewrite app_cons. simpl. rewrite IH.
  rewrite bool_decide_eq_false_2; [done|].
  intros Heq. apply (f_equal String.length) in Heq.
  simpl in Heq. rewrite length_app_str in Heq.
  destruct t; [done|]. simpl in *. lia.
Qed.

Lemma endswith_without c s :
  has_char c s = false → endswith s (String c "") = false.
Proof.
  induction s as [|a s IH]; simpl; [done|].
  intros [Ha Hs]%orb_false_elim. rewrite (IH Hs), orb_false_r.
  apply bool_decide_eq_false_2. intros [= -> _].
  by rewrite bool_decide_eq_true_2 in Ha.
Qed.

Lemma rpartition_without c s : has_char c s = false → rpartition c s = None.
Proof.
  induction s as [|a s IH]; simpl; [done|].
  intros [Ha Hs]%orb_false_elim. by rewrite (IH Hs), Ha.
Qed.

Lemma rpartition_app c h t :
  has_char c t = false → rpartition c (h +:+ String c t) = Some (h, t).
Proof.
  intros Ht. induction h as [|a h IH].
  - rewrite app_empty_l. simpl. rewrite (rpartition_without _ _ Ht).
    by rewrite bool_decide_eq_true_2.
  - rewrite app_cons. simpl. by rewrite IH.
Qed.

Lemma rstrip_keeps c s :
  s ≠ "" → endswith s (String c "") = false → rstrip c s = s.
Proof.
  induction s as [|a s IH]; [done|]. intros _. simpl.
  intros [Ha Hs]%orb_false_elim.
  destruct s as [|b s].
  - destruct (decide (a = c)) as [->|Hac].
    { by rewrite bool_decide_eq_true_2 in Ha. }
    simpl. by rewrite (bool_decide_eq_false_2 (a = c)).
  - rewrite (IH ltac:(done) Hs). by rewrite andb_false_r.
Qed.

Lemma rstrip_app_sep c s : rstrip c (s +:+ String c "") = rstrip c s.
Proof.
  induction s as [|a s IH].
  - rewrite app_empty_l. simpl. by rewrite bool_decide_eq_true_2.
  - rewrite app_cons. simpl. by rewrite IH.
Qed.

Lemma all_char_app c s t : all_char c (s +:+ t) = all_char c s && all_char c t.
Proof.
  induction s as [|a s IH]; [done|].
  rewrite app_cons. simpl. by rewrite IH, andb_assoc.
Qed.

Lemma all_char_without c s :
  s ≠ "" → has_char c s = false → all_char c s = false.
Proof.
  destruct s as [|a s]; [done|]. simpl.
  intros _ [Ha _]%orb_false_elim. by rewrite Ha.
Qed.

Lemma replace_char_without c new s :
  has_char c s = false → replace s (String c "") new = s.
Proof.
  unfold replace. induction s as [|a s IH]; [done|].
  intros [Ha Hs]%orb_false_elim. cbn [replace_go].
  rewrite startswith_char.
  rewrite bool_decide_eq_false_2.
  - by rewrite (IH Hs).
  - intros ->. by rewrite bool_decide_eq_true_2 in Ha.
Qed.

Lemma split_app_sep c s t :
  split c (s +:+ String c t) = split c s ++ split c t.
Proof.
  induction s as [|a s IH]; simpl.
  - by rewrite bool_decide_eq_true_2.
  - case_bool_decide; [by rewrite IH|]. rewrite IH.
    pose proof (split_not_nil c s) as Hne.
    by destruct (split c s).
Qed.

End string_facts.

Section path_facts.
Import PyStr PosixPath Normalised.

Lemma is_name_comp s : is_name s = true → comp s.
Proof.
  unfold is_name, truthy.
  intros [[[H1 _]%andb_prop _]%andb_prop H2]%andb_prop.
  apply negb_true_iff in H1, H2. by apply bool_decide_eq_false in H1.
Qed.

Lemma is_name_not_dots s : is_name s = true → s ≠ "." ∧ s ≠ "..".
Proof.
  unfold is_name.
  intros [[[_ H1]%andb_prop H2]%andb_prop _]%andb_prop.
  apply negb_true_iff in H1, H2.
  by apply bool_decide_eq_false in H1, H2.
Qed.

Lemma names_comps ns : Forall (λ s, is_name s = true) ns → Forall comp ns.
Proof. intros H. eapply Forall_impl; [done|]. apply is_name_comp. Qed.

Lemma comp_dotdot : comp "..".
Proof. done. Qed.

Lemma comp_not_slash_first s t : comp s → startswith (s +:+ t) "/" = false.
Proof.
  intros [Hne Hs]. destruct s as [|a s]; [done|]. simpl in Hs.
  apply orb_false_elim in Hs as [Ha _].
  rewrite app_cons, startswith_char.
  apply bool_decide_eq_false_2. intros <-.
  by rewrite bool_decide_eq_true_2 in Ha.
Qed.

Lemma rel_of_cons x y l : rel_of (x :: y :: l) = x +:+ "/" +:+ rel_of (y :: l).
Proof. done. Qed.

Lemma rel_of_app l1 l2 :
  l1 ≠ [] → l2 ≠ [] → rel_of (l1 ++ l2) = rel_of l1 +:+ "/" +:+ rel_of l2.
Proof. apply join_app. Qed.

Lemma rel_of_not_slash_first l :
  Forall comp l → startswith (rel_of l) "/" = false.
Proof.
  intros Hl. destruct l as [|x l]; [done|].
  inversion_clear Hl as [|?? Hx _]. destruct l as [|y l].
  - rewrite <- (app_empty_r x). by apply comp_not_slash_first.
  - rewrite rel_of_cons. by apply comp_not_slash_first.
Qed.

Lemma rel_of_not_empty l : Forall comp l → l ≠ [] → rel_of l ≠ "".
Proof.
  intros Hl Hne. destruct l as [|x l]; [done|].
  inversion_clear Hl as [|?? [Hx _] _]. destruct l as [|y l]; [done|].
  rewrite rel_of_cons. by intros [? _]%app_eq_empty.
Qed.

Lemma rel_of_not_slash_last l :
  Forall comp l → endswith (rel_of l) "/" = false.
Proof.
  intros Hl. destruct (decide (l = [])) as [->|Hne]; [done|].
  destruct (exists_last Hne) as (l' & f & ->).
  apply Forall_app in Hl as [_ Hf]. inversion_clear Hf as [|?? [Hf1 Hf2] _].
  destruct l' as [|x l'].
  - by apply endswith_without.
  - rewrite rel_of_app by done.
    rewrite <- app_assoc_str, endswith_app.
    + by apply endswith_without.
    + done.
    + destruct f; [done|]. simpl. lia.
Qed.

Lemma abs_of_not_slash_last l :
  Forall comp l → l ≠ [] → endswith (abs_of l) "/" = false.
Proof.
  intros Hl Hne. unfold abs_of. rewrite endswith_app.
  - by apply rel_of_not_slash_last.
  - by apply rel_of_not_empty.
  - pose proof (rel_of_not_empty l Hl Hne).
    destruct (rel_of l); [done|]. simpl. lia.
Qed.

Lemma rel_of_not_all_slashes l :
  Forall comp l → l ≠ [] → all_char "/" (rel_of l) = false.
Proof.
  intros Hl Hne. destruct l as [|x l]; [done|].
  inversion_clear Hl as [|?? [Hx1 Hx2] _].
  destruct l as [|y l].
  - by apply all_char_without.
  - rewrite rel_of_cons, all_char_app, all_char_without; done.
Qed.

(** [os.path.join] of a normalised directory and a relative path. *)
Lemma join_abs_rel S l :
  Forall comp S → Forall comp l → l ≠ [] →
  join (abs_of S) (rel_of l) = abs_of (S ++ l).
Proof.
  intros HS Hl Hne. unfold join.
  rewrite rel_of_not_slash_first by done.
  destruct S as [|x S].
  - done.
  - rewrite abs_of_not_slash_last by done.
    rewrite bool_decide_eq_false_2 by done. cbn [orb].
    unfold abs_of. rewrite rel_of_app by done.
    by rewrite !app_assoc_str.
Qed.

Lemma join_rel_rel S l :
  Forall comp S → Forall comp l → l ≠ [] →
  join (rel_of S) (rel_of l) = rel_of (S ++ l).
Proof.
  intros HS Hl Hne. unfold join.
  rewrite rel_of_not_slash_first by done.
  destruct S as [|x S].
  - done.
  - rewrite rel_of_not_slash_last by done.
    rewrite bool_decide_eq_false_2 by by apply rel_of_not_empty.
    cbn [orb]. by rewrite rel_of_app.
Qed.

Lemma foldl_join_comps acc p :
  acc ≠ "" → endswith acc "/" = false → Forall comp p →
  foldl join acc p
  = match p with [] => acc | _ => acc +:+ "/" +:+ rel_of p end.
Proof.
  revert acc. induction p as [|b p IH]; intros acc Hne Hend Hp; [done|].
  inversion_clear Hp as [|?? Hb Hp']. cbn [foldl].
  assert (join acc b = acc +:+ "/" +:+ b) as ->.
  { unfold join. rewrite <- (app_empty_r b) at 1.
    rewrite comp_not_slash_first by done.
    by rewrite Hend, bool_decide_eq_false_2. }
  rewrite IH; [| |  |done].
  - destruct p as [|c p]; [done|]. rewrite rel_of_cons.
    by rewrite !app_assoc_str.
  - by intros [? _]%app_eq_empty.
  - destruct Hb as [Hb1 Hb2].
    rewrite <- app_assoc_str, endswith_app.
    + by apply endswith_without.
    + done.
    + destruct b; [done|]. simpl. lia.
Qed.

Lemma foldl_join_rel a p :
  Forall comp (a :: p) → foldl join a p = rel_of (a :: p).
Proof.
  intros Hp. inversion_clear Hp as [|?? [Ha1 Ha2] Hp'].
  rewrite foldl_join_comps; [|done| |done].
  - by destruct p.
  - by apply endswith_without.
Qed.

(** [os.path.dirname] of normalised paths. *)
Lemma abs_of_not_all_slashes l :
  Forall comp l → l ≠ [] → all_char "/" (abs_of l) = false.
Proof.
  intros Hl Hne. unfold abs_of.
  by rewrite all_char_app, rel_of_not_all_slashes, andb_false_r.
Qed.

Lemma dirname_abs_of ns f :
  Forall comp ns → comp f → dirname (abs_of (ns ++ [f])) = abs_of ns.
Proof.
  intros Hns [Hf1 Hf2]. unfold dirname, sep.
  destruct ns as [|x ns].
  - change (abs_of ([] ++ [f])) with ("" +:+ String "/" f).
    by rewrite rpartition_app.
  - assert (abs_of ((x :: ns) ++ [f]) = abs_of (x :: ns) +:+ String "/" f)
      as ->.
    { unfold abs_of. rewrite rel_of_app by done. by rewrite app_assoc_str. }
    rewrite rpartition_app by done.
    rewrite all_char_app, abs_of_not_all_slashes by done. cbn [andb].
    rewrite (rstrip_app_sep "/"). apply rstrip_keeps; [done|].
    by apply abs_of_not_slash_last.
Qed.

Lemma dirname_rel_of ns f :
  Forall comp ns → comp f → dirname (rel_of (ns ++ [f])) = rel_of ns.
Proof.
  intros Hns [Hf1 Hf2]. unfold dirname, sep.
  destruct ns as [|x ns].
  - change (rel_of ([] ++ [f])) with f. by rewrite rpartition_without.
  - assert (rel_of ((x :: ns) ++ [f]) = rel_of (x :: ns) +:+ String "/" f)
      as ->.
    { by rewrite rel_of_app. }
    rewrite rpartition_app by done.
    rewrite all_char_app, rel_of_not_all_slashes by done. cbn [andb].
    rewrite (rstrip_app_sep "/"). apply rstrip_keeps.
    + by apply rel_of_not_empty.
    + by apply rel_of_not_slash_last.
Qed.

(** *** [normpath] and [relpath] on normalised paths *)

Lemma normpath_step_name n acc s :
  is_name s = true → normpath_step n acc s = acc ++ [s].
Proof.
  intros Hs. destruct (is_name_comp s Hs) as [H1 _].
  destruct (is_name_not_dots s Hs) as [H2 H3]. unfold normpath_step.
  rewrite (bool_decide_eq_false_2 (s = "")) by done.
  rewrite (bool_decide_eq_false_2 (s = ".")) by done.
  by rewrite (bool_decide_eq_false_2 (s = "..")).
Qed.

Lemma normpath_loop_names n acc ns :
  names ns → foldl (normpath_step n) acc ns = acc ++ ns.
Proof.
  revert acc. induction ns as [|s ns IH]; intros acc Hns; cbn [foldl].
  - by rewrite app_nil_r.
  - inversion_clear Hns as [|?? Hs Hns'].
    rewrite normpath_step_name, IH by done. by rewrite <- app_assoc.
Qed.

Lemma normpath_step_up n acc s :
  is_name s = true → normpath_step n (acc ++ [s]) ".." = acc.
Proof.
  intros Hs. destruct (is_name_not_dots s Hs) as [_ H3].
  unfold normpath_step. simpl. rewrite last_snoc.
  rewrite (bool_decide_eq_false_2 (acc ++ [s] = [])) by by destruct acc.
  rewrite (bool_decide_eq_false_2 (Some s = Some "..")) by congruence.
  rewrite andb_false_r. simpl. apply removelast_last.
Qed.

Lemma normpath_loop_ups n acc ns :
  names ns →
  foldl (normpath_step n) (acc ++ ns) (replicate (length ns) "..") = acc.
Proof.
  intros Hns. induction ns as [|s ns IH] using rev_ind.
  - by rewrite app_nil_r.
  - apply Forall_app in Hns as [Hns Hs]. inversion_clear Hs as [|?? Hs' _].
    rewrite length_app, Nat.add_comm. cbn [length Nat.add replicate foldl].
    rewrite app_assoc, normpath_step_up by done. by apply IH.
Qed.

Lemma normpath_step_skip n acc s :
  s = "" ∨ s = "." → normpath_step n acc s = acc.
Proof. intros [-> | ->]; done. Qed.

Lemma startswith_two_slashes l :
  Forall comp l → startswith (abs_of l) "//" = false.
Proof.
  intros Hl. unfold abs_of.
  change ("/" +:+ rel_of l) with (String "/" (rel_of l)).
  change "//" with (String "/" "/"). rewrite startswith_cons.
  by apply rel_of_not_slash_first.
Qed.

Lemma startswith_abs_of l : startswith (abs_of l) "/" = true.
Proof.
  unfold abs_of. change ("/" +:+ rel_of l) with (String "/" (rel_of l)).
  rewrite startswith_char. by apply bool_decide_eq_true_2.
Qed.

Lemma initial_slashes_abs_of l :
  Forall comp l → initial_slashes (abs_of l) = 1.
Proof.
  intros Hl. unfold initial_slashes.
  by rewrite startswith_abs_of, startswith_two_slashes.
Qed.

Lemma split_abs_of l :
  Forall comp l →
  split "/" (abs_of l) = "" :: match l with [] => [""] | _ => l end.
Proof.
  intros Hl. unfold abs_of.
  change ("/" +:+ rel_of l) with (String "/" (rel_of l)). cbn [split].
  rewrite bool_decide_eq_true_2 by done. f_equal.
  destruct l as [|x l]; [done|].
  apply (split_join "/"); [done|].
  eapply Forall_impl; [done|]. by intros ? [_ ?].
Qed.

Lemma normpath_loop_abs_of n l :
  Forall comp l →
  foldl (normpath_step n) [] (split "/" (abs_of l))
  = foldl (normpath_step n) [] l.
Proof.
  intros Hl. rewrite split_abs_of by done. cbn [foldl].
  rewrite normpath_step_skip by by left.
  destruct l; [|done]. cbn [foldl]. by rewrite normpath_step_skip by by left.
Qed.

(** [normpath] of a path that goes down [S], up [k] times and down [T]. *)
Lemma normpath_down_up_down S1 S2 T :
  names S1 → names S2 → names T →
  normpath (abs_of ((S1 ++ S2) ++ replicate (length S2) ".." ++ T))
  = abs_of (S1 ++ T).
Proof.
  intros H1 H2 HT.
  assert (Forall comp ((S1 ++ S2) ++ replicate (length S2) ".." ++ T)) as Hc.
  { rewrite !Forall_app. split; [split|split]; try by apply names_comps.
    apply Forall_replicate, comp_dotdot. }
  unfold normpath. rewrite bool_decide_eq_false_2 by done.
  rewrite initial_slashes_abs_of by done.
  rewrite normpath_loop_abs_of by done.
  rewrite !foldl_app.
  rewrite (normpath_loop_names 1 [] S1) by done.
  rewrite (normpath_loop_names 1 _ S2) by done.
  rewrite normpath_loop_ups by done.
  rewrite normpath_loop_names by done.
  by rewrite bool_decide_eq_false_2.
Qed.

Lemma normpath_abs_of ns : names ns → normpath (abs_of ns) = abs_of ns.
Proof.
  intros Hns.
  pose proof (normpath_down_up_down ns [] [] Hns) as H.
  simpl in H. rewrite !app_nil_r in H. by apply H.
Qed.

Lemma normpath_abs_of_dot ns :
  names ns → normpath (abs_of (ns ++ ["."])) = abs_of ns.
Proof.
  intros Hns.
  assert (Forall comp (ns ++ ["."])) as Hc.
  { apply Forall_app. split; [by apply names_comps|]. by constructor. }
  unfold normpath. rewrite bool_decide_eq_false_2 by done.
  rewrite initial_slashes_abs_of by done.
  rewrite normpath_loop_abs_of by done.
  rewrite foldl_app, (normpath_loop_names 1 [] ns) by done. cbn [foldl].
  rewrite normpath_step_skip by by right.
  by rewrite bool_decide_eq_false_2.
Qed.

Lemma abspath_abs_of cwd ns : names ns → abspath cwd (abs_of ns) = abs_of ns.
Proof.
  intros Hns. unfold abspath. rewrite startswith_abs_of.
  by apply normpath_abs_of.
Qed.

Lemma nonempty_comps_abs_of ns : names ns → nonempty_comps (abs_of ns) = ns.
Proof.
  intros Hns. unfold nonempty_comps, sep.
  rewrite split_abs_of by by apply names_comps.
  rewrite filter_cons_False by (by intros []).
  destruct ns as [|x ns]; [done|].
  induction Hns as [|y l Hy _ IH]; [done|].
  rewrite filter_cons_True; [by rewrite IH|].
  by destruct (is_name_comp y Hy).
Qed.

Lemma common_prefix_split S P :
  ∃ C S' P', S = C ++ S' ∧ P = C ++ P'
             ∧ common_prefix_length S P = length C.
Proof.
  revert P. induction S as [|x S IH]; intros P.
  - by exists [], [], P.
  - destruct P as [|y P]; [by exists [], (x :: S), []|]. simpl.
    case_bool_decide as Hxy.
    + subst y. destruct (IH P) as (C & S' & P' & -> & -> & ->).
      by exists (x :: C), S', P'.
    + by exists [], (x :: S), (y :: P).
Qed.

Lemma common_prefix_length_app C S P :
  common_prefix_length (C ++ S) (C ++ P)
  = length C + common_prefix_length S P.
Proof.
  induction C as [|x C IH]; [done|]. simpl.
  by rewrite bool_decide_eq_true_2, IH.
Qed.

Lemma common_prefix_length_le S P : common_prefix_length S P ≤ length S.
Proof.
  destruct (common_prefix_split S P) as (C & S' & P' & -> & -> & ->).
  rewrite length_app. lia.
Qed.

Lemma rel_list_comps S P : names P → Forall comp (rel_list S P).
Proof.
  intros HP. apply Forall_app. split.
  - apply Forall_replicate, comp_dotdot.
  - by apply names_comps, Forall_drop.
Qed.

Lemma relpath_abs_of cwd S P :
  names S → names P →
  relpath cwd (abs_of P) (abs_of S) = Some (rel_string (rel_list S P)).
Proof.
  intros HS HP. unfold relpath.
  rewrite bool_decide_eq_false_2 by done.
  rewrite !abspath_abs_of, !nonempty_comps_abs_of by done.
  fold (rel_list S P). pose proof (rel_list_comps S P HP) as Hc.
  destruct (rel_list S P) as [|a p]; [done|].
  by rewrite foldl_join_rel.
Qed.

Lemma has_char_rel_string c l :
  c ≠ "/"%char → c ≠ "."%char →
  Forall (λ x, has_char c x = false) l → has_char c (rel_string l) = false.
Proof.
  intros H1 H2 Hl. destruct l as [|x l].
  - simpl. by rewrite (bool_decide_eq_false_2 ("."%char = c)).
  - apply has_char_join; [|done]. simpl.
    by rewrite (bool_decide_eq_false_2 ("/"%char = c)).
Qed.

(** Resolving the result of [relpath] against its start gives the path
    back. *)
Lemma relpath_roundtrip cwd S P rel :
  names S → names P →
  relpath cwd (abs_of P) (abs_of S) = Some rel →
  normpath (join (abs_of S) rel) = abs_of P
  ∧ ∀ c, c ≠ "/"%char → c ≠ "."%char →
         Forall (λ x, has_char c x = false)
           (drop (common_prefix_length S P) P) →
         has_char c rel = false.
Proof.
  intros HS HP. rewrite relpath_abs_of by done. intros [= <-]. split.
  - unfold rel_list.
    destruct (common_prefix_split S P) as (C & S' & P' & -> & -> & ->).
    apply Forall_app in HS as [HC HS'], HP as [_ HP'].
    rewrite length_app, drop_app_length in *.
    replace (length C + length S' - length C) with (length S') in * by lia.
    destruct (replicate (length S') ".." ++ P') as [|a p] eqn:Hl.
    + apply app_eq_nil in Hl as [Hr ->].
      destruct S'; [|done]. rewrite !app_nil_r. simpl rel_string.
      change "." with (rel_of ["."]).
      rewrite join_abs_rel; [|by apply names_comps|by constructor|done].
      by apply normpath_abs_of_dot.
    + assert (Forall comp (a :: p)) as Hc.
      { rewrite <- Hl. apply Forall_app. split.
        - apply Forall_replicate, comp_dotdot.
        - by apply names_comps. }
      unfold rel_string. rewrite join_abs_rel; [| |done|done].
      * rewrite <- Hl. by apply normpath_down_up_down.
      * apply names_comps, Forall_app. done.
  - intros c H1 H2 Hdrop. apply has_char_rel_string; [done..|].
    apply Forall_app. split; [|done].
    apply Forall_replicate. simpl.
    by rewrite !(bool_decide_eq_false_2 ("."%char = c)).
Qed.

Lemma has_char_join_inv c sep l :
  has_char c (PyStr.join sep l) = false →
  Forall (λ x, has_char c x = false) l.
Proof.
  induction l as [|x l IH]; [done|]. destruct l as [|y l].
  - by constructor.
  - rewrite join_cons, !has_char_app.
    intros [Hx [_ Hl]%orb_false_elim]%orb_false_elim.
    constructor; [done|]. by apply IH.
Qed.

Lemma relative_names p :
  relative p = true → ∃ ns, ns ≠ [] ∧ names ns ∧ p = rel_of ns.
Proof.
  unfold relative. intros H. exists (split "/" p).
  split; [apply split_not_nil|]. split.
  - apply Forall_forall. intros x Hx%list_elem_of_In.
    by eapply forallb_forall in H.
  - symmetry. apply (join_split "/").
Qed.

Lemma absolute_names p : absolute p = true → ∃ rs, names rs ∧ p = abs_of rs.
Proof.
  unfold absolute. destruct p as [|a p]; [done|].
  destruct (decide (a = "/"%char)) as [->|Ha].
  - destruct p as [|b p].
    + intros _. by exists [].
    + intros (ns & _ & Hns & ->)%relative_names. by exists ns.
  - intros H. exfalso. apply Ha.
    by destruct a as [[] [] [] [] [] [] [] []].
Qed.

(** The relative path from the directory of a document to a file of the
    index, resolved from that directory, is the file. *)
Lemma best_match_resolves cwd rs ss bs rel :
  names rs → names ss → ss ≠ [] → names bs → bs ≠ [] →
  relpath cwd (join (abs_of rs) (rel_of bs))
    (dirname (join (abs_of rs) (rel_of ss))) = Some rel →
  normpath (join (dirname (join (abs_of rs) (rel_of ss))) rel)
  = join (abs_of rs) (rel_of bs)
  ∧ ∀ c, c ≠ "/"%char → c ≠ "."%char →
         has_char c (rel_of bs) = false → has_char c rel = false.
Proof.
  intros Hrs Hss Hne Hbs Hbne.
  destruct (exists_last Hne) as (ds & f & ->).
  apply Forall_app in Hss as [Hds Hf]. inversion_clear Hf as [|?? Hf' _].
  assert (names (ds ++ [f])) as Hss.
  { apply Forall_app. split; [done|by constructor]. }
  assert (join (abs_of rs) (rel_of bs) = abs_of (rs ++ bs)) as ->.
  { apply join_abs_rel; [by apply names_comps..|done]. }
  assert (join (abs_of rs) (rel_of (ds ++ [f])) = abs_of ((rs ++ ds) ++ [f]))
    as ->.
  { rewrite <- app_assoc. apply join_abs_rel; [by apply names_comps..|done]. }
  rewrite dirname_abs_of;
    [|by apply names_comps, Forall_app|by apply is_name_comp].
  intros Hrel.
  apply relpath_roundtrip in Hrel as [Hres Hchar];
    [|by apply Forall_app..].
  split; [done|]. intros c H1 H2 Hc. apply Hchar; [done..|].
  rewrite common_prefix_length_app, drop_app_add.
  apply Forall_drop. by eapply has_char_join_inv.
Qed.

Lemma normpath_not_empty path : PosixPath.normpath path ≠ "".
Proof.
  unfold PosixPath.normpath. case_bool_decide; [done|].
  cbv zeta. by case_bool_decide.
Qed.

Lemma join_not_empty a b : a ≠ "" → PosixPath.join a b ≠ "".
Proof.
  intros Ha. unfold PosixPath.join.
  destruct (PyStr.startswith b "/") eqn:Hb.
  - intros ->. done.
  - destruct (_ || _); by intros [? _]%app_eq_empty.
Qed.

Lemma relpath_is_Some cwd path start :
  path ≠ "" → is_Some (PosixPath.relpath cwd path start).
Proof.
  intros Hp. unfold PosixPath.relpath.
  rewrite bool_decide_eq_false_2 by done. cbv zeta.
  by destruct (_ ++ _).
Qed.

End path_facts.

(** *** Relative paths, as the other script handles them *)

Section relative_path_facts.
Import PyStr PosixPath Normalised.

Lemma normpath_abs_of_slash ns :
  names ns → ns ≠ [] → normpath (abs_of ns +:+ "/") = abs_of ns.
Proof.
  intros Hns Hne. pose proof (names_comps ns Hns) as Hc.
  unfold normpath. rewrite bool_decide_eq_false_2 by done.
  assert (initial_slashes (abs_of ns +:+ "/") = 1) as ->.
  { unfold initial_slashes, abs_of.
    change (("/" +:+ rel_of ns) +:+ "/") with (String "/" (rel_of ns +:+ "/")).
    rewrite startswith_char. case_bool_decide; [|done].
    change "//" with (String "/" "/"). rewrite startswith_cons.
    destruct ns as [|x ns]; [done|]. inversion_clear Hc as [|?? Hx _].
    destruct ns as [|y ns].
    - by rewrite comp_not_slash_first.
    - rewrite rel_of_cons, app_assoc_str. by rewrite comp_not_slash_first. }
  change (abs_of ns +:+ "/") with (abs_of ns +:+ String "/" "").
  unfold sep. rewrite split_app_sep, foldl_app.
  rewrite normpath_loop_abs_of, (normpath_loop_names 1 [] ns) by done.
  cbn [split foldl]. rewrite normpath_step_skip by by left.
  by rewrite bool_decide_eq_false_2.
Qed.

Lemma abspath_rel_of cs ns :
  names cs → names ns → ns ≠ [] →
  abspath (abs_of cs) (rel_of ns) = abs_of (cs ++ ns).
Proof.
  intros Hcs Hns Hne. unfold abspath.
  rewrite rel_of_not_slash_first by by apply names_comps.
  rewrite join_abs_rel by (by apply names_comps || done).
  apply normpath_abs_of. by apply Forall_app.
Qed.

Lemma abspath_empty cs : names cs → abspath (abs_of cs) "" = abs_of cs.
Proof.
  intros Hcs. unfold abspath. cbn [startswith String.prefix].
  destruct cs as [|x cs].
  - done.
  - unfold join. cbn [startswith String.prefix].
    rewrite abs_of_not_slash_last by (by apply names_comps || done).
    rewrite bool_decide_eq_false_2 by done. cbn [orb].
    rewrite app_empty_r. by apply normpath_abs_of_slash.
Qed.

Lemma normpath_rel_of L :
  Forall comp L → L ≠ [] →
  normpath (rel_of L)
  = let comps := foldl (normpath_step 0) [] L in
    if bool_decide (rel_of comps = "") then "." else rel_of comps.
Proof.
  intros Hc Hne. unfold normpath.
  rewrite bool_decide_eq_false_2 by by apply rel_of_not_empty.
  unfold initial_slashes. rewrite rel_of_not_slash_first by done.
  unfold sep. rewrite (split_join "/"); [done|done|].
  eapply Forall_impl; [done|]. by intros ? [_ ?].
Qed.

Lemma normpath_rel_down_up_down S1 S2 T :
  names S1 → names S2 → names T → S1 ++ T ≠ [] →
  normpath (rel_of ((S1 ++ S2) ++ replicate (length S2) ".." ++ T))
  = rel_of (S1 ++ T).
Proof.
  intros H1 H2 HT Hne.
  rewrite normpath_rel_of.
  - cbv zeta. rewrite !foldl_app.
    rewrite (normpath_loop_names 0 [] S1) by done.
    rewrite (normpath_loop_names 0 _ S2) by done.
    rewrite normpath_loop_ups by done.
    rewrite normpath_loop_names by done. simpl app.
    rewrite bool_decide_eq_false_2; [done|].
    apply rel_of_not_empty; [|done]. by apply names_comps, Forall_app.
  - rewrite !Forall_app. split; [split|split]; try by apply names_comps.
    apply Forall_replicate, comp_dotdot.
  - destruct S1, S2, T; done.
Qed.

Lemma normpath_rel_of_dot ns :
  names ns → ns ≠ [] → normpath (rel_of (ns ++ ["."])) = rel_of ns.
Proof.
  intros Hns Hne. rewrite normpath_rel_of.
  - cbv zeta. rewrite foldl_app, (normpath_loop_names 0 [] ns) by done.
    cbn [foldl]. rewrite normpath_step_skip by by right. simpl app.
    rewrite bool_decide_eq_false_2; [done|].
    apply rel_of_not_empty; [by apply names_comps|done].
  - apply Forall_app. split; [by apply names_comps|by constructor].
  - by destruct ns.
Qed.

Lemma rel_list_app C S P : rel_list (C ++ S) (C ++ P) = rel_list S P.
Proof.
  unfold rel_list. rewrite common_prefix_length_app, length_app, drop_app_add.
  f_equal. f_equal. lia.
Qed.

(** The relative path from the directory of a document to a file of the
    index, both relative to the root, resolved from that directory. *)
Lemma relative_best_match_resolves cs ss bs rel :
  names cs → names ss → ss ≠ [] → names bs → bs ≠ [] →
  relpath (abs_of cs) (rel_of bs) (dirname (rel_of ss)) = Some rel →
  normpath (join (dirname (rel_of ss)) rel) = rel_of bs.
Proof.
  intros Hcs Hss Hne Hbs Hbne.
  destruct (exists_last Hne) as (ds & f & ->).
  apply Forall_app in Hss as [Hds Hf]. inversion_clear Hf as [|?? Hf' _].
  rewrite dirname_rel_of by (by apply names_comps || by apply is_name_comp).
  unfold relpath.
  rewrite bool_decide_eq_false_2
    by by apply rel_of_not_empty; [apply names_comps|].
  rewrite (abspath_rel_of cs bs) by done.
  assert (abspath (abs_of cs) (rel_of ds) = abs_of (cs ++ ds)) as ->.
  { destruct ds as [|d ds].
    - rewrite app_nil_r. by apply abspath_empty.
    - by apply abspath_rel_of. }
  rewrite !nonempty_comps_abs_of by by apply Forall_app.
  fold (rel_list (cs ++ ds) (cs ++ bs)). rewrite rel_list_app.
  unfold rel_list.
  destruct (common_prefix_split ds bs) as (C & D' & B' & -> & -> & ->).
  apply Forall_app in Hds as [HC HD'], Hbs as [_ HB'].
  rewrite length_app, drop_app_length.
  replace (length C + length D' - length C) with (length D') by lia.
  destruct (replicate (length D') ".." ++ B') as [|a p] eqn:Hl.
  - intros [= <-]. apply app_eq_nil in Hl as [Hr ->].
    destruct D'; [|done]. rewrite !app_nil_r in *.
    change "." with (rel_of ["."]).
    rewrite join_rel_rel; [|by apply names_comps|by constructor|done].
    by apply normpath_rel_of_dot.
  - assert (Forall comp (a :: p)) as Hc.
    { rewrite <- Hl. apply Forall_app. split.
      - apply Forall_replicate, comp_dotdot.
      - by apply names_comps. }
    rewrite foldl_join_rel by done. intros [= <-].
    rewrite join_rel_rel; [| |done|done].
    + rewrite <- Hl. by apply normpath_rel_down_up_down.
    + apply names_comps, Forall_app. done.
Qed.

End relative_path_facts.

(** ** The override table *)

Section overrides.
Import LinkCampaign.
Variables (ROOT_DIR cwd : string).

(** Only the entry under the raw target decides whether the table is
    used: tables that agree on that key give the same result. *)
Lemma find_best_match_mappings_frame db1 db2 broken_link source_file :
  all_files db1 = all_files db2 →
  custom_mappings db1 !! broken_link = custom_mappings db2 !! broken_link →
  find_best_match ROOT_DIR cwd db1 broken_link source_file
  = find_best_match ROOT_DIR cwd db2 broken_link source_file.
Proof.
  intros Hf Hm. unfold find_best_match. by rewrite Hm, Hf.
Qed.

End overrides.

(** C2. When the raw target of a broken reference has an entry in the
    override table, the resolver of either script returns the corrected
    target of that entry, whatever the index contains: no file name is
    looked at. *)
Theorem override_is_authoritative (ROOT_DIR cwd : string)
    (db : LinkCampaign.LinkDatabase)
    (broken_link source_file corrected : string) :
  LinkCampaign.custom_mappings db !! broken_link = Some corrected →
  LinkCampaign.find_best_match ROOT_DIR cwd db broken_link source_file
    = Some (Some corrected)
  ∧ ∀ index,
      SimpleLinkCampaign.find_best_match cwd (LinkCampaign.custom_mappings db)
        index broken_link source_file = Some corrected.
Proof.
  intros Hm. split.
  - unfold LinkCampaign.find_best_match. by rewrite Hm.
  - intros index. unfold SimpleLinkCampaign.find_best_match. by rewrite Hm.
Qed.

Lemma override_is_authoritative_witness :
  LinkCampaign.custom_mappings db_override_and_candidate !! "setup.md"
    = Some "guide/install.md"
  ∧ LinkCampaign.find_best_match "/repo" "/repo" db_override_and_candidate
      "setup.md" "index.md" = Some (Some "guide/install.md").
Proof.
  split; [reflexivity|].
  apply (override_is_authoritative "/repo" "/repo" db_override_and_candidate
           "setup.md" "index.md" "guide/install.md").
  reflexivity.
Defined.

(** C4, as stated, fails: with the entry [old.md -> new.md] in the table and
    the broken target [old.md#install], the resolver does not return
    [new.md#install]; it finds no candidate at all. *)
Lemma anchor_through_override_counterexample :
  let db := LinkCampaign.init {[ "old.md" := "new.md" ]} ["index.md"; "new.md"] in
  LinkCampaign.custom_mappings db !! "old.md" = Some "new.md"
  ∧ LinkCampaign.find_best_match "/repo" "/repo" db "old.md#install" "index.md"
      = Some None
  ∧ SimpleLinkCampaign.find_best_match "/repo" (LinkCampaign.custom_mappings db)
      (LinkCampaign.all_files db) "old.md#install" "index.md" = None.
Proof. vm_compute. done. Qed.

(** C4, amended. The table is looked up under the raw target, anchor
    included, and an entry under the path portion alone is not consulted:
    when the raw target [path#anchor] has no entry of its own, the resolver
    of either script returns what the search by file name returns, exactly
    as with an empty table. *)
Theorem override_keyed_by_raw_target (ROOT_DIR cwd : string)
    (mappings : gmap string string) (index : list string)
    (path anchor source_file : string) :
  mappings !! (path +:+ "#" +:+ anchor) = None →
  LinkCampaign.find_best_match ROOT_DIR cwd
    (LinkCampaign.init mappings index) (path +:+ "#" +:+ anchor) source_file
  = LinkCampaign.find_best_match ROOT_DIR cwd
      (LinkCampaign.init ∅ index) (path +:+ "#" +:+ anchor) source_file
  ∧ SimpleLinkCampaign.find_best_match cwd mappings index
      (path +:+ "#" +:+ anchor) source_file
    = SimpleLinkCampaign.find_best_match cwd ∅ index
        (path +:+ "#" +:+ anchor) source_file.
Proof.
  intros Hm. split.
  - by apply find_best_match_mappings_frame.
  - unfold SimpleLinkCampaign.find_best_match.
    by rewrite Hm, lookup_empty.
Qed.

Lemma override_keyed_by_raw_target_witness :
  ({[ "old.md" := "new.md" ]} : gmap string string)
    !! ("old.md" +:+ "#" +:+ "install") = None
  ∧ LinkCampaign.find_best_match "/repo" "/repo"
      (LinkCampaign.init {[ "old.md" := "new.md" ]} ["index.md"; "docs/old.md"])
      ("old.md" +:+ "#" +:+ "install") "index.md"
    = LinkCampaign.find_best_match "/repo" "/repo"
        (LinkCampaign.init ∅ ["index.md"; "docs/old.md"])
        ("old.md" +:+ "#" +:+ "install") "index.md".
Proof.
  split; [reflexivity|].
  apply (override_keyed_by_raw_target "/repo" "/repo"
           {[ "old.md" := "new.md" ]} ["index.md"; "docs/old.md"]
           "old.md" "install" "index.md").
  reflexivity.
Defined.

(** ** Classification of references *)

(** C5 at the failing input: [check_links] of [link_campaign.py] does not
    pass over a [mailto:] target.  It resolves it as a path below the
    directory of the document, reports it broken and asks the resolver for a
    candidate. *)
Theorem mailto_reported_broken_in_link_campaign :
  let fs := FileSystem {[ "/repo/README.md" := "[team](mailto:dev@example.org)" ]} ∅ [] in
  LinkCampaign.skipped "mailto:dev@example.org" = false
  ∧ (LinkCampaign.broken_links ∘ fst) <$>
      LinkCampaign.check_links "/repo" "/repo"
        (LinkCampaign.init ∅ ["README.md"]) fs true
    = Some [LinkCampaign.LinkInfo "README.md" "team" "mailto:dev@example.org" None].
Proof. vm_compute. done. Qed.

(** The targets that [check_links] of [link_campaign.py] does pass over
    leave the database as it was. *)
Lemma link_campaign_skipped_not_checked ROOT_DIR cwd fs source_file self
    text link :
  LinkCampaign.skipped link = true →
  LinkCampaign.check_link ROOT_DIR cwd fs source_file self (text, link)
  = Some self.
Proof. intros H. unfold LinkCampaign.check_link. by rewrite H. Qed.

(** The other script passes over such a target, and more generally over
    every target that begins with a scheme or a hash sign. *)
Lemma simple_skipped_not_checked ROOT_DIR fs file_path st link_text link_path :
  SimpleLinkCampaign.skipped link_path = true →
  SimpleLinkCampaign.check_link ROOT_DIR fs file_path st (link_text, link_path)
  = st.
Proof.
  intros H. unfold SimpleLinkCampaign.check_link.
  destruct st as [broken valid]. by rewrite H.
Qed.

(** C8, as stated, fails: a target that begins with a slash is not checked
    for existence at all.  The document below refers to [/missing.md], no
    such file exists under the root, and the analysis reports nothing. *)
Lemma root_relative_target_counterexample :
  let fs := FileSystem {[ "/repo/index.md" := "[home](/missing.md)" ]} ∅ [] in
  fs_exists fs "/repo/missing.md" = false
  ∧ fs_exists fs "/missing.md" = false
  ∧ (LinkCampaign.broken_links ∘ fst) <$>
      LinkCampaign.check_links "/repo" "/repo"
        (LinkCampaign.init ∅ ["index.md"]) fs true
    = Some [].
Proof. vm_compute. done. Qed.

(** C8, amended. [check_links] of [link_campaign.py] passes over every
    target that begins with a slash: the database is left as it was, so the
    target is neither checked for existence, nor reported broken, nor handed
    to the resolver. *)
Theorem root_relative_target_skipped (ROOT_DIR cwd : string) (fs : filesystem)
    (source_file : string) (self : LinkCampaign.LinkDatabase)
    (text link : string) :
  PyStr.startswith link "/" = true →
  LinkCampaign.check_link ROOT_DIR cwd fs source_file self (text, link)
  = Some self.
Proof.
  intros H. unfold LinkCampaign.check_link, LinkCampaign.skipped.
  rewrite H. by rewrite !orb_true_r.
Qed.

Lemma root_relative_target_skipped_witness :
  PyStr.startswith "/missing.md" "/" = true
  ∧ LinkCampaign.check_link "/repo" "/repo" (FileSystem ∅ ∅ []) "index.md"
      (LinkCampaign.init ∅ ["index.md"]) ("home", "/missing.md")
    = Some (LinkCampaign.init ∅ ["index.md"]).
Proof.
  split; [reflexivity|].
  apply (root_relative_target_skipped "/repo" "/repo" (FileSystem ∅ ∅ [])
           "index.md" (LinkCampaign.init ∅ ["index.md"]) "home" "/missing.md").
  reflexivity.
Defined.

(** ** The search by file name *)

(** C6 at the failing input: the first loop of [find_best_match] in
    [link_campaign.py] compares lower-cased names.  With [docs/Setup.md] and
    [docs/a/b/setup.md] in the index, the target [setup.md] of
    [docs/index.md] has an exact match, yet the resolver suggests
    [Setup.md], which matches only without regard to case; the other
    script suggests the exact match. *)
Theorem first_scan_ignores_case_in_link_campaign :
  let index := ["docs/index.md"; "docs/Setup.md"; "docs/a/b/setup.md"] in
  SimpleLinkCampaign.exact_matches index "setup.md" = ["docs/a/b/setup.md"]
  ∧ LinkCampaign.find_best_match "/repo" "/repo" (LinkCampaign.init ∅ index)
      "setup.md" "docs/index.md" = Some (Some "Setup.md")
  ∧ SimpleLinkCampaign.find_best_match "/repo" ∅ index
      "setup.md" "docs/index.md" = Some "a/b/setup.md".
Proof. vm_compute. done. Qed.

(** In [simple_link_campaign.py] the first scan is exact: when some file of
    the index has the base name of the target, the suggestion leads to such
    a file. *)
Lemma simple_exact_scan_first cwd mappings index broken_link source_file
    suggestion :
  mappings !! broken_link = None →
  SimpleLinkCampaign.exact_matches index (PosixPath.basename broken_link)
    ≠ [] →
  SimpleLinkCampaign.find_best_match cwd mappings index broken_link
    source_file = Some suggestion →
  ∃ best_match,
    best_match ∈ index
    ∧ PosixPath.basename best_match = PosixPath.basename broken_link
    ∧ suggestion
      = default best_match
          (PosixPath.relpath cwd best_match (PosixPath.dirname source_file)).
Proof.
  intros Hm Hexact. unfold SimpleLinkCampaign.find_best_match. rewrite Hm.
  destruct (SimpleLinkCampaign.exact_matches _ _) as [|f l] eqn:E; [done|].
  destruct (PySort.sort_by_key_desc _ _) as [|best rest] eqn:Hsort; [done|].
  apply sort_by_key_desc_head_in in Hsort. rewrite <- E in Hsort.
  apply list_elem_of_In, filter_In in Hsort as [Hin Hbase].
  apply bool_decide_eq_true in Hbase. intros Hres.
  exists best. split; [by apply list_elem_of_In|]. split; [done|].
  destruct (PosixPath.relpath _ _ _); by injection Hres as <-.
Qed.

(** *** The choice among candidates *)

Section selection.
Import LinkCampaign.
Variables (ROOT_DIR cwd : string).

(** What a result of the search by file name is made of. *)
Lemma find_best_match_by_name_inv db broken_link source_file suggestion :
  custom_mappings db !! broken_link = None →
  find_best_match ROOT_DIR cwd db broken_link source_file
    = Some (Some suggestion) →
  ∃ best_match d rest rel_path,
    sorted_matches cwd (all_files db) (target_and_anchor broken_link).1
      source_file = (best_match, d) :: rest
    ∧ PosixPath.relpath cwd (PosixPath.join ROOT_DIR best_match)
        (PosixPath.dirname (PosixPath.join ROOT_DIR source_file))
      = Some rel_path
    ∧ suggestion
      = with_anchor (PyStr.replace rel_path "\" "/")
          (target_and_anchor broken_link).2.
Proof.
  intros Hm. unfold find_best_match. rewrite Hm.
  destruct (target_and_anchor broken_link) as [target_file anchor]. simpl.
  destruct (sorted_matches _ _ _ _) as [|[best_match d] rest]; [done|].
  destruct (PosixPath.relpath _ _ _) as [rel_path|] eqn:Hrel; [|done].
  simpl. intros [= <-]. by exists best_match, d, rest, rel_path.
Qed.

(** The candidates are files of the index. *)
Lemma candidate_matches_in_index index target_file source_file file d :
  (file, d) ∈ candidate_matches cwd index target_file source_file →
  file ∈ index.
Proof.
  unfold candidate_matches, filename_matches, basename_matches.
  intros H.
  assert (∀ P, (file, d) ∈
            ((λ f, (f, distance cwd source_file f)) <$> List.filter P index) →
          file ∈ index) as Hin.
  { intros P (f & [= -> _] & Hf)%list_elem_of_fmap.
    apply list_elem_of_In, filter_In in Hf as [Hf _].
    by apply list_elem_of_In. }
  destruct (_ <$> List.filter _ index) eqn:E in H.
  - by eapply Hin.
  - rewrite <- E in H. by eapply Hin.
Qed.

End selection.

(** C7, as stated, fails: the two lists below enumerate the same index, the
    two files named [config.md] are at the same distance from [index.md],
    and the resolver selects a different one under each enumeration. *)
Lemma tie_break_counterexample :
  let index1 := ["index.md"; "a/config.md"; "b/config.md"] in
  let index2 := ["index.md"; "b/config.md"; "a/config.md"] in
  index1 ≡ₚ index2
  ∧ LinkCampaign.distance "/repo" "index.md" "a/config.md"
    = LinkCampaign.distance "/repo" "index.md" "b/config.md"
  ∧ LinkCampaign.find_best_match "/repo" "/repo" (LinkCampaign.init ∅ index1)
      "config.md" "index.md" = Some (Some "a/config.md")
  ∧ LinkCampaign.find_best_match "/repo" "/repo" (LinkCampaign.init ∅ index2)
      "config.md" "index.md" = Some (Some "b/config.md").
Proof.
  split; [|by vm_compute].
  simpl. apply Permutation_skip, Permutation_swap.
Qed.

(** C7, amended. Among the candidates at minimal distance the resolver
    selects the one that comes first in the order in which the index is
    iterated: every candidate before the selected one is strictly farther,
    every candidate after it is at least as far.  The selection is thus a
    function of the enumeration of the index, not of the set of its
    elements. *)
Theorem selection_is_first_minimal (ROOT_DIR cwd : string)
    (db : LinkCampaign.LinkDatabase)
    (broken_link source_file suggestion : string) :
  LinkCampaign.custom_mappings db !! broken_link = None →
  LinkCampaign.find_best_match ROOT_DIR cwd db broken_link source_file
    = Some (Some suggestion) →
  ∃ best_match d before after rel_path,
    LinkCampaign.candidate_matches cwd (LinkCampaign.all_files db)
      (LinkCampaign.target_and_anchor broken_link).1 source_file
    = before ++ (best_match, d) :: after
    ∧ Forall (λ c, d < c.2) before
    ∧ Forall (λ c, d ≤ c.2) after
    ∧ PosixPath.relpath cwd (PosixPath.join ROOT_DIR best_match)
        (PosixPath.dirname (PosixPath.join ROOT_DIR source_file))
      = Some rel_path
    ∧ suggestion
      = LinkCampaign.with_anchor (PyStr.replace rel_path "\" "/")
          (LinkCampaign.target_and_anchor broken_link).2.
Proof.
  intros Hm Hres.
  destruct (find_best_match_by_name_inv _ _ _ _ _ _ Hm Hres)
    as (best_match & d & rest & rel_path & Hsort & Hrel & ->).
  apply sort_by_key_head in Hsort as (before & after & Hc & Hb & Ha).
  by exists best_match, d, before, after, rel_path.
Qed.

Lemma selection_is_first_minimal_witness :
  let db := LinkCampaign.init ∅ ["index.md"; "x/y/config.md"; "a/config.md"; "b/config.md"] in
  LinkCampaign.custom_mappings db !! "config.md" = None
  ∧ LinkCampaign.find_best_match "/repo" "/repo" db "config.md" "index.md"
    = Some (Some "a/config.md")
  ∧ ∃ best_match d before after rel_path,
      LinkCampaign.candidate_matches "/repo" (LinkCampaign.all_files db)
        (LinkCampaign.target_and_anchor "config.md").1 "index.md"
      = before ++ (best_match, d) :: after
      ∧ Forall (λ c, d < c.2) before
      ∧ Forall (λ c, d ≤ c.2) after
      ∧ PosixPath.relpath "/repo" (PosixPath.join "/repo" best_match)
          (PosixPath.dirname (PosixPath.join "/repo" "index.md"))
        = Some rel_path
      ∧ "a/config.md"
        = LinkCampaign.with_anchor (PyStr.replace rel_path "\" "/")
            (LinkCampaign.target_and_anchor "config.md").2.
Proof.
  intros db. split; [reflexivity|]. split; [reflexivity|].
  apply (selection_is_first_minimal "/repo" "/repo" db "config.md" "index.md"
           "a/config.md"); reflexivity.
Defined.

(** *** Suggestions found by file name *)

Section resolution.
Import LinkCampaign.
Variables (ROOT_DIR cwd : string).


Lemma normalised_index_elem index file :
  Normalised.normalised_index index = true → file ∈ index →
  Normalised.relative file = true ∧ Normalised.has_char "\" file = false.
Proof.
  unfold Normalised.normalised_index. intros H Hin%list_elem_of_In.
  eapply forallb_forall in H; [|done].
  apply andb_prop in H as [H1 H2]. split; [done|].
  by apply negb_true_iff in H2.
Qed.

(** A suggestion found by file name is the relative path to a file of the
    index, with the anchor of the link; resolved from the directory of the
    document, the path is that file. *)
Lemma suggestion_by_name_resolves db broken_link source_file suggestion :
  Normalised.absolute ROOT_DIR = true →
  Normalised.relative source_file = true →
  Normalised.normalised_index (all_files db) = true →
  custom_mappings db !! broken_link = None →
  find_best_match ROOT_DIR cwd db broken_link source_file
    = Some (Some suggestion) →
  ∃ best_match rel_path,
    best_match ∈ all_files db
    ∧ suggestion = with_anchor rel_path (target_and_anchor broken_link).2
    ∧ link_target ROOT_DIR source_file rel_path
      = PosixPath.join ROOT_DIR best_match
    ∧ (Normalised.has_char "#" best_match = false →
       Normalised.has_char "#" rel_path = false).
Proof.
  intros (rs & Hrs & ->)%absolute_names (ss & Hne & Hss & ->)%relative_names
    Hindex Hm Hres.
  apply find_best_match_by_name_inv in Hres
    as (best_match & d & rest & rel_path & Hsort & Hrel & ->); [|done].
  assert (best_match ∈ all_files db) as Hin.
  { eapply candidate_matches_in_index.
    rewrite <- (sort_by_key_perm snd). unfold sorted_matches in Hsort.
    rewrite Hsort. by left. }
  destruct (normalised_index_elem _ _ Hindex Hin) as [Hbrel Hbslash].
  apply relative_names in Hbrel as (bs & Hbne & Hbs & ->).
  apply best_match_resolves in Hrel as [Hresolve Hchars]; [|done..].
  exists (Normalised.rel_of bs), rel_path.
  rewrite replace_char_without by by apply Hchars.
  split; [done|]. split; [done|]. split; [done|].
  by apply Hchars.
Qed.

End resolution.

Section simple_resolution.
Import SimpleLinkCampaign.

Lemma simple_matches_in_index index filename file :
  file ∈ match exact_matches index filename with
         | [] => case_insensitive_matches index filename
         | _ => exact_matches index filename
         end →
  file ∈ index.
Proof.
  unfold exact_matches, case_insensitive_matches.
  destruct (List.filter _ index) eqn:E.
  - intros [Hf _]%list_elem_of_In%filter_In. by apply list_elem_of_In.
  - rewrite <- E. intros [Hf _]%list_elem_of_In%filter_In.
    by apply list_elem_of_In.
Qed.

(** A suggestion that the other script finds by file name is the relative
    path to a file of the index. *)
Lemma simple_suggestion_by_name_resolves cwd mappings index broken_link
    source_file suggestion :
  Normalised.absolute cwd = true →
  Normalised.relative source_file = true →
  Normalised.normalised_index index = true →
  mappings !! broken_link = None →
  find_best_match cwd mappings index broken_link source_file
    = Some suggestion →
  ∃ best_match,
    best_match ∈ index
    ∧ PosixPath.normpath
        (PosixPath.join (PosixPath.dirname source_file) suggestion)
      = best_match.
Proof.
  intros (cs & Hcs & ->)%absolute_names (ss & Hne & Hss & ->)%relative_names
    Hindex Hm. unfold find_best_match. rewrite Hm.
  destruct (PySort.sort_by_key_desc _ _) as [|best rest] eqn:Hsort; [done|].
  apply sort_by_key_desc_head_in in Hsort.
  apply simple_matches_in_index in Hsort.
  destruct (normalised_index_elem _ _ Hindex Hsort) as [Hbrel _].
  apply relative_names in Hbrel as (bs & Hbne & Hbs & ->).
  destruct (PosixPath.relpath _ _ _) as [rel|] eqn:Hrel.
  - intros [= <-]. exists (Normalised.rel_of bs). split; [done|].
    by apply (relative_best_match_resolves cs ss bs).
  - exfalso. unfold PosixPath.relpath in Hrel.
    rewrite bool_decide_eq_false_2 in Hrel.
    + by destruct (_ ++ _) in Hrel.
    + apply rel_of_not_empty; [by apply names_comps|done].
Qed.

End simple_resolution.

(** C1, as stated, fails for a suggestion taken from the override table:
    the table sends [old.md] to [gone.md], the resolver returns [gone.md],
    and the path it resolves to is that of no file of the index. *)
Lemma fixed_target_exists_counterexample :
  let db := LinkCampaign.init {[ "old.md" := "gone.md" ]} ["index.md"; "docs/new.md"] in
  LinkCampaign.find_best_match "/repo" "/repo" db "old.md" "index.md"
    = Some (Some "gone.md")
  ∧ LinkCampaign.link_target "/repo" "index.md" "gone.md" = "/repo/gone.md"
  ∧ Forall (λ file, PosixPath.join "/repo" file ≠ "/repo/gone.md")
      (LinkCampaign.all_files db).
Proof.
  split; [by vm_compute|]. split; [by vm_compute|].
  repeat constructor; by vm_compute.
Qed.

(** C1, amended. A suggestion that [find_best_match] finds by file name
    (the raw target has no entry in the override table) is the relative path
    to a file of the index; resolved from the directory of the document,
    that path is the path of the file.  In [link_campaign.py] the path is
    followed by the anchor of the link if it has one.  The index is one of
    normalised relative paths written with forward slashes, the root and
    the working directory are normalised absolute paths.  A suggestion
    taken from the override table is returned as it is, whether its target
    exists or not. *)
Theorem suggestion_by_name_exists_in_index (ROOT_DIR cwd : string)
    (db : LinkCampaign.LinkDatabase) (broken_link source_file : string) :
  Normalised.absolute ROOT_DIR = true →
  Normalised.absolute cwd = true →
  Normalised.relative source_file = true →
  Normalised.normalised_index (LinkCampaign.all_files db) = true →
  LinkCampaign.custom_mappings db !! broken_link = None →
  (∀ suggestion,
     LinkCampaign.find_best_match ROOT_DIR cwd db broken_link source_file
       = Some (Some suggestion) →
     ∃ best_match rel_path,
       best_match ∈ LinkCampaign.all_files db
       ∧ suggestion
         = LinkCampaign.with_anchor rel_path
             (LinkCampaign.target_and_anchor broken_link).2
       ∧ LinkCampaign.link_target ROOT_DIR source_file rel_path
         = PosixPath.join ROOT_DIR best_match)
  ∧ (∀ suggestion,
       SimpleLinkCampaign.find_best_match cwd
         (LinkCampaign.custom_mappings db) (LinkCampaign.all_files db)
         broken_link source_file = Some suggestion →
       ∃ best_match,
         best_match ∈ LinkCampaign.all_files db
         ∧ PosixPath.normpath
             (PosixPath.join (PosixPath.dirname source_file) suggestion)
           = best_match).
Proof.
  intros Hroot Hcwd Hsrc Hindex Hm. split.
  - intros suggestion Hres.
    destruct (suggestion_by_name_resolves ROOT_DIR cwd db broken_link
                source_file suggestion Hroot Hsrc Hindex Hm Hres)
      as (best_match & rel_path & Hin & Hs & Hresolve & _).
    by exists best_match, rel_path.
  - intros suggestion Hres.
    by eapply simple_suggestion_by_name_resolves.
Qed.

Lemma suggestion_by_name_exists_in_index_witness :
  let db := LinkCampaign.init ∅ ["docs/guide.md"; "docs/install/setup.md"] in
  (Normalised.absolute "/repo" = true
   ∧ Normalised.absolute "/home/dev" = true
   ∧ Normalised.relative "docs/guide.md" = true
   ∧ Normalised.normalised_index (LinkCampaign.all_files db) = true
   ∧ LinkCampaign.custom_mappings db !! "./setup.md" = None)
  ∧ LinkCampaign.find_best_match "/repo" "/home/dev" db "./setup.md"
      "docs/guide.md" = Some (Some "install/setup.md")
  ∧ (∃ best_match rel_path,
       best_match ∈ LinkCampaign.all_files db
       ∧ "install/setup.md"
         = LinkCampaign.with_anchor rel_path
             (LinkCampaign.target_and_anchor "./setup.md").2
       ∧ LinkCampaign.link_target "/repo" "docs/guide.md" rel_path
         = PosixPath.join "/repo" best_match)
  ∧ SimpleLinkCampaign.find_best_match "/home/dev"
      (LinkCampaign.custom_mappings db) (LinkCampaign.all_files db)
      "./setup.md" "docs/guide.md" = Some "install/setup.md"
  ∧ ∃ best_match,
      best_match ∈ LinkCampaign.all_files db
      ∧ PosixPath.normpath
          (PosixPath.join (PosixPath.dirname "docs/guide.md")
             "install/setup.md")
        = best_match.
Proof.
  intros db.
  pose proof (suggestion_by_name_exists_in_index "/repo" "/home/dev" db
                "./setup.md" "docs/guide.md" eq_refl eq_refl eq_refl eq_refl
                eq_refl) as [Hlink Hsimple].
  split; [by repeat split|]. split; [reflexivity|].
  split; [apply Hlink; reflexivity|]. split; [reflexivity|].
  apply Hsimple; reflexivity.
Defined.

(** ** The analysis *)

Section analysis.
Import LinkCampaign.
Variables (ROOT_DIR cwd : string).

Lemma check_link_analysed fs db0 source_file db m db' :
  source_file ∈ all_files db0 →
  analysed ROOT_DIR cwd fs db0 db ∧ is_Some (file_content db !! source_file) →
  check_link ROOT_DIR cwd fs source_file db m = Some db' →
  analysed ROOT_DIR cwd fs db0 db' ∧ is_Some (file_content db' !! source_file).
Proof.
  intros Hsrc [(Hf & Hm & Hfx & Hmr & Hcache & Hbr) Hc].
  destruct m as [text link]. unfold check_link.
  destruct (skipped link) eqn:Hskip; [by intros [= <-]|].
  destruct (PyStr.truthy _) eqn:Hlp; simpl; [|by intros [= <-]].
  destruct (PosixPath.relpath _ _ _); simpl; [|done].
  destruct (fs_exists _ _) eqn:Hex; simpl; [by intros [= <-]|].
  destruct (find_best_match _ _ _ _ _) as [best|] eqn:Hbest; simpl; [|done].
  intros [= <-]. unfold analysed, add_broken. simpl. split; [|done].
  split; [done|]. split; [done|]. split; [done|]. split; [done|].
  split; [done|].
  intros li [Hli| ->%list_elem_of_singleton]%elem_of_app; [by apply Hbr|].
  simpl. split; [done|]. unfold reported. simpl.
  split; [done|]. split; [done|]. split; [done|]. split; [done|].
  rewrite <- Hbest. apply find_best_match_mappings_frame; congruence.
Qed.

Lemma check_file_analysed fs db0 db source_file db' :
  source_file ∈ all_files db0 →
  analysed ROOT_DIR cwd fs db0 db →
  check_file ROOT_DIR cwd fs db source_file = Some db' →
  analysed ROOT_DIR cwd fs db0 db'.
Proof.
  intros Hsrc Hinv. unfold check_file.
  destruct (fs_exists _ _); simpl; [|by intros [= <-]].
  destruct (fs_read _ _) as [content|] eqn:Hread; simpl; [|done].
  intros H.
  eapply (foldlM_invariant _
            (λ db, analysed ROOT_DIR cwd fs db0 db
                   ∧ is_Some (file_content db !! source_file))) in H;
    [by destruct H| |].
  - intros db1 m db2 _. by apply check_link_analysed.
  - destruct Hinv as (Hf & Hm & Hfx & Hmr & Hcache & Hbr). simpl.
    split; [|by rewrite lookup_insert_eq].
    split; [done|]. split; [done|]. split; [done|]. split; [done|].
    simpl. split.
    + intros k c. destruct (decide (source_file = k)) as [<-|Hk].
      * rewrite lookup_insert_eq. by intros [= <-].
      * rewrite lookup_insert_ne by done. apply Hcache.
    + intros li Hli. destruct (Hbr li Hli) as [[c Hc] Hrep].
      split; [|done].
      destruct (decide (source_file = source li)) as [<-|Hk].
      * by rewrite lookup_insert_eq.
      * rewrite lookup_insert_ne by done. by rewrite Hc.
Qed.

Lemma check_phase_analysed fs mappings index db :
  foldlM (check_file ROOT_DIR cwd fs) (init mappings index) index = Some db →
  analysed ROOT_DIR cwd fs (init mappings index) db.
Proof.
  intros H.
  eapply (foldlM_invariant _ (analysed ROOT_DIR cwd fs (init mappings index))) in H;
    [done| |].
  - intros db1 k db2 Hk. by apply check_file_analysed.
  - split; [done|]. split; [done|]. split; [done|]. split; [done|]. split.
    + intros k c. simpl. by rewrite lookup_empty.
    + intros li []%elem_of_nil.
Qed.


End analysis.

(** *** No exception in the analysis *)

Section totality.
Import LinkCampaign.
Variables (ROOT_DIR cwd : string).

Lemma find_best_match_total db broken_link source_file :
  ROOT_DIR ≠ "" →
  is_Some (find_best_match ROOT_DIR cwd db broken_link source_file).
Proof.
  intros Hroot. unfold find_best_match.
  destruct (custom_mappings db !! broken_link); [done|].
  destruct (target_and_anchor broken_link) as [target_file anchor].
  destruct (sorted_matches _ _ _ _) as [|[best_match d] rest]; [done|].
  destruct (relpath_is_Some cwd (PosixPath.join ROOT_DIR best_match)
              (PosixPath.dirname (PosixPath.join ROOT_DIR source_file)))
    as [rel ->]; [by apply join_not_empty|done].
Qed.

Lemma check_link_total fs source_file db m :
  ROOT_DIR ≠ "" →
  ∃ db', check_link ROOT_DIR cwd fs source_file db m = Some db'
         ∧ all_files db' = all_files db.
Proof.
  intros Hroot. destruct m as [text link]. unfold check_link.
  destruct (skipped link); [by exists db|].
  destruct (PyStr.truthy _); cbn [negb]; [|by exists db].
  destruct (relpath_is_Some cwd
              (link_target ROOT_DIR source_file
                 (default "" (head (PyStr.split "#" link)))) ROOT_DIR)
    as [rel ->]; [apply normpath_not_empty|].
  cbn [mbind option_bind].
  destruct (fs_exists _ _); cbn [negb]; [by exists db|].
  destruct (find_best_match_total db link source_file Hroot) as [best ->].
  cbn [mbind option_bind]. by eexists.
Qed.

Lemma check_file_total fs db source_file :
  ROOT_DIR ≠ "" →
  (fs_exists fs (PosixPath.join ROOT_DIR source_file) = true →
   is_Some (fs_read fs (PosixPath.join ROOT_DIR source_file))) →
  ∃ db', check_file ROOT_DIR cwd fs db source_file = Some db'
         ∧ all_files db' = all_files db.
Proof.
  intros Hroot Hread. unfold check_file.
  destruct (fs_exists _ _); cbn [negb]; [|by exists db].
  destruct Hread as [content ->]; [done|]. cbn [mbind option_bind].
  apply (foldlM_total _
           (λ db', all_files db' = all_files db)); [|done].
  intros db1 m _ Hdb1.
  destruct (check_link_total fs source_file db1 m Hroot) as (db2 & -> & H2).
  exists db2. split; [done|]. congruence.
Qed.

(** The analysis raises no exception when the root is not the empty string
    and the files of the index can be read. *)
Lemma check_phase_total fs mappings index :
  ROOT_DIR ≠ "" →
  index_readable ROOT_DIR fs index = true →
  is_Some (foldlM (check_file ROOT_DIR cwd fs) (init mappings index) index).
Proof.
  intros Hroot Hread.
  destruct (foldlM_total (check_file ROOT_DIR cwd fs) (λ _, True) index
              (init mappings index)) as (db & -> & _); [|done|done].
  intros db file Hfile _.
  destruct (check_file_total fs db file Hroot) as (db' & -> & _).
  - unfold index_readable in Hread.
    eapply forallb_forall in Hread; [|by apply list_elem_of_In].
    intros Hex. rewrite Hex in Hread. simpl in Hread.
    by apply bool_decide_eq_true in Hread.
  - by exists db'.
Qed.

End totality.

(** ** The rewriter *)

Section rewriter.
Import LinkCampaign.
Variables (ROOT_DIR cwd : string).

(** One turn of the loop over the links of a file moves the link to
    exactly one of the two lists, and changes the content only when it
    moves it to [fixed_links]. *)
Lemma fix_link_spec content fixed manual li :
  ∃ content' new_fixed new_manual,
    fix_link (content, fixed, manual) li
    = (content', fixed ++ new_fixed, manual ++ new_manual)
    ∧ new_fixed ++ new_manual = [li]
    ∧ (new_fixed = [] → content' = content).
Proof.
  unfold fix_link.
  destruct (suggested_fix li) as [s|];
    [destruct (PyStr.truthy s);
     [destruct (Re.search_literal _ _)|]|].
  - eexists _, [li], []. by rewrite app_nil_r.
  - eexists _, [], [li]. by rewrite app_nil_r.
  - eexists _, [], [li]. by rewrite app_nil_r.
  - eexists _, [], [li]. by rewrite app_nil_r.
Qed.

Lemma fix_links_loop_spec links content fixed manual :
  ∃ content' new_fixed new_manual,
    foldl fix_link (content, fixed, manual) links
    = (content', fixed ++ new_fixed, manual ++ new_manual)
    ∧ new_fixed ++ new_manual ≡ₚ links
    ∧ (new_fixed = [] → content' = content).
Proof.
  revert content fixed manual.
  induction links as [|li links IH]; intros content fixed manual;
    cbn [foldl].
  - exists content, [], []. by rewrite !app_nil_r.
  - destruct (fix_link_spec content fixed manual li)
      as (c1 & f1 & m1 & -> & H1 & Hc1).
    destruct (IH c1 (fixed ++ f1) (manual ++ m1))
      as (c2 & f2 & m2 & -> & H2 & Hc2).
    exists c2, (f1 ++ f2), (m1 ++ m2). rewrite !app_assoc.
    split; [done|]. split.
    + change (li :: links) with ([li] ++ links). rewrite <- H1, <- H2.
      rewrite <- !app_assoc. f_equiv. rewrite !app_assoc. f_equiv.
      apply Permutation_app_comm.
    + intros [-> ->]%app_eq_nil. rewrite Hc2, Hc1; done.
Qed.

Lemma fix_file_spec db fs source_file links db' fs' :
  fix_file ROOT_DIR (db, fs) (source_file, links) = Some (db', fs') →
  ∃ content content' new_fixed new_manual,
    file_content db !! source_file = Some content
    ∧ db' = set_results db (fixed_links db ++ new_fixed)
              (manual_review db ++ new_manual)
    ∧ new_fixed ++ new_manual ≡ₚ links
    ∧ (new_fixed = [] → content' = content)
    ∧ fs' = if bool_decide (content ≠ content')
            then fs_write fs (PosixPath.join ROOT_DIR source_file) content'
            else fs.
Proof.
  unfold fix_file.
  destruct (file_content db !! source_file) as [content|]; [|done]. simpl.
  destruct (fix_links_loop_spec
              (PySort.sort_by_key_desc (λ li, String.length (link li)) links)
              content (fixed_links db) (manual_review db))
    as (c' & nf & nm & -> & Hperm & Hc).
  intros [= <- <-]. exists content, c', nf, nm.
  split; [done|]. split; [done|]. split; [|done].
  by rewrite Hperm, sort_by_key_desc_perm.
Qed.

Lemma fix_file_total db fs source_file links :
  is_Some (file_content db !! source_file) →
  is_Some (fix_file ROOT_DIR (db, fs) (source_file, links)).
Proof.
  intros [content Hc]. unfold fix_file. rewrite Hc. simpl.
  by destruct (foldl _ _ _) as [[??]?].
Qed.

Lemma grouped_tail g groups : grouped (g :: groups) → grouped groups.
Proof. intros Hg k lis Hin. apply Hg. by right. Qed.

Lemma group_insert_grouped li groups :
  grouped groups → grouped (group_insert li groups).
Proof.
  induction groups as [|[k lis] groups IH]; intros Hg; simpl.
  - intros k' lis' [= -> ->]%list_elem_of_singleton. split; [done|].
    by intros li' ->%list_elem_of_singleton.
  - destruct (Hg k lis) as [Hne Hsrc]; [by left|].
    case_bool_decide as Hk.
    + intros k' lis' [[= -> ->]|H1]%elem_of_cons.
      * split; [by destruct lis|].
        intros li' [H2| ->%list_elem_of_singleton]%elem_of_app; [|done].
        by apply Hsrc.
      * apply Hg. by right.
    + intros k' lis' [[= -> ->]|H1]%elem_of_cons.
      * done.
      * apply (IH (grouped_tail _ _ Hg)). done.
Qed.

Lemma group_insert_concat li groups :
  concat (snd <$> group_insert li groups) ≡ₚ concat (snd <$> groups) ++ [li].
Proof.
  induction groups as [|[k lis] groups IH]; simpl; [done|].
  case_bool_decide; simpl.
  - rewrite <- !app_assoc. f_equiv. apply Permutation_app_comm.
  - by rewrite IH, app_assoc.
Qed.

Lemma links_by_file_spec broken :
  grouped (links_by_file broken)
  ∧ concat (snd <$> links_by_file broken) ≡ₚ broken.
Proof.
  unfold links_by_file.
  assert (∀ groups, grouped groups →
            grouped (foldl (λ g li, group_insert li g) groups broken)
            ∧ concat (snd <$> foldl (λ g li, group_insert li g) groups broken)
              ≡ₚ concat (snd <$> groups) ++ broken) as H.
  { induction broken as [|li broken IH]; intros groups Hg; cbn [foldl].
    - by rewrite app_nil_r.
    - destruct (IH (group_insert li groups)) as [H1 H2].
      { by apply group_insert_grouped. }
      split; [done|]. rewrite H2, group_insert_concat.
      by rewrite <- app_assoc. }
  apply (H []). intros ?? []%elem_of_nil.
Qed.

Lemma set_results_set_results db f1 m1 f2 m2 :
  set_results (set_results db f1 m1) f2 m2 = set_results db f2 m2.
Proof. done. Qed.

Lemma fix_groups_total groups db fs :
  (∀ k lis, (k, lis) ∈ groups → is_Some (file_content db !! k)) →
  is_Some (foldlM (fix_file ROOT_DIR) (db, fs) groups).
Proof.
  revert db fs. induction groups as [|[k lis] groups IH]; intros db fs Hc;
    cbn [foldlM]; [done|].
  destruct (fix_file_total db fs k lis) as [[db1 fs1] H1].
  { eapply Hc. by left. }
  rewrite H1. cbn [mbind option_bind]. apply IH. intros k' lis' Hin.
  apply fix_file_spec in H1 as (?&?&?&?&_&->&_). simpl.
  eapply Hc. by right.
Qed.

(** The loop of [fix_links] over the files: the entries of the groups are
    shared out between the two lists, and a path is written only if an
    entry of its file went to [fixed_links]. *)
Lemma fix_groups_spec groups db fs db' fs' :
  grouped groups →
  foldlM (fix_file ROOT_DIR) (db, fs) groups = Some (db', fs') →
  ∃ new_fixed new_manual written,
    db' = set_results db (fixed_links db ++ new_fixed)
            (manual_review db ++ new_manual)
    ∧ new_fixed ++ new_manual ≡ₚ concat (snd <$> groups)
    ∧ writes fs' = writes fs ++ written
    ∧ others fs' = others fs
    ∧ (∀ p, (∀ li, li ∈ new_fixed →
               PosixPath.join ROOT_DIR (source li) ≠ p) →
            files fs' !! p = files fs !! p ∧ p ∉ written)
    ∧ (∀ p, is_Some (files fs' !! p) ↔
            is_Some (files fs !! p) ∨ p ∈ written)
    ∧ (∀ p, p ∈ written →
            ∃ k, p = PosixPath.join ROOT_DIR k
                 ∧ is_Some (file_content db !! k)).
Proof.
  revert db fs. induction groups as [|[k lis] groups IH]; intros db fs Hg;
    cbn [foldlM].
  - intros [= <- <-]. exists [], [], []. rewrite !app_nil_r.
    split; [by destruct db|]. split; [done|]. split; [done|].
    split; [done|]. split; [|split].
    + intros p _. split; [done|]. intros []%elem_of_nil.
    + intros p. split; [by left|]. by intros [?|[]%elem_of_nil].
    + intros p []%elem_of_nil.
  - destruct (fix_file ROOT_DIR (db, fs) (k, lis)) as [[db1 fs1]|] eqn:H1;
      [|done]. cbn [mbind option_bind]. intros H2.
    apply fix_file_spec in H1
      as (c & c' & nf1 & nm1 & Hc & Hdb1 & Hp1 & Hsame & Hfs1).
    apply IH in H2
      as (nf2 & nm2 & W & Hdb' & Hp2 & Hw & Ho & Hfiles & Hdom & Hsrc).
    2: { by eapply grouped_tail. }
    clear IH. subst db1 db'. simpl in *.
    assert (∀ li, li ∈ nf1 → source li = k) as Hk.
    { intros li Hli. eapply Hg; [by left|].
      rewrite <- Hp1. apply elem_of_app. by left. }
    assert (∃ W1, writes fs1 = writes fs ++ W1 ∧ others fs1 = others fs
              ∧ (∀ p, (∀ li, li ∈ nf1 → PosixPath.join ROOT_DIR (source li) ≠ p) →
                   files fs1 !! p = files fs !! p ∧ p ∉ W1)
              ∧ (∀ p, is_Some (files fs1 !! p) ↔ is_Some (files fs !! p) ∨ p ∈ W1)
              ∧ (∀ p, p ∈ W1 → p = PosixPath.join ROOT_DIR k)) as
      (W1 & Hw1 & Ho1 & Hfiles1 & Hdom1 & Hsrc1).
    { subst fs1. case_bool_decide as Hne.
      - exists [PosixPath.join ROOT_DIR k]. simpl.
        split; [done|]. split; [done|]. split; [|split].
        + intros p Hp. destruct nf1 as [|li nf1]; [by destruct Hne; rewrite Hsame|].
          assert (PosixPath.join ROOT_DIR k ≠ p) as Hkp.
          { rewrite <- (Hk li) by by left. apply Hp. by left. }
          rewrite lookup_insert_ne by done.
          split; [done|]. by intros ?%list_elem_of_singleton.
        + intros p. rewrite list_elem_of_singleton.
          destruct (decide (PosixPath.join ROOT_DIR k = p)) as [<-|Hkp].
          * rewrite lookup_insert_eq. split; [by right|by eauto].
          * rewrite lookup_insert_ne by done.
            split; [by left|]. intros [?|?]; [done|]. by destruct Hkp.
        + by intros p ?%list_elem_of_singleton.
      - exists []. rewrite app_nil_r. split; [done|]. split; [done|].
        split; [|split].
        + intros p _. split; [done|]. intros []%elem_of_nil.
        + intros p. split; [by left|]. by intros [?|[]%elem_of_nil].
        + intros p []%elem_of_nil. }
    exists (nf1 ++ nf2), (nm1 ++ nm2), (W1 ++ W).
    split; [by rewrite !app_assoc|].
    split.
    { rewrite <- Hp1, <- Hp2. rewrite <- !app_assoc. f_equiv.
      rewrite !app_assoc. f_equiv. apply Permutation_app_comm. }
    split; [by rewrite Hw, Hw1, app_assoc|]. split; [by rewrite Ho|].
    split; [|split].
    + intros p Hp.
      destruct (Hfiles p) as [E1 N1].
      { intros li Hli. apply Hp, elem_of_app. by right. }
      destruct (Hfiles1 p) as [E2 N2].
      { intros li Hli. apply Hp, elem_of_app. by left. }
      split; [by rewrite E1|]. by intros [?|?]%elem_of_app.
    + intros p. rewrite Hdom, Hdom1, elem_of_app. tauto.
    + intros p [Hp|Hp]%elem_of_app.
      * exists k. split; [by apply Hsrc1|]. by rewrite Hc.
      * by apply Hsrc.
Qed.

(** *** A whole run in apply mode *)

Lemma fs_exists_after_writes fs fs' (written : list string) :
  (∀ p, is_Some (files fs' !! p) ↔ is_Some (files fs !! p) ∨ p ∈ written) →
  others fs' = others fs →
  (∀ p, p ∈ written → is_Some (files fs !! p)) →
  ∀ p, fs_exists fs' p = fs_exists fs p.
Proof.
  intros Hdom Ho Hw p. unfold fs_exists. rewrite Ho. f_equal.
  apply bool_decide_ext. rewrite Hdom. split; [|by left].
  intros [?|?]; [done|by apply Hw].
Qed.

Lemma apply_run_spec fs mappings index db1 :
  foldlM (check_file ROOT_DIR cwd fs) (init mappings index) index = Some db1 →
  ∃ db' fs' written,
    check_links ROOT_DIR cwd (init mappings index) fs false = Some (db', fs')
    ∧ db' = set_results db1 (fixed_links db') (manual_review db')
    ∧ fixed_links db' ++ manual_review db' ≡ₚ broken_links db1
    ∧ writes fs' = writes fs ++ written
    ∧ (∀ p, (∀ li, li ∈ fixed_links db' →
               PosixPath.join ROOT_DIR (source li) ≠ p) →
            files fs' !! p = files fs !! p ∧ p ∉ written)
    ∧ (∀ p, fs_exists fs' p = fs_exists fs p).
Proof.
  intros Hcheck. unfold check_links. cbn [all_files init].
  rewrite Hcheck. cbn [mbind option_bind negb]. unfold fix_links.
  apply check_phase_analysed in Hcheck
    as (_ & _ & Hfx & Hmr & Hcache & Hbr).
  destruct (links_by_file_spec (broken_links db1)) as [Hg Hperm].
  destruct (fix_groups_total (links_by_file (broken_links db1)) db1 fs)
    as [[db' fs'] Hfix].
  { intros k lis Hin. destruct (Hg k lis Hin) as [Hne Hsrc].
    destruct lis as [|li lis]; [done|].
    rewrite <- (Hsrc li) by by left.
    apply Hbr. rewrite <- Hperm.
    apply list_elem_of_In, in_concat. exists (li :: lis).
    split; [|by left]. apply list_elem_of_In, list_elem_of_fmap.
    by exists (k, li :: lis). }
  exists db', fs'. pose proof Hfix as Hfix'.
  apply fix_groups_spec in Hfix
    as (nf & nm & W & -> & Hp & Hw & Ho & Hfiles & Hdom & Hsrc); [|done].
  exists W. cbn [fixed_links manual_review set_results].
  rewrite Hfx, Hmr in Hfix' |- *. simpl in Hfix' |- *.
  split; [done|]. split; [done|]. split; [by rewrite Hp|].
  split; [done|]. split; [done|].
  apply (fs_exists_after_writes _ _ W); [done..|].
  intros p (k & -> & [c Hc])%Hsrc. apply Hcache in Hc.
  unfold fs_read in Hc. by rewrite Hc.
Qed.

End rewriter.

Section rewriter_loop.
Import LinkCampaign.




End rewriter_loop.

Section simple_rewriter.
Import SimpleLinkCampaign.

Lemma apply_fix_eq content k old new :
  apply_fix (content, k) (old, new)
  = new_content ← Re.sub_template ("](" +:+ old +:+ ")")
                    ("](" +:+ new +:+ ")") content;
    Some (if bool_decide (new_content ≠ content)
          then (new_content, k + 1) else (content, k)).
Proof.
  unfold apply_fix. destruct (Re.sub_template _ _ _); [|done].
  cbn [mbind option_bind]. by case_bool_decide.
Qed.

Lemma apply_fix_loop fixes content k content' k' :
  foldlM apply_fix (content, k) fixes = Some (content', k') →
  k ≤ k' ∧ (k' = k → content' = content).
Proof.
  revert content k. induction fixes as [|[old new] fixes IH];
    intros content k; cbn [foldlM].
  - by intros [= <- <-].
  - rewrite apply_fix_eq.
    destruct (Re.sub_template _ _ _) as [new_content|]; [|done].
    cbn [mbind option_bind]. case_bool_decide as Hne.
    + intros [Hle _]%IH. split; lia.
    + apply IH.
Qed.

(** [fix_links_in_file] writes the file only if a fix changed its
    content, and not at all when [re.sub] raises. *)
Lemma fix_links_in_file_unchanged ROOT_DIR fs file_path fixes :
  (fix_links_in_file ROOT_DIR fs file_path fixes).1 = Some 0
  ∨ (fix_links_in_file ROOT_DIR fs file_path fixes).1 = None →
  (fix_links_in_file ROOT_DIR fs file_path fixes).2 = fs.
Proof.
  unfold fix_links_in_file.
  destruct (fs_read _ _) as [original|]; [|done].
  destruct (foldlM apply_fix (original, 0) fixes) as [[content n]|] eqn:Hloop;
    [|done].
  apply apply_fix_loop in Hloop as [_ Hsame].
  case_bool_decide as Hne; cbn [fst snd]; [|done].
  intros [[= ->]|[=]]. by destruct Hne; apply Hsame.
Qed.

End simple_rewriter.

(** C10. In apply mode a file is written only if a replacement changed its
    content: a path none of whose links went to [fixed_links] keeps its
    content and is not among the paths written by the run.  The same holds
    of [fix_links_in_file] in the other script: when no fix is applied, the
    file system is left as it was, and so it is when [re.sub] raises. *)
Theorem documents_without_fix_not_written (ROOT_DIR cwd : string)
    (mappings : gmap string string) (index : list string) (fs fs' : filesystem)
    (db' : LinkCampaign.LinkDatabase) (p : string) :
  LinkCampaign.check_links ROOT_DIR cwd (LinkCampaign.init mappings index)
    fs false = Some (db', fs') →
  (∀ li, li ∈ LinkCampaign.fixed_links db' →
         PosixPath.join ROOT_DIR (LinkCampaign.source li) ≠ p) →
  (files fs' !! p = files fs !! p
   ∧ ∃ written, writes fs' = writes fs ++ written ∧ p ∉ written)
  ∧ ∀ fs0 file_path fixes,
      ((SimpleLinkCampaign.fix_links_in_file ROOT_DIR fs0 file_path fixes).1
       = Some 0 →
       (SimpleLinkCampaign.fix_links_in_file ROOT_DIR fs0 file_path fixes).2
       = fs0)
      ∧ ((SimpleLinkCampaign.fix_links_in_file ROOT_DIR fs0 file_path fixes).1
         = None →
         (SimpleLinkCampaign.fix_links_in_file ROOT_DIR fs0 file_path fixes).2
         = fs0).
Proof.
  intros Hrun Hp. split.
  2:{ intros fs0 file_path fixes.
      split; intros H; apply fix_links_in_file_unchanged; [by left|by right]. }
  pose proof Hrun as Hrun'.
  unfold LinkCampaign.check_links in Hrun'.
  destruct (foldlM _ _ _) as [db1|] eqn:Hcheck; [|done].
  destruct (apply_run_spec ROOT_DIR cwd fs mappings index db1 Hcheck)
    as (db2 & fs2 & W & Hrun2 & _ & _ & Hw & Hfiles & _).
  rewrite Hrun in Hrun2. injection Hrun2 as <- <-.
  destruct (Hfiles p Hp) as [Hsame Hnw].
  split; [done|]. by exists W.
Qed.

Lemma documents_without_fix_not_written_witness :
  let fs :=
    FileSystem
      {[ "/repo/index.md" := "[a](x.md)";
         "/repo/notes.md" := "[gone](nowhere.md)";
         "/repo/sub/x.md" := "x" ]} ∅ [] in
  let index := ["index.md"; "notes.md"; "sub/x.md"] in
  ∃ db' fs',
    LinkCampaign.check_links "/repo" "/repo" (LinkCampaign.init ∅ index)
      fs false = Some (db', fs')
    ∧ (∀ li, li ∈ LinkCampaign.fixed_links db' →
             PosixPath.join "/repo" (LinkCampaign.source li)
             ≠ "/repo/notes.md")
    ∧ files fs' !! "/repo/notes.md" = files fs !! "/repo/notes.md"
    ∧ ∃ written, writes fs' = writes fs ++ written
                 ∧ "/repo/notes.md" ∉ written.
Proof.
  intros fs index.
  destruct (LinkCampaign.check_links "/repo" "/repo"
              (LinkCampaign.init ∅ index) fs false)
    as [[db' fs']|] eqn:H1; [|by vm_compute in H1].
  assert (∀ li, li ∈ LinkCampaign.fixed_links db' →
                PosixPath.join "/repo" (LinkCampaign.source li)
                ≠ "/repo/notes.md") as Hfixed.
  { vm_compute in H1. injection H1 as <- <-.
    by intros li ->%list_elem_of_singleton. }
  exists db', fs'. split; [reflexivity|]. split; [exact Hfixed|].
  exact (proj1 (documents_without_fix_not_written "/repo" "/repo" ∅ index
                  fs fs' db' "/repo/notes.md" H1 Hfixed)).
Defined.

(** ** A second analysis after a run in apply mode *)


(** ** The scenarios of the specification, run on the model *)

(** [docs/guide.md] refers to [./setup.md]; only [docs/install/setup.md]
    exists.  The link is reported with the suggestion [install/setup.md],
    one level down from the directory of the document. *)
Example scenario_setup_one_level_down :
  let fs :=
    FileSystem
      {[ "/repo/docs/guide.md" := "Read the [setup](./setup.md) first.";
         "/repo/docs/install/setup.md" := "# Setup" ]} ∅ [] in
  let index := ["docs/guide.md"; "docs/install/setup.md"] in
  LinkCampaign.candidate_matches "/repo" index "setup.md" "docs/guide.md"
    = [("docs/install/setup.md", 1)]
  ∧ (LinkCampaign.broken_links ∘ fst) <$>
      LinkCampaign.check_links "/repo" "/repo" (LinkCampaign.init ∅ index)
        fs true
    = Some [LinkCampaign.LinkInfo "docs/guide.md" "setup" "./setup.md"
              (Some "install/setup.md")].
Proof. by vm_compute. Qed.

(** An anchor is kept on the path of the search by file name. *)
Example scenario_anchor_kept_by_name :
  LinkCampaign.find_best_match "/repo" "/repo"
    (LinkCampaign.init ∅ ["index.md"; "docs/new/old.md"])
    "guide/old.md#install" "index.md"
  = Some (Some "docs/new/old.md#install").
Proof. by vm_compute. Qed.

(** The functions of [posixpath] on a few paths. *)
Example posixpath_examples :
  PosixPath.normpath "/a/b/../c/./d//e" = "/a/c/d/e"
  ∧ PosixPath.normpath "a/../.." = ".."
  ∧ PosixPath.normpath "//a" = "//a"
  ∧ PosixPath.normpath "///a/.." = "/"
  ∧ PosixPath.dirname "/a/b/c.md" = "/a/b"
  ∧ PosixPath.dirname "c.md" = ""
  ∧ PosixPath.dirname "/c.md" = "/"
  ∧ PosixPath.basename "a/b.md" = "b.md"
  ∧ PosixPath.join "/a/b" "c" = "/a/b/c"
  ∧ PosixPath.join "/a/b" "/c" = "/c"
  ∧ PosixPath.relpath "/w" "/r/docs/install/setup.md" "/r/docs"
    = Some "install/setup.md"
  ∧ PosixPath.relpath "/w" "a/b" "a/c/d" = Some "../../b"
  ∧ PosixPath.relpath "/w" "a" "a" = Some "."
  ∧ PosixPath.relpath "/w" "" "a" = None.
Proof. by vm_compute. Qed.

(** The link pattern on a content with brackets of several kinds. *)
Example findall_examples :
  Re.findall "see [a](b.md), [[x](y) [z] (q) [t](u#v) [e]() [m](n o) [p](q"
  = [("a", "b.md"); ("[x", "y"); ("t", "u#v"); ("m", "n o")].
Proof. by vm_compute. Qed.

(** The other script on the first scenario: the link is reported with the
    path it resolves to, the resolver suggests [install/setup.md], and the
    fix rewrites every link of the file with that target. *)
Example scenario_simple_script :
  let fs :=
    FileSystem
      {[ "/repo/docs/guide.md" := "Read the [setup](./setup.md) first.";
         "/repo/docs/install/setup.md" := "# Setup" ]} ∅ [] in
  let index := ["docs/guide.md"; "docs/install/setup.md"] in
  SimpleLinkCampaign.check_links_in_file "/repo" fs "docs/guide.md"
    = ([SimpleLinkCampaign.LinkRecord "docs/guide.md" "setup" "./setup.md"
          "docs/setup.md"], [])
  ∧ SimpleLinkCampaign.find_best_match "/repo" ∅ index "./setup.md"
      "docs/guide.md" = Some "install/setup.md"
  ∧ (λ r, (r.1, files r.2 !! "/repo/docs/guide.md", writes r.2))
      (SimpleLinkCampaign.fix_links_in_file "/repo" fs "docs/guide.md"
         [("./setup.md", "install/setup.md")])
    = (Some 1, Some "Read the [setup](install/setup.md) first.",
       ["/repo/docs/guide.md"]).
Proof. by vm_compute. Qed.

(** ** Why the index is taken without hash signs and backslashes *)

(** A directory with a hash sign in its name: the suggestion leads to the
    file, but once written into the document it is read as a path and an
    anchor, and the next analysis reports it. *)
Example hash_sign_in_directory_name :
  let fs :=
    FileSystem
      {[ "/repo/index.md" := "[t](x.md)"; "/repo/c#/x.md" := "x" ]} ∅ [] in
  let index := ["index.md"; "c#/x.md"] in
  ∃ db1 fs1 db2,
    LinkCampaign.check_links "/repo" "/repo" (LinkCampaign.init ∅ index)
      fs false = Some (db1, fs1)
    ∧ LinkCampaign.fixed_links db1
      = [LinkCampaign.LinkInfo "index.md" "t" "x.md" (Some "c#/x.md")]
    ∧ LinkCampaign.check_links "/repo" "/repo" (LinkCampaign.init ∅ index)
        fs1 true = Some (db2, fs1)
    ∧ LinkCampaign.broken_links db2
      = [LinkCampaign.LinkInfo "index.md" "t" "c#/x.md" (Some "c#/x.md")].
Proof.
  intros fs index.
  destruct (LinkCampaign.check_links "/repo" "/repo"
              (LinkCampaign.init ∅ index) fs false)
    as [[db1 fs1]|] eqn:H1; [|by vm_compute in H1].
  destruct (LinkCampaign.check_links "/repo" "/repo"
              (LinkCampaign.init ∅ index) fs1 true)
    as [[db2 fs2]|] eqn:H2.
  2: { vm_compute in H1. injection H1 as <- <-. by vm_compute in H2. }
  exists db1, fs1, db2.
  vm_compute in H1. injection H1 as <- <-.
  vm_compute in H2. injection H2 as <- <-.
  split; [done|]. split; [done|]. split; [by vm_compute|done].
Qed.

(** A file name with a backslash: the resolver rewrites the backslash of
    the relative path into a slash, and the suggestion leads elsewhere. *)
Example backslash_in_file_name :
  let index := ["index.md"; "docs/a\b.md"] in
  LinkCampaign.find_best_match "/repo" "/repo" (LinkCampaign.init ∅ index)
    "a\b.md" "index.md" = Some (Some "docs/a/b.md")
  ∧ LinkCampaign.link_target "/repo" "index.md" "docs/a/b.md"
    = "/repo/docs/a/b.md".
Proof. by vm_compute. Qed.

(** ** The reference extractor *)

Section extractor_facts.
Import PyStr Re Normalised.

Lemma span_until_spec stop s r rest :
  span_until stop s = Some (r, rest) →
  s = r +:+ rest ∧ has_char stop r = false
  ∧ ∃ rest', rest = String stop rest'.
Proof.
  revert r rest. induction s as [|c s IH]; intros r rest; [done|].
  cbn [span_until]. case_bool_decide as Hc.
  - intros [= <- <-]. subst c. split_and!; [done..|by eexists].
  - destruct (span_until stop s) as [[r' rest']|]; [|done].
    intros [= <- <-]. destruct (IH _ _ eq_refl) as (-> & Hr & Hrest).
    split_and!; [done| |done].
    cbn [has_char]. rewrite Hr. by rewrite bool_decide_eq_false_2.
Qed.

Lemma span_until_app stop r rest :
  has_char stop r = false →
  span_until stop (r +:+ String stop rest) = Some (r, String stop rest).
Proof.
  induction r as [|c r IH]; intros Hr.
  - rewrite app_empty_l. cbn [span_until].
    by rewrite bool_decide_eq_true_2.
  - cbn [has_char] in Hr. apply orb_false_iff in Hr as [Hc Hr].
    rewrite app_cons. cbn [span_until]. rewrite Hc, (IH Hr). done.
Qed.

Lemma truthy_true s : truthy s = true ↔ s ≠ "".
Proof. unfold truthy. rewrite negb_true_iff, bool_decide_eq_false. done. Qed.

(** A match of the pattern at the start of a string: an opening bracket,
    a text without closing bracket, a closing bracket and an opening
    parenthesis, a target without closing parenthesis, and a closing
    parenthesis. *)
Lemma match_link_spec s text link rest :
  match_link s = Some (text, link, rest) ↔
  s = "[" +:+ text +:+ "](" +:+ link +:+ ")" +:+ rest
  ∧ text ≠ "" ∧ has_char "]" text = false
  ∧ link ≠ "" ∧ has_char ")" link = false.
Proof.
  split.
  - unfold match_link. destruct s as [|c s1]; [done|].
    destruct (decide (c = "["%char)) as [->|Hc];
      [|by repeat (destruct c as [[] [] [] [] [] [] [] []]; try done)].
    destruct (span_until "]" s1) as [[t r1]|] eqn:H1; [|done].
    apply span_until_spec in H1 as (-> & Ht & r1' & ->).
    destruct r1' as [|c2 s2]; [done|].
    destruct (decide (c2 = "("%char)) as [->|Hc2]; cycle 1.
    { intros H. exfalso. revert H.
      destruct c2 as [[] [] [] [] [] [] [] []]; done. }
    destruct (truthy t) eqn:Htt; [|done].
    destruct (span_until ")" s2) as [[l r2]|] eqn:H2; [|done].
    apply span_until_spec in H2 as (-> & Hl & r2' & ->).
    destruct (truthy l) eqn:Hlt; [|done].
    intros [= <- <- <-]. apply truthy_true in Htt, Hlt.
    split_and!; try done; cbn; by rewrite ?app_assoc_str.
  - intros (-> & Ht & Ht' & Hl & Hl').
    change ("[" +:+ text +:+ "](" +:+ link +:+ ")" +:+ rest)
      with (String "[" (text +:+ String "]" (String "(" (link +:+ String ")" rest)))).
    cbn [match_link]. rewrite (span_until_app _ _ _ Ht').
    apply truthy_true in Ht, Hl. rewrite Ht.
    rewrite (span_until_app _ _ _ Hl'), Hl. done.
Qed.

Lemma startswith_app s t : startswith (s +:+ t) s = true.
Proof.
  induction s as [|c s IH]; [apply startswith_empty|].
  rewrite app_cons, startswith_cons. done.
Qed.

Lemma contains_app pre pat suf : contains (pre +:+ pat +:+ suf) pat = true.
Proof.
  induction pre as [|c pre IH].
  - rewrite app_empty_l. destruct (pat +:+ suf) eqn:E; cbn [contains];
      rewrite <- E, startswith_app; done.
  - rewrite app_cons. cbn [contains]. rewrite IH. apply orb_true_r.
Qed.

Lemma findall_go_sound skip s text link :
  (text, link) ∈ findall_go skip s →
  ∃ pre suf, s = pre +:+ ("[" +:+ text +:+ "](" +:+ link +:+ ")") +:+ suf
    ∧ text ≠ "" ∧ has_char "]" text = false
    ∧ link ≠ "" ∧ has_char ")" link = false.
Proof.
  revert skip. induction s as [|c s IH]; intros skip; [by intros ?%elem_of_nil|].
  cbn [findall_go]. destruct skip as [|k].
  - destruct (match_link (String c s)) as [[[t l] rest]|] eqn:Hm.
    + intros [[= -> ->]|Hin]%elem_of_cons.
      * apply match_link_spec in Hm as (Hs & ?).
        exists "", rest. rewrite app_empty_l, Hs.
        split; [|done]. by rewrite !app_assoc_str.
      * destruct (IH _ Hin) as (pre & suf & -> & ?).
        exists (String c pre), suf. done.
    + intros Hin. destruct (IH _ Hin) as (pre & suf & -> & ?).
      exists (String c pre), suf. done.
  - intros Hin. destruct (IH _ Hin) as (pre & suf & -> & ?).
    exists (String c pre), suf. done.
Qed.

Lemma findall_go_skip u rest :
  findall_go (String.length u) (u +:+ rest) = findall_go 0 rest.
Proof.
  induction u as [|c u IH]; [by destruct rest|].
  rewrite app_cons. cbn [String.length findall_go]. done.
Qed.

Lemma match_link_not_bracket c s : c ≠ "["%char → match_link (String c s) = None.
Proof.
  intros Hc. unfold match_link.
  destruct c as [[] [] [] [] [] [] [] []]; done.
Qed.

Lemma findall_go_without pre rest :
  has_char "[" pre = false →
  findall_go 0 (pre +:+ rest) = findall_go 0 rest.
Proof.
  induction pre as [|c pre IH]; intros Hpre; [by rewrite app_empty_l|].
  cbn [has_char] in Hpre. apply orb_false_iff in Hpre as [Hc Hpre].
  apply bool_decide_eq_false in Hc.
  rewrite app_cons. cbn [findall_go].
  rewrite match_link_not_bracket by done. auto.
Qed.

End extractor_facts.

(** X1. Every pair that the link pattern extracts from a text has a text
    that is not empty and holds no closing bracket, a target that is not
    empty and holds no closing parenthesis, and the syntax made of the two,
    as [fix_links] rebuilds it, occurs in the text. *)
Theorem extracted_link_occurs_in_content (content text link : string) :
  (text, link) ∈ Re.findall content →
  text ≠ "" ∧ Normalised.has_char "]" text = false
  ∧ link ≠ "" ∧ Normalised.has_char ")" link = false
  ∧ PyStr.contains content ("[" +:+ text +:+ "](" +:+ link +:+ ")") = true.
Proof.
  intros (pre & suf & -> & Ht & Ht' & Hl & Hl')%findall_go_sound.
  split_and!; try done. apply contains_app.
Qed.

Lemma extracted_link_occurs_in_content_witness :
  ("setup", "./setup.md") ∈ Re.findall "Read the [setup](./setup.md) first."
  ∧ "setup" ≠ "" ∧ Normalised.has_char "]" "setup" = false
  ∧ "./setup.md" ≠ "" ∧ Normalised.has_char ")" "./setup.md" = false
  ∧ PyStr.contains "Read the [setup](./setup.md) first."
      ("[" +:+ "setup" +:+ "](" +:+ "./setup.md" +:+ ")") = true.
Proof.
  assert (("setup", "./setup.md")
          ∈ Re.findall "Read the [setup](./setup.md) first.") as H
    by (vm_compute; apply list_elem_of_here).
  split; [exact H|].
  exact (extracted_link_occurs_in_content _ _ _ H).
Defined.

(** X2. The extraction is leftmost and does not overlap: in a text that
    starts with characters other than an opening bracket followed by a
    link, the first pair extracted is that link, and the extraction goes on
    behind its closing parenthesis.  The text of a link may hold opening
    brackets, the target any character but a closing parenthesis. *)
Theorem extraction_is_leftmost_and_resumes_after_the_link
    (pre text link rest : string) :
  Normalised.has_char "[" pre = false →
  text ≠ "" → Normalised.has_char "]" text = false →
  link ≠ "" → Normalised.has_char ")" link = false →
  Re.findall (pre +:+ "[" +:+ text +:+ "](" +:+ link +:+ ")" +:+ rest)
  = (text, link) :: Re.findall rest.
Proof.
  intros Hpre Ht Ht' Hl Hl'. unfold Re.findall.
  rewrite findall_go_without by done.
  change ("[" +:+ text +:+ "](" +:+ link +:+ ")" +:+ rest)
    with (String "[" (text +:+ "](" +:+ link +:+ ")" +:+ rest)).
  cbn [Re.findall_go].
  assert (Re.match_link (String "[" (text +:+ "](" +:+ link +:+ ")" +:+ rest))
          = Some (text, link, rest)) as ->.
  { apply match_link_spec. done. }
  f_equal.
  replace (text +:+ "](" +:+ link +:+ ")" +:+ rest)
    with ((text +:+ "](" +:+ link +:+ ")") +:+ rest)
    by (by rewrite !app_assoc_str).
  rewrite <- (findall_go_skip (text +:+ "](" +:+ link +:+ ")") rest). f_equal.
  rewrite !length_app_str. cbn. lia.
Qed.

Lemma extraction_is_leftmost_and_resumes_after_the_link_witness :
  (Normalised.has_char "[" "see " = false
   ∧ "[x" ≠ "" ∧ Normalised.has_char "]" "[x" = false
   ∧ "y (z" ≠ "" ∧ Normalised.has_char ")" "y (z" = false)
  ∧ Re.findall ("see " +:+ "[" +:+ "[x" +:+ "](" +:+ "y (z" +:+ ")"
                +:+ ") and [a](b)")
    = ("[x", "y (z") :: Re.findall ") and [a](b)".
Proof.
  split; [by split_and!|].
  by apply extraction_is_leftmost_and_resumes_after_the_link.
Defined.


(** ** The resolver: names, anchors and distances *)

Section sort_desc_facts.
Import PySort.
Context {A : Type} (key : A → nat).

Lemma insert_desc_not_nil x l : insert_desc key x l ≠ [].
Proof. destruct l as [|y l]; simpl; [done|]. by destruct (_ <=? _). Qed.

Lemma sort_by_key_desc_nil_inv l : sort_by_key_desc key l = [] → l = [].
Proof.
  destruct l as [|x l]; [done|]. simpl. intros H.
  by apply insert_desc_not_nil in H.
Qed.

(** The head of the list sorted in descending order is the first element
    of the list, in its original order, whose key is maximal. *)
Lemma sort_by_key_desc_head l x rest :
  sort_by_key_desc key l = x :: rest →
  ∃ pre post, l = pre ++ x :: post
    ∧ Forall (λ y, key y < key x) pre ∧ Forall (λ y, key y ≤ key x) post.
Proof.
  revert x rest. induction l as [|a l IH]; intros x rest; [done|].
  simpl. destruct (sort_by_key_desc key l) as [|y r] eqn:Hs.
  - apply sort_by_key_desc_nil_inv in Hs as ->. simpl. intros [= <- <-].
    by exists [], [].
  - destruct (IH y r eq_refl) as (pre & post & -> & Hpre & Hpost).
    simpl. destruct (key y <=? key a) eqn:Hle.
    + apply Nat.leb_le in Hle. intros [= <- <-].
      exists [], (pre ++ y :: post). split; [done|]. split; [done|].
      apply Forall_app. split.
      * eapply Forall_impl; [exact Hpre|]. simpl. lia.
      * constructor; [done|]. eapply Forall_impl; [exact Hpost|]. simpl. lia.
    + apply Nat.leb_gt in Hle. intros [= <- <-].
      exists (a :: pre), post. split; [done|]. split; [|done].
      by constructor.
Qed.
End sort_desc_facts.

Section name_facts.
Import PyStr PosixPath Normalised.

Lemma lower_ascii_slash a : lower_ascii a = "/"%char → a = "/"%char.
Proof. destruct a as [[] [] [] [] [] [] [] []]; vm_compute; congruence. Qed.

Lemma lower_ascii_hash a :
  bool_decide (lower_ascii a = "#"%char) = bool_decide (a = "#"%char).
Proof. destruct a as [[] [] [] [] [] [] [] []]; vm_compute; congruence. Qed.

Lemma lower_empty s : lower s = "" → s = "".
Proof. by destruct s. Qed.

Lemma has_char_hash_lower s : has_char "#" (lower s) = has_char "#" s.
Proof.
  induction s as [|a s IH]; [done|]. cbn [lower has_char].
  by rewrite lower_ascii_hash, IH.
Qed.

Lemma endswith_slash_lower s :
  endswith (lower s) "/" = true → endswith s "/" = true.
Proof.
  induction s as [|a s IH]; [done|]. cbn [lower endswith].
  intros [H|H]%orb_true_iff; apply orb_true_iff.
  - left. apply bool_decide_eq_true in H. injection H as Ha Hs.
    apply lower_ascii_slash in Ha as ->. apply lower_empty in Hs as ->.
    by apply bool_decide_eq_true.
  - right. auto.
Qed.

Lemma basename_rel_of ns f :
  Forall comp ns → comp f → basename (rel_of (ns ++ [f])) = f.
Proof.
  intros Hns [Hf Hf']. unfold basename, sep.
  destruct ns as [|n ns].
  - cbn [app rel_of PyStr.join concat]. by rewrite rpartition_without.
  - rewrite rel_of_app by done.
    change (rel_of [f]) with f.
    change (rel_of (n :: ns) +:+ "/" +:+ f)
      with (rel_of (n :: ns) +:+ String "/" f).
    by rewrite rpartition_app.
Qed.

Lemma has_char_basename c p :
  has_char c (basename p) = true → has_char c p = true.
Proof.
  unfold basename, sep.
  assert (∀ h t, rpartition "/" p = Some (h, t) → p = h +:+ "/" +:+ t) as Hp.
  { induction p as [|a p IH]; intros h t; [done|]. cbn [rpartition].
    destruct (rpartition "/" p) as [[h' t']|].
    - intros [= <- <-]. by rewrite (IH h' t' eq_refl).
    - case_bool_decide as Ha; [|done]. intros [= <- <-]. by subst a. }
  destruct (rpartition "/" p) as [[h t]|]; [|done].
  rewrite (Hp h t eq_refl). rewrite !has_char_app. intros ->.
  by rewrite !orb_true_r.
Qed.

(** A path of a normalised index has a name as its last component. *)
Lemma relative_basename file :
  relative file = true →
  is_name (basename file) = true ∧ endswith file "/" = false.
Proof.
  intros (ns & Hne & Hns & ->)%relative_names.
  destruct (exists_last Hne) as (ds & f & ->).
  pose proof Hns as [Hds Hf]%Forall_app. inversion_clear Hf as [|?? Hf' _].
  rewrite basename_rel_of by (by apply names_comps || by apply is_name_comp).
  split; [done|]. apply rel_of_not_slash_last. by apply names_comps.
Qed.

Lemma filter_none {B} (P : B → bool) l :
  Forall (λ x, P x = false) l → List.filter P l = [].
Proof.
  induction 1 as [|x l Hx _ IH]; [done|]. cbn [List.filter]. by rewrite Hx.
Qed.

End name_facts.

Section distance_facts.
Import PyStr PosixPath Normalised.

Lemma abspath_dot cs : names cs → abspath (abs_of cs) "." = abs_of cs.
Proof.
  intros Hcs. unfold abspath. cbn [startswith String.prefix].
  change "." with (rel_of ["."]).
  rewrite join_abs_rel; [|by apply names_comps|by constructor|done].
  by apply normpath_abs_of_dot.
Qed.

(** The directory of a path of the index, with the dot that [distance]
    puts in the place of an empty directory. *)
Lemma abspath_dir_or_dot cs ds :
  names cs → names ds →
  abspath (abs_of cs) (if truthy (rel_of ds) then rel_of ds else ".")
  = abs_of (cs ++ ds).
Proof.
  intros Hcs Hds. destruct ds as [|d ds].
  - cbn [rel_of PyStr.join concat truthy bool_decide negb].
    rewrite app_nil_r. by apply abspath_dot.
  - assert (rel_of (d :: ds) ≠ "") as Hne
      by (apply rel_of_not_empty; [by apply names_comps|done]).
    unfold truthy. rewrite bool_decide_eq_false_2 by done. cbn [negb].
    by apply abspath_rel_of.
Qed.

Lemma length_split_rel_string l :
  Forall comp l → length (split "/" (rel_string l)) = Nat.max 1 (length l).
Proof.
  intros Hl. destruct l as [|a p]; [done|].
  unfold rel_string, rel_of. rewrite (split_join "/"); [cbn; lia|done|].
  eapply Forall_impl; [done|]. by intros ? [_ ?].
Qed.

Lemma length_rel_list S P :
  length (rel_list S P)
  = length S + length P - 2 * common_prefix_length S P.
Proof.
  unfold rel_list. rewrite length_app, length_replicate, length_drop.
  pose proof (common_prefix_length_le S P).
  destruct (common_prefix_split S P) as (C & S' & P' & -> & -> & Hlen).
  rewrite Hlen, !length_app. lia.
Qed.

End distance_facts.

Section anchor_facts.
Import PyStr PosixPath Re Normalised LinkCampaign.

Lemma join_snoc_app sep l x t :
  PyStr.join sep (l ++ [x]) +:+ t = PyStr.join sep (l ++ [x +:+ t]).
Proof.
  induction l as [|y l IH]; [done|].
  destruct l as [|z l].
  - cbn. by rewrite !app_assoc_str.
  - change ((y :: z :: l) ++ [x]) with (y :: z :: (l ++ [x])).
    change ((y :: z :: l) ++ [x +:+ t]) with (y :: z :: (l ++ [x +:+ t])).
    rewrite !join_cons, !app_assoc_str. do 2 f_equal. exact IH.
Qed.

Lemma last_split_app c s t :
  has_char c t = false →
  last (split c (s +:+ t)) = Some (default "" (last (split c s)) +:+ t).
Proof.
  intros Ht.
  destruct (exists_last (split_not_nil c s)) as (init & x & Hs).
  pose proof (split_components c s) as Hc. rewrite Hs in Hc.
  apply Forall_app in Hc as [Hinit Hx]. inversion_clear Hx as [|?? Hx' _].
  rewrite <- (join_split c s) at 1. rewrite Hs, join_snoc_app.
  rewrite split_join.
  - by rewrite !last_snoc.
  - by destruct init.
  - apply Forall_app. split; [done|]. constructor; [|done].
    by rewrite has_char_app, Hx', Ht.
Qed.

Lemma first_line_without s : has_char "010" s = false → first_line s = s.
Proof.
  induction s as [|a s IH]; [done|]. cbn [has_char first_line].
  intros [Ha Hs]%orb_false_iff. rewrite Ha. by rewrite IH.
Qed.

Lemma target_and_anchor_plain path :
  has_char "#" (default "" (last (split "/" path))) = false →
  has_char "010" (default "" (last (split "/" path))) = false →
  target_and_anchor path = (default "" (last (split "/" path)), None).
Proof.
  intros Hh Hl. unfold target_and_anchor, anchor_match.
  rewrite first_line_without by done. by rewrite rpartition_without.
Qed.

Lemma target_and_anchor_anchored path anchor :
  has_char "010" (default "" (last (split "/" path))) = false →
  has_char "/" anchor = false → has_char "#" anchor = false →
  has_char "010" anchor = false →
  target_and_anchor (path +:+ "#" +:+ anchor)
  = (default "" (last (split "/" path)), Some anchor).
Proof.
  intros Hl Ha1 Ha2 Ha3. unfold target_and_anchor, anchor_match.
  assert (has_char "/" ("#" +:+ anchor) = false) as Hs
    by (change ("#" +:+ anchor) with (String "#" anchor); cbn [has_char];
        by rewrite Ha1).
  assert (has_char "010" ("#" +:+ anchor) = false) as Hn
    by (change ("#" +:+ anchor) with (String "#" anchor); cbn [has_char];
        by rewrite Ha3).
  rewrite last_split_app by done.
  cbn [default].
  unfold id.
  assert (has_char "010" (default "" (last (split "/" path)) +:+ "#" +:+ anchor)
          = false) as Hfl.
  { by rewrite has_char_app, Hl, Hn. }
  rewrite first_line_without by done.
  change ("#" +:+ anchor) with (String "#" anchor).
  by rewrite rpartition_app.
Qed.

End anchor_facts.

Section first_scan_facts.
Import PyStr PosixPath Normalised.

Lemma has_char_slash_lower s :
  has_char "/" (lower s) = true → has_char "/" s = true.
Proof.
  induction s as [|a s IH]; [done|]. cbn [lower has_char].
  intros [H|H]%orb_true_iff; apply orb_true_iff.
  - left. apply bool_decide_eq_true in H. apply lower_ascii_slash in H.
    by apply bool_decide_eq_true.
  - right. auto.
Qed.

Lemma endswith_has_char c s suf :
  endswith s (String c suf) = true → has_char c s = true.
Proof.
  induction s as [|a s IH]; cbn [endswith has_char].
  - rewrite orb_false_r. by intros ?%bool_decide_eq_true.
  - intros [H|H]%orb_true_iff; apply orb_true_iff.
    + left. apply bool_decide_eq_true in H. injection H as -> _.
      by apply bool_decide_eq_true.
    + right. auto.
Qed.

End first_scan_facts.

Section simple_anchor_facts.
Import PyStr PosixPath SimpleLinkCampaign.

(** No file of an index without hash signs has the name of a target with
    an anchor. *)
Lemma find_best_match_anchored cwd mappings index broken_link source_file :
  hash_free_index index = true →
  mappings !! broken_link = None →
  Normalised.has_char "#" (basename broken_link) = true →
  find_best_match cwd mappings index broken_link source_file = None.
Proof.
  intros Hidx Hm Hh. unfold find_best_match. rewrite Hm.
  assert (Forall (λ file,
            Normalised.has_char "#" (basename file) = false) index)
    as Hfree.
  { apply Forall_forall. intros file Hin.
    unfold hash_free_index in Hidx. rewrite forallb_forall in Hidx.
    specialize (Hidx file (proj1 (list_elem_of_In _ _) Hin)).
    unfold Normalised.without_hash in Hidx. apply negb_true_iff in Hidx.
    destruct (Normalised.has_char "#" (basename file)) eqn:E; [|done].
    apply has_char_basename in E. congruence. }
  unfold exact_matches, case_insensitive_matches.
  rewrite !filter_none; [done| |].
  - eapply Forall_impl; [exact Hfree|]. intros file Hf.
    apply bool_decide_eq_false. intros H.
    apply (f_equal (Normalised.has_char "#")) in H.
    rewrite !has_char_hash_lower in H. congruence.
  - eapply Forall_impl; [exact Hfree|]. intros file Hf.
    apply bool_decide_eq_false. intros H. cbv beta in Hf. congruence.
Qed.

End simple_anchor_facts.

(** X3. For a document and a file of a normalised index, the distance that
    ranks the candidates is the number of steps up from the directory of
    the document to the deepest common directory plus the number of steps
    down to the directory of the file, and 1 when the two directories are
    the same: a file beside the document is no nearer than one in a
    directory just below or just above. *)
Theorem distance_counts_the_steps_between_directories
    (cs ss bs : list string) (s b : string) :
  names cs → names (ss ++ [s]) → names (bs ++ [b]) →
  LinkCampaign.distance (Normalised.abs_of cs)
    (Normalised.rel_of (ss ++ [s])) (Normalised.rel_of (bs ++ [b]))
  = Nat.max 1
      (length ss + length bs - 2 * PosixPath.common_prefix_length ss bs).
Proof.
  intros Hcs [Hss Hs]%Forall_app [Hbs Hb]%Forall_app.
  inversion_clear Hs as [|?? Hs' _]. inversion_clear Hb as [|?? Hb' _].
  unfold LinkCampaign.distance.
  rewrite !dirname_rel_of by (by apply names_comps || by apply is_name_comp).
  unfold PosixPath.relpath.
  rewrite bool_decide_eq_false_2; cycle 1.
  { destruct (PyStr.truthy (Normalised.rel_of bs)) eqn:E; [|done].
    unfold PyStr.truthy in E.
    apply negb_true_iff, bool_decide_eq_false in E. done. }
  rewrite !abspath_dir_or_dot by done.
  rewrite !nonempty_comps_abs_of by by apply Forall_app.
  fold (rel_list (cs ++ ss) (cs ++ bs)). rewrite rel_list_app.
  rewrite <- length_rel_list.
  pose proof (rel_list_comps ss bs Hbs) as Hc.
  rewrite <- length_split_rel_string by done.
  destruct (rel_list ss bs) as [|a p]; [done|].
  by rewrite foldl_join_rel.
Qed.

Lemma distance_counts_the_steps_between_directories_witness :
  (names ["home"; "dev"] ∧ names (["docs"; "guide"] ++ ["intro.md"])
   ∧ names (["docs"; "api"; "v2"] ++ ["index.md"]))
  ∧ LinkCampaign.distance "/home/dev" "docs/guide/intro.md"
      "docs/api/v2/index.md" = 3
  ∧ LinkCampaign.distance "/home/dev" "docs/guide/intro.md"
      "docs/guide/next.md" = 1
  ∧ LinkCampaign.distance "/home/dev" "docs/guide/intro.md"
      "docs/guide/more/deep.md" = 1.
Proof.
  assert (names ["home"; "dev"]) as Hcs by (by repeat constructor).
  assert (names (["docs"; "guide"] ++ ["intro.md"])) as Hss
    by (by repeat constructor).
  assert (names (["docs"; "api"; "v2"] ++ ["index.md"])) as Hbs
    by (by repeat constructor).
  split; [done|]. split; [|split; vm_compute; reflexivity].
  exact (distance_counts_the_steps_between_directories
           ["home"; "dev"] ["docs"; "guide"] ["docs"; "api"; "v2"]
           "intro.md" "index.md" Hcs Hss Hbs).
Defined.

(** X4. In [link_campaign.py] the anchor of a broken target is carried
    over to the suggestion found by file name: when the table has an entry
    neither for [path] nor for [path#anchor], the result for [path#anchor]
    is the result for [path], with [#anchor] appended to a suggestion
    (nothing is appended for an empty anchor).  The last component of
    [path] holds no hash sign and no line feed, and the anchor no slash, no
    hash sign and no line feed. *)
Theorem anchor_is_carried_over (ROOT_DIR cwd : string)
    (db : LinkCampaign.LinkDatabase) (path anchor source_file : string) :
  let name := default "" (last (PyStr.split "/" path)) in
  Normalised.has_char "#" name = false →
  Normalised.has_char "010" name = false →
  Normalised.has_char "/" anchor = false →
  Normalised.has_char "#" anchor = false →
  Normalised.has_char "010" anchor = false →
  LinkCampaign.custom_mappings db !! path = None →
  LinkCampaign.custom_mappings db !! (path +:+ "#" +:+ anchor) = None →
  LinkCampaign.find_best_match ROOT_DIR cwd db (path +:+ "#" +:+ anchor)
    source_file
  = match LinkCampaign.find_best_match ROOT_DIR cwd db path source_file with
    | Some (Some suggestion) =>
        Some (Some (LinkCampaign.with_anchor suggestion (Some anchor)))
    | other => other
    end.
Proof.
  intros name Hh Hl Ha1 Ha2 Ha3 Hm1 Hm2. unfold LinkCampaign.find_best_match.
  rewrite Hm1, Hm2. subst name.
  rewrite (target_and_anchor_anchored path anchor) by done.
  rewrite (target_and_anchor_plain path) by done.
  set (name := default "" (last (PyStr.split "/" path))).
  destruct (LinkCampaign.sorted_matches cwd (LinkCampaign.all_files db) name
              source_file) as [|[best_match d] rest]; [done|].
  destruct (PosixPath.relpath cwd (PosixPath.join ROOT_DIR best_match)
              (PosixPath.dirname (PosixPath.join ROOT_DIR source_file)));
    reflexivity.
Qed.

Lemma anchor_is_carried_over_witness :
  let db := LinkCampaign.init ∅ ["index.md"; "docs/new/old.md"] in
  let name := default "" (last (PyStr.split "/" "guide/old.md")) in
  (Normalised.has_char "#" name = false
   ∧ Normalised.has_char "010" name = false
   ∧ Normalised.has_char "/" "install" = false
   ∧ Normalised.has_char "#" "install" = false
   ∧ Normalised.has_char "010" "install" = false
   ∧ LinkCampaign.custom_mappings db !! "guide/old.md" = None
   ∧ LinkCampaign.custom_mappings db !! ("guide/old.md" +:+ "#" +:+ "install")
     = None)
  ∧ LinkCampaign.find_best_match "/repo" "/repo" db "guide/old.md" "index.md"
    = Some (Some "docs/new/old.md")
  ∧ LinkCampaign.find_best_match "/repo" "/repo" db
      ("guide/old.md" +:+ "#" +:+ "install") "index.md"
    = Some (Some "docs/new/old.md#install").
Proof.
  cbv zeta. split; [by split_and!|]. split; [vm_compute; reflexivity|].
  rewrite (anchor_is_carried_over "/repo" "/repo"
             (LinkCampaign.init ∅ ["index.md"; "docs/new/old.md"])
             "guide/old.md" "install" "index.md");
    vm_compute; reflexivity.
Defined.

(** X5. A target without a file name (it ends in a slash, or its last
    component is only an anchor) never gets a suggestion by file name from
    a normalised index, in either script: no path of such an index ends in
    a slash or has an empty name. *)
Theorem empty_file_name_gets_no_suggestion (ROOT_DIR cwd : string)
    (db : LinkCampaign.LinkDatabase) (broken_link source_file : string) :
  Normalised.normalised_index (LinkCampaign.all_files db) = true →
  LinkCampaign.custom_mappings db !! broken_link = None →
  ((LinkCampaign.target_and_anchor broken_link).1 = "" →
   LinkCampaign.find_best_match ROOT_DIR cwd db broken_link source_file
   = Some None)
  ∧ (PosixPath.basename broken_link = "" →
     SimpleLinkCampaign.find_best_match cwd (LinkCampaign.custom_mappings db)
       (LinkCampaign.all_files db) broken_link source_file = None).
Proof.
  intros Hidx Hm.
  assert (Forall (λ file,
            Normalised.is_name (PosixPath.basename file) = true
            ∧ PyStr.endswith file "/" = false) (LinkCampaign.all_files db))
    as Hnames.
  { apply Forall_forall. intros file Hin.
    apply relative_basename.
    by destruct (normalised_index_elem _ _ Hidx Hin). }
  split.
  - intros Ht. unfold LinkCampaign.find_best_match. rewrite Hm.
    destruct (LinkCampaign.target_and_anchor broken_link) as [t a].
    cbn [fst] in Ht. subst t.
    unfold LinkCampaign.sorted_matches, LinkCampaign.candidate_matches,
      LinkCampaign.filename_matches, LinkCampaign.basename_matches.
    rewrite !filter_none; [done| |].
    + eapply Forall_impl; [exact Hnames|]. intros file [Hn _].
      apply bool_decide_eq_false. intros ?%lower_empty.
      by rewrite H in Hn.
    + eapply Forall_impl; [exact Hnames|]. intros file [_ He].
      destruct (PyStr.endswith (PyStr.lower file) ("/" +:+ PyStr.lower ""))
        eqn:E; [|done].
      apply endswith_slash_lower in E. congruence.
  - intros Hb. unfold SimpleLinkCampaign.find_best_match. rewrite Hm, Hb.
    unfold SimpleLinkCampaign.exact_matches,
      SimpleLinkCampaign.case_insensitive_matches.
    rewrite !filter_none; [done| |].
    + eapply Forall_impl; [exact Hnames|]. intros file [Hn _].
      apply bool_decide_eq_false. intros ?%lower_empty.
      by rewrite H in Hn.
    + eapply Forall_impl; [exact Hnames|]. intros file [Hn _].
      apply bool_decide_eq_false. intros H. by rewrite H in Hn.
Qed.

Lemma empty_file_name_gets_no_suggestion_witness :
  let db := LinkCampaign.init ∅ ["index.md"; "docs/guide.md"] in
  Normalised.normalised_index (LinkCampaign.all_files db) = true
  ∧ LinkCampaign.custom_mappings db !! "guide/" = None
  ∧ (LinkCampaign.target_and_anchor "guide/").1 = ""
  ∧ PosixPath.basename "guide/" = ""
  ∧ LinkCampaign.find_best_match "/repo" "/repo" db "guide/" "index.md"
    = Some None
  ∧ SimpleLinkCampaign.find_best_match "/repo" (LinkCampaign.custom_mappings db)
      (LinkCampaign.all_files db) "guide/" "index.md" = None.
Proof.
  cbv zeta.
  pose proof (empty_file_name_gets_no_suggestion "/repo" "/repo"
                (LinkCampaign.init ∅ ["index.md"; "docs/guide.md"])
                "guide/" "index.md" eq_refl eq_refl) as [H1 H2].
  split_and!; [reflexivity..|exact (H1 eq_refl)|exact (H2 eq_refl)].
Defined.

(** X6. As soon as a file in a subdirectory has the name of the broken
    target (letter case ignored), [find_best_match] of [link_campaign.py]
    selects a file in a subdirectory: the first scan compares the end of
    each path with a slash followed by the name, so a file at the root of
    the repository is a candidate only when that scan finds nothing,
    however near it is. *)
Theorem first_scan_never_selects_a_file_of_the_root (ROOT_DIR cwd : string)
    (db : LinkCampaign.LinkDatabase)
    (broken_link source_file suggestion file : string) :
  let target_file := (LinkCampaign.target_and_anchor broken_link).1 in
  LinkCampaign.custom_mappings db !! broken_link = None →
  file ∈ LinkCampaign.all_files db →
  PyStr.endswith (PyStr.lower file) ("/" +:+ PyStr.lower target_file) = true →
  LinkCampaign.find_best_match ROOT_DIR cwd db broken_link source_file
    = Some (Some suggestion) →
  ∃ best_match d rest,
    LinkCampaign.sorted_matches cwd (LinkCampaign.all_files db) target_file
      source_file = (best_match, d) :: rest
    ∧ best_match ∈ LinkCampaign.all_files db
    ∧ Normalised.has_char "/" best_match = true
    ∧ PyStr.endswith (PyStr.lower best_match)
        ("/" +:+ PyStr.lower target_file) = true.
Proof.
  intros target_file Hm Hin Hend Hbest.
  destruct (find_best_match_by_name_inv _ _ _ _ _ _ Hm Hbest)
    as (best & d & rest & rel_path & Hsorted & _).
  fold target_file in Hsorted.
  exists best, d, rest. split; [done|].
  assert ((best, d) ∈ LinkCampaign.candidate_matches cwd
            (LinkCampaign.all_files db) target_file source_file) as Hc.
  { unfold LinkCampaign.sorted_matches in Hsorted.
    rewrite <- (sort_by_key_perm snd), Hsorted. by left. }
  unfold LinkCampaign.candidate_matches in Hc.
  destruct (LinkCampaign.filename_matches cwd (LinkCampaign.all_files db)
              target_file source_file) as [|m ms] eqn:Hf.
  { exfalso. unfold LinkCampaign.filename_matches in Hf.
    apply fmap_nil_inv in Hf.
    assert (file ∈ List.filter
              (λ file, PyStr.endswith (PyStr.lower file)
                         ("/" +:+ PyStr.lower target_file))
              (LinkCampaign.all_files db)) as Hfile.
    { apply list_elem_of_In, filter_In. split; [by apply list_elem_of_In|done]. }
    rewrite Hf in Hfile. by apply elem_of_nil in Hfile. }
  rewrite <- Hf in Hc. unfold LinkCampaign.filename_matches in Hc.
  apply list_elem_of_fmap in Hc as (best' & [= <- _] & Hb).
  apply list_elem_of_In, filter_In in Hb as [Hb1 Hb2].
  split_and!; [by apply list_elem_of_In| |done].
  apply has_char_slash_lower. eapply endswith_has_char.
  change ("/" +:+ PyStr.lower target_file)
    with (String "/" (PyStr.lower target_file)) in Hb2. exact Hb2.
Qed.

Lemma first_scan_never_selects_a_file_of_the_root_witness :
  let db := LinkCampaign.init ∅ ["index.md"; "setup.md"; "x/y/z/setup.md"] in
  let target_file := (LinkCampaign.target_and_anchor "docs/setup.md").1 in
  (LinkCampaign.custom_mappings db !! "docs/setup.md" = None
   ∧ "x/y/z/setup.md" ∈ LinkCampaign.all_files db
   ∧ PyStr.endswith (PyStr.lower "x/y/z/setup.md")
       ("/" +:+ PyStr.lower target_file) = true
   ∧ LinkCampaign.find_best_match "/repo" "/repo" db "docs/setup.md" "index.md"
     = Some (Some "x/y/z/setup.md"))
  ∧ LinkCampaign.distance "/repo" "index.md" "setup.md" = 1
  ∧ LinkCampaign.distance "/repo" "index.md" "x/y/z/setup.md" = 3
  ∧ ∃ best_match d rest,
      LinkCampaign.sorted_matches "/repo" (LinkCampaign.all_files db)
        target_file "index.md" = (best_match, d) :: rest
      ∧ best_match ∈ LinkCampaign.all_files db
      ∧ Normalised.has_char "/" best_match = true
      ∧ PyStr.endswith (PyStr.lower best_match)
          ("/" +:+ PyStr.lower target_file) = true.
Proof.
  cbv zeta.
  assert ("x/y/z/setup.md"
          ∈ LinkCampaign.all_files
              (LinkCampaign.init ∅ ["index.md"; "setup.md"; "x/y/z/setup.md"]))
    as Hin by (do 2 right; left).
  split; [split_and!; [reflexivity|exact Hin|reflexivity|]|];
    [vm_compute; reflexivity|].
  split; [vm_compute; reflexivity|]. split; [vm_compute; reflexivity|].
  apply (first_scan_never_selects_a_file_of_the_root "/repo" "/repo"
           (LinkCampaign.init ∅ ["index.md"; "setup.md"; "x/y/z/setup.md"])
           "docs/setup.md" "index.md" "x/y/z/setup.md" "x/y/z/setup.md");
    [reflexivity|exact Hin|reflexivity|vm_compute; reflexivity].
Defined.

(** X7. [find_best_match] of [simple_link_campaign.py] compares the whole
    last component of the target, anchor included, with the file names:
    for a target whose last component holds a hash sign it finds no file
    in an index without hash signs, and returns [None] unless the table
    has an entry for the target. *)
Theorem simple_script_finds_no_file_for_anchored_target (cwd : string)
    (mappings : gmap string string) (index : list string)
    (broken_link source_file : string) :
  hash_free_index index = true →
  mappings !! broken_link = None →
  Normalised.has_char "#" (PosixPath.basename broken_link) = true →
  SimpleLinkCampaign.find_best_match cwd mappings index broken_link
    source_file = None.
Proof. intros Hidx Hm Hh. by apply find_best_match_anchored. Qed.

Lemma simple_script_finds_no_file_for_anchored_target_witness :
  let index := ["index.md"; "docs/new/old.md"] in
  (hash_free_index index = true
   ∧ (∅ : gmap string string) !! "guide/old.md#install" = None
   ∧ Normalised.has_char "#" (PosixPath.basename "guide/old.md#install")
     = true)
  ∧ SimpleLinkCampaign.find_best_match "/repo" ∅ index "guide/old.md#install"
      "index.md" = None
  ∧ SimpleLinkCampaign.find_best_match "/repo" ∅ index "guide/old.md"
      "index.md" = Some "docs/new/old.md".
Proof.
  cbv zeta. split; [by split_and!|]. split; [|vm_compute; reflexivity].
  apply simple_script_finds_no_file_for_anchored_target; reflexivity.
Defined.

(** X8. Among its candidates [find_best_match] of
    [simple_link_campaign.py] selects the one that comes first in the
    iteration over the index among those that share the most leading
    directories with the document: every candidate before it shares
    strictly fewer, every candidate after it at most as many.  The
    suggestion is the relative path to it from the directory of the
    document, or its path in the index when [relpath] raises. *)
Theorem simple_selection_is_first_maximal (cwd : string)
    (mappings : gmap string string) (index : list string)
    (broken_link source_file suggestion : string) :
  mappings !! broken_link = None →
  SimpleLinkCampaign.find_best_match cwd mappings index broken_link
    source_file = Some suggestion →
  let filename := PosixPath.basename broken_link in
  let score :=
    SimpleLinkCampaign.similarity_score (PosixPath.dirname source_file) in
  ∃ best_match before after,
    match SimpleLinkCampaign.exact_matches index filename with
    | [] => SimpleLinkCampaign.case_insensitive_matches index filename
    | matches => matches
    end = before ++ best_match :: after
    ∧ Forall (λ c, score c < score best_match) before
    ∧ Forall (λ c, score c ≤ score best_match) after
    ∧ suggestion
      = default best_match
          (PosixPath.relpath cwd best_match (PosixPath.dirname source_file)).
Proof.
  intros Hm H filename score.
  unfold SimpleLinkCampaign.find_best_match in H. rewrite Hm in H.
  fold filename in H.
  set (matches := match SimpleLinkCampaign.exact_matches index filename with
                  | [] => SimpleLinkCampaign.case_insensitive_matches index
                            filename
                  | _ => SimpleLinkCampaign.exact_matches index filename
                  end) in *.
  assert (match SimpleLinkCampaign.exact_matches index filename with
          | [] => SimpleLinkCampaign.case_insensitive_matches index filename
          | m => m
          end = matches) as ->
    by (unfold matches;
        by destruct (SimpleLinkCampaign.exact_matches index filename)).
  destruct (PySort.sort_by_key_desc _ matches) as [|best rest] eqn:Hs;
    [done|].
  apply sort_by_key_desc_head in Hs as (pre & post & -> & Hpre & Hpost).
  exists best, pre, post. split_and!; try done.
  by destruct (PosixPath.relpath cwd best _); injection H as <-.
Qed.

Lemma simple_selection_is_first_maximal_witness :
  let index := ["a/config.md"; "docs/x/config.md"; "docs/y/config.md";
                "docs/index.md"] in
  let score := SimpleLinkCampaign.similarity_score "docs" in
  ((∅ : gmap string string) !! "old/config.md" = None
   ∧ SimpleLinkCampaign.find_best_match "/repo" ∅ index "old/config.md"
       "docs/index.md" = Some "x/config.md")
  ∧ ∃ best_match before after,
      match SimpleLinkCampaign.exact_matches index "config.md" with
      | [] => SimpleLinkCampaign.case_insensitive_matches index "config.md"
      | matches => matches
      end = before ++ best_match :: after
      ∧ Forall (λ c, score c < score best_match) before
      ∧ Forall (λ c, score c ≤ score best_match) after
      ∧ "x/config.md"
        = default best_match (PosixPath.relpath "/repo" best_match "docs").
Proof.
  cbv zeta.
  assert (SimpleLinkCampaign.find_best_match "/repo" ∅
            ["a/config.md"; "docs/x/config.md"; "docs/y/config.md";
             "docs/index.md"] "old/config.md" "docs/index.md"
          = Some "x/config.md") as Hbest by (vm_compute; reflexivity).
  split; [by split|].
  exact (simple_selection_is_first_maximal "/repo" ∅ _ "old/config.md"
           "docs/index.md" "x/config.md" eq_refl Hbest).
Defined.

(** X9. The score that ranks the candidates of [simple_link_campaign.py]
    is the number of leading directories that the directory of the
    candidate shares with the directory of the document; it is 1 for a
    document and a candidate that are both at the root, where the two
    empty directory names count as one shared component. *)
Theorem similarity_counts_shared_leading_directories
    (ss bs : list string) (b : string) :
  names ss → names (bs ++ [b]) →
  SimpleLinkCampaign.similarity_score (Normalised.rel_of ss)
    (Normalised.rel_of (bs ++ [b]))
  = match ss, bs with
    | [], [] => 1
    | _, _ => PosixPath.common_prefix_length ss bs
    end.
Proof.
  intros Hss [Hbs Hb]%Forall_app. inversion_clear Hb as [|?? Hb' _].
  unfold SimpleLinkCampaign.similarity_score.
  rewrite dirname_rel_of by (by apply names_comps || by apply is_name_comp).
  assert (∀ l, names l →
            PyStr.split PosixPath.sep (Normalised.rel_of l)
            = match l with [] => [""] | _ => l end) as Hsp.
  { intros l Hl. destruct l as [|x l]; [done|].
    unfold Normalised.rel_of, PosixPath.sep.
    rewrite (split_join "/"); [done|done|].
    eapply Forall_impl; [exact (names_comps _ Hl)|]. by intros ? [_ ?]. }
  rewrite !Hsp by done.
  destruct ss as [|s ss], bs as [|b' bs]; try done.
  - cbn [PosixPath.common_prefix_length].
    inversion_clear Hbs as [|?? Hb1 _].
    rewrite bool_decide_eq_false_2; [done|]. intros <-. done.
  - cbn [PosixPath.common_prefix_length].
    inversion_clear Hss as [|?? Hs1 _].
    rewrite bool_decide_eq_false_2; [done|]. intros ->. done.
Qed.

Lemma similarity_counts_shared_leading_directories_witness :
  (names ["docs"; "guide"] ∧ names (["docs"; "api"] ++ ["index.md"]))
  ∧ SimpleLinkCampaign.similarity_score "docs/guide" "docs/api/index.md" = 1
  ∧ SimpleLinkCampaign.similarity_score "" "index.md" = 1
  ∧ SimpleLinkCampaign.similarity_score "" "docs/index.md" = 0.
Proof.
  assert (names ["docs"; "guide"]) as Hss by (by repeat constructor).
  assert (names (["docs"; "api"] ++ ["index.md"])) as Hbs
    by (by repeat constructor).
  split; [done|]. split; [|split; vm_compute; reflexivity].
  exact (similarity_counts_shared_leading_directories
           ["docs"; "guide"] ["docs"; "api"] "index.md" Hss Hbs).
Defined.


(** ** The analysis: what is reported *)

Lemma foldlM_split {A B} (f : A → B → option A) a l1 x l2 r :
  foldlM f a (l1 ++ x :: l2) = Some r →
  ∃ a1 a2, foldlM f a l1 = Some a1 ∧ f a1 x = Some a2
           ∧ foldlM f a2 l2 = Some r.
Proof.
  rewrite foldlM_app. destruct (foldlM f a l1) as [a1|]; [|done].
  cbn [mbind option_bind foldlM].
  destruct (f a1 x) as [a2|] eqn:Hx; [|done]. cbn [mbind option_bind].
  intros H. by exists a1, a2.
Qed.

Section analysis_facts.
Import LinkCampaign.
Variables (ROOT_DIR cwd : string).

Lemma check_link_extracted fs source_file content db m db' :
  fs_read fs (PosixPath.join ROOT_DIR source_file) = Some content →
  m ∈ Re.findall content →
  Forall (extracted ROOT_DIR fs) (broken_links db) →
  check_link ROOT_DIR cwd fs source_file db m = Some db' →
  Forall (extracted ROOT_DIR fs) (broken_links db').
Proof.
  intros Hread Hm Hinv. destruct m as [text link]. unfold check_link.
  destruct (skipped link); [by intros [= <-]|].
  destruct (PyStr.truthy _); simpl; [|by intros [= <-]].
  destruct (PosixPath.relpath _ _ _); simpl; [|done].
  destruct (fs_exists _ _); simpl; [by intros [= <-]|].
  destruct (find_best_match _ _ _ _ _) as [best|]; simpl; [|done].
  intros [= <-]. cbn [add_broken broken_links].
  apply Forall_app. split; [done|]. constructor; [|done].
  by exists content.
Qed.

Lemma check_file_extracted fs db source_file db' :
  Forall (extracted ROOT_DIR fs) (broken_links db) →
  check_file ROOT_DIR cwd fs db source_file = Some db' →
  Forall (extracted ROOT_DIR fs) (broken_links db').
Proof.
  intros Hinv. unfold check_file.
  destruct (fs_exists _ _); simpl; [|by intros [= <-]].
  destruct (fs_read _ _) as [content|] eqn:Hread; simpl; [|done].
  intros H.
  eapply (foldlM_invariant _
            (λ db, Forall (extracted ROOT_DIR fs) (broken_links db)))
    in H; [done| |done].
  intros db1 m db2 Hm. by apply check_link_extracted with content.
Qed.

Lemma check_phase_extracted fs db index db' :
  Forall (extracted ROOT_DIR fs) (broken_links db) →
  foldlM (check_file ROOT_DIR cwd fs) db index = Some db' →
  Forall (extracted ROOT_DIR fs) (broken_links db').
Proof.
  intros Hinv H.
  eapply (foldlM_invariant _
            (λ db, Forall (extracted ROOT_DIR fs) (broken_links db)))
    in H; [done| |done].
  intros db1 k db2 _. by apply check_file_extracted.
Qed.

Lemma grows_refl db : grows db db.
Proof. done. Qed.

Lemma grows_trans db1 db2 db3 : grows db1 db2 → grows db2 db3 → grows db1 db3.
Proof.
  intros (? & ? & H1) (? & ? & H2). split_and!; [congruence..|auto].
Qed.

Lemma check_link_grows fs source_file db m db' :
  check_link ROOT_DIR cwd fs source_file db m = Some db' → grows db db'.
Proof.
  destruct m as [text link]. unfold check_link.
  destruct (skipped link); [by intros [= <-]|].
  destruct (PyStr.truthy _); simpl; [|by intros [= <-]].
  destruct (PosixPath.relpath _ _ _); simpl; [|done].
  destruct (fs_exists _ _); simpl; [by intros [= <-]|].
  destruct (find_best_match _ _ _ _ _) as [best|]; simpl; [|done].
  intros [= <-]. split_and!; [done..|].
  intros li Hli. cbn [add_broken broken_links]. apply elem_of_app. by left.
Qed.

Lemma check_links_loop_grows fs source_file l db db' :
  foldlM (check_link ROOT_DIR cwd fs source_file) db l = Some db' →
  grows db db'.
Proof.
  intros H.
  eapply (foldlM_invariant _ (grows db)) in H; [done| |apply grows_refl].
  intros db1 m db2 _ H1 H2. eapply grows_trans; [done|].
  by eapply check_link_grows.
Qed.

Lemma check_file_grows fs db source_file db' :
  check_file ROOT_DIR cwd fs db source_file = Some db' → grows db db'.
Proof.
  unfold check_file.
  destruct (fs_exists _ _); simpl; [|by intros [= <-]].
  destruct (fs_read _ _) as [content|]; simpl; [|done].
  intros H%check_links_loop_grows. done.
Qed.

Lemma check_phase_grows fs l db db' :
  foldlM (check_file ROOT_DIR cwd fs) db l = Some db' → grows db db'.
Proof.
  intros H.
  eapply (foldlM_invariant _ (grows db)) in H; [done| |apply grows_refl].
  intros db1 m db2 _ H1 H2. eapply grows_trans; [done|].
  by eapply check_file_grows.
Qed.

Lemma check_link_reports fs source_file db text link db' :
  skipped link = false →
  PyStr.truthy (default "" (head (PyStr.split "#" link))) = true →
  fs_exists fs
    (link_target ROOT_DIR source_file
       (default "" (head (PyStr.split "#" link)))) = false →
  check_link ROOT_DIR cwd fs source_file db (text, link) = Some db' →
  ∃ suggestion,
    find_best_match ROOT_DIR cwd db link source_file = Some suggestion
    ∧ LinkInfo source_file text link suggestion ∈ broken_links db'.
Proof.
  intros Hskip Hpath Hex. unfold check_link. rewrite Hskip, Hpath.
  cbn [negb].
  destruct (PosixPath.relpath _ _ _); simpl; [|done].
  rewrite Hex. cbn [negb].
  destruct (find_best_match _ _ _ _ _) as [best|]; simpl; [|done].
  intros [= <-]. exists best. split; [done|].
  cbn [add_broken broken_links]. apply elem_of_app. right. by left.
Qed.

(** The two phases of [check_links]. *)
Lemma check_links_phases mappings index fs dry_run db' fs' :
  check_links ROOT_DIR cwd (init mappings index) fs dry_run = Some (db', fs') →
  ∃ db1,
    foldlM (check_file ROOT_DIR cwd fs) (init mappings index) index = Some db1
    ∧ db' = set_results db1 (fixed_links db') (manual_review db')
    ∧ (dry_run = true → db' = db1 ∧ fs' = fs).
Proof.
  unfold check_links. cbn [all_files init].
  destruct (foldlM _ _ _) as [db1|] eqn:Hcheck; [|done].
  cbn [mbind option_bind]. destruct dry_run; cbn [negb].
  - intros [= <- <-]. exists db1. split_and!; [done| |done]. by destruct db1.
  - intros Hfix. exists db1. split_and!; [done| |done].
    unfold fix_links in Hfix.
    apply fix_groups_spec in Hfix as (nf & nm & w & -> & _);
      [|apply links_by_file_spec].
    done.
Qed.

End analysis_facts.

(** X10. Every entry that [check_links] reports comes from a document of
    the index that was read, where the link pattern extracts its text and
    target; the target is not one of those passed over, its path part is
    not empty and names no existing path when resolved from the directory
    of the document; and the suggestion recorded is what [find_best_match]
    returns for the target.  This holds in both modes, of the file system
    as it was before the run. *)
Theorem reported_links_are_broken (ROOT_DIR cwd : string)
    (mappings : gmap string string) (index : list string) (fs fs' : filesystem)
    (dry_run : bool) (db' : LinkCampaign.LinkDatabase)
    (li : LinkCampaign.link_info) :
  LinkCampaign.check_links ROOT_DIR cwd (LinkCampaign.init mappings index)
    fs dry_run = Some (db', fs') →
  li ∈ LinkCampaign.broken_links db' →
  let link_path :=
    default "" (head (PyStr.split "#" (LinkCampaign.link li))) in
  LinkCampaign.source li ∈ index
  ∧ (∃ content,
       fs_read fs (PosixPath.join ROOT_DIR (LinkCampaign.source li))
         = Some content
       ∧ (LinkCampaign.text li, LinkCampaign.link li) ∈ Re.findall content)
  ∧ LinkCampaign.skipped (LinkCampaign.link li) = false
  ∧ link_path ≠ ""
  ∧ fs_exists fs
      (LinkCampaign.link_target ROOT_DIR (LinkCampaign.source li) link_path)
    = false
  ∧ LinkCampaign.find_best_match ROOT_DIR cwd
      (LinkCampaign.init mappings index) (LinkCampaign.link li)
      (LinkCampaign.source li)
    = Some (LinkCampaign.suggested_fix li).
Proof.
  intros Hrun Hli link_path.
  apply check_links_phases in Hrun as (db1 & Hcheck & Hdb' & _).
  assert (li ∈ LinkCampaign.broken_links db1) as Hli1
    by (by rewrite Hdb' in Hli).
  pose proof (check_phase_analysed _ _ _ _ _ _ Hcheck)
    as (_ & _ & _ & _ & _ & Hrep).
  destruct (Hrep li Hli1) as (_ & Hsrc & Hskip & Hpath & Hex & Hbest).
  pose proof (check_phase_extracted ROOT_DIR cwd fs
                (LinkCampaign.init mappings index) index db1
                (Forall_nil_2 _) Hcheck) as Hext.
  rewrite Forall_forall in Hext.
  split_and!; try done.
  - by apply Hext.
  - unfold PyStr.truthy in Hpath.
    by apply negb_true_iff, bool_decide_eq_false in Hpath.
Qed.

Lemma reported_links_are_broken_witness :
  let li := LinkCampaign.LinkInfo "index.md" "gone" "nowhere.md" None in
  let link_path := default "" (head (PyStr.split "#" "nowhere.md")) in
  ∃ db' fs',
    (LinkCampaign.check_links "/repo" "/repo"
       (LinkCampaign.init ∅ ["index.md"; "sub/x.md"]) fs_two_broken_links
       false = Some (db', fs')
     ∧ li ∈ LinkCampaign.broken_links db')
    ∧ "index.md" ∈ ["index.md"; "sub/x.md"]
    ∧ (∃ content,
         fs_read fs_two_broken_links (PosixPath.join "/repo" "index.md")
           = Some content
         ∧ ("gone", "nowhere.md") ∈ Re.findall content)
    ∧ LinkCampaign.skipped "nowhere.md" = false
    ∧ link_path ≠ ""
    ∧ fs_exists fs_two_broken_links
        (LinkCampaign.link_target "/repo" "index.md" link_path) = false
    ∧ LinkCampaign.find_best_match "/repo" "/repo"
        (LinkCampaign.init ∅ ["index.md"; "sub/x.md"]) "nowhere.md" "index.md"
      = Some None.
Proof.
  cbv zeta.
  destruct (LinkCampaign.check_links "/repo" "/repo"
              (LinkCampaign.init ∅ ["index.md"; "sub/x.md"])
              fs_two_broken_links false) as [[db' fs']|] eqn:Hrun;
    [|by vm_compute in Hrun].
  assert (LinkCampaign.LinkInfo "index.md" "gone" "nowhere.md" None
          ∈ LinkCampaign.broken_links db') as Hli.
  { vm_compute in Hrun. injection Hrun as <- _. cbn. right. left. }
  exists db', fs'. split; [by split|].
  exact (reported_links_are_broken "/repo" "/repo" ∅ ["index.md"; "sub/x.md"]
           fs_two_broken_links fs' false db' _ Hrun Hli).
Defined.

(** X11. Conversely the analysis misses no broken link: for every document
    of the index that can be read and every pair extracted from it whose
    target is not passed over, has a path part that is not empty and names
    no existing path, [broken_links] holds the entry of that document,
    text and target, with the suggestion of [find_best_match]. *)
Theorem broken_links_are_reported (ROOT_DIR cwd : string)
    (mappings : gmap string string) (index : list string) (fs fs' : filesystem)
    (dry_run : bool) (db' : LinkCampaign.LinkDatabase)
    (source_file content text link : string) :
  LinkCampaign.check_links ROOT_DIR cwd (LinkCampaign.init mappings index)
    fs dry_run = Some (db', fs') →
  source_file ∈ index →
  fs_read fs (PosixPath.join ROOT_DIR source_file) = Some content →
  (text, link) ∈ Re.findall content →
  LinkCampaign.skipped link = false →
  let link_path := default "" (head (PyStr.split "#" link)) in
  link_path ≠ "" →
  fs_exists fs (LinkCampaign.link_target ROOT_DIR source_file link_path)
    = false →
  ∃ suggestion,
    LinkCampaign.find_best_match ROOT_DIR cwd
      (LinkCampaign.init mappings index) link source_file = Some suggestion
    ∧ LinkCampaign.LinkInfo source_file text link suggestion
      ∈ LinkCampaign.broken_links db'.
Proof.
  intros Hrun Hsrc Hread Hm Hskip link_path Hpath Hex.
  apply check_links_phases in Hrun as (db1 & Hcheck & Hdb' & _).
  apply list_elem_of_split in Hsrc as (i1 & i2 & ->).
  apply foldlM_split in Hcheck as (dba & dbb & Ha & Hfile & Hb).
  apply check_phase_grows in Ha as (Hfa & Hma & _).
  apply check_phase_grows in Hb as (_ & _ & Hgb).
  unfold LinkCampaign.check_file in Hfile.
  assert (fs_exists fs (PosixPath.join ROOT_DIR source_file) = true) as Hexs.
  { unfold fs_exists. unfold fs_read in Hread. rewrite Hread.
    by rewrite bool_decide_eq_true_2. }
  rewrite Hexs, Hread in Hfile. cbn [negb mbind option_bind] in Hfile.
  apply list_elem_of_split in Hm as (l1 & l2 & Hl). rewrite Hl in Hfile.
  apply foldlM_split in Hfile as (dbc & dbd & Hc & Hlink & Hd).
  apply check_links_loop_grows in Hc as (Hfc & Hmc & _).
  apply check_links_loop_grows in Hd as (_ & _ & Hgd).
  apply check_link_reports in Hlink as (suggestion & Hbest & Hin);
    [|done| |done].
  - exists suggestion. split.
    + rewrite <- Hbest. apply find_best_match_mappings_frame.
      * rewrite Hfc. cbn. by rewrite Hfa.
      * rewrite Hmc. cbn. by rewrite Hma.
    + rewrite Hdb'. cbn. auto.
  - unfold PyStr.truthy. apply negb_true_iff. by apply bool_decide_eq_false.
Qed.

Lemma broken_links_are_reported_witness :
  let link_path := default "" (head (PyStr.split "#" "x.md")) in
  ∃ db' fs',
    (LinkCampaign.check_links "/repo" "/repo"
       (LinkCampaign.init ∅ ["index.md"; "sub/x.md"]) fs_two_broken_links
       true = Some (db', fs')
     ∧ "index.md" ∈ ["index.md"; "sub/x.md"]
     ∧ fs_read fs_two_broken_links (PosixPath.join "/repo" "index.md")
       = Some "[a](x.md) and [gone](nowhere.md)"
     ∧ ("a", "x.md") ∈ Re.findall "[a](x.md) and [gone](nowhere.md)"
     ∧ LinkCampaign.skipped "x.md" = false
     ∧ link_path ≠ ""
     ∧ fs_exists fs_two_broken_links
         (LinkCampaign.link_target "/repo" "index.md" link_path) = false)
    ∧ ∃ suggestion,
        LinkCampaign.find_best_match "/repo" "/repo"
          (LinkCampaign.init ∅ ["index.md"; "sub/x.md"]) "x.md" "index.md"
        = Some suggestion
        ∧ LinkCampaign.LinkInfo "index.md" "a" "x.md" suggestion
          ∈ LinkCampaign.broken_links db'.
Proof.
  cbv zeta.
  destruct (LinkCampaign.check_links "/repo" "/repo"
              (LinkCampaign.init ∅ ["index.md"; "sub/x.md"])
              fs_two_broken_links true) as [[db' fs']|] eqn:Hrun;
    [|by vm_compute in Hrun].
  assert ("index.md" ∈ ["index.md"; "sub/x.md"]) as Hsrc by left.
  assert (("a", "x.md") ∈ Re.findall "[a](x.md) and [gone](nowhere.md)")
    as Hm by (vm_compute; left).
  assert (default "" (head (PyStr.split "#" "x.md")) ≠ "") as Hpath by done.
  exists db', fs'. split; [by split_and!|].
  exact (broken_links_are_reported "/repo" "/repo" ∅ ["index.md"; "sub/x.md"]
           fs_two_broken_links fs' true db' "index.md" _ "a" "x.md"
           Hrun Hsrc eq_refl Hm eq_refl Hpath eq_refl).
Defined.

(** X12. A run of [check_links], in either mode, changes neither the
    index nor the table of mappings (no entry is learnt from a fix), and
    neither creates nor removes a path.  In a dry run the file system is
    the same afterwards, and [fixed_links] and [manual_review] stay
    empty. *)
Theorem run_changes_neither_index_nor_table (ROOT_DIR cwd : string)
    (mappings : gmap string string) (index : list string) (fs fs' : filesystem)
    (dry_run : bool) (db' : LinkCampaign.LinkDatabase) :
  LinkCampaign.check_links ROOT_DIR cwd (LinkCampaign.init mappings index)
    fs dry_run = Some (db', fs') →
  LinkCampaign.all_files db' = index
  ∧ LinkCampaign.custom_mappings db' = mappings
  ∧ (∀ p, fs_exists fs' p = fs_exists fs p)
  ∧ (dry_run = true →
     fs' = fs ∧ LinkCampaign.fixed_links db' = []
     ∧ LinkCampaign.manual_review db' = []).
Proof.
  intros Hrun.
  pose proof Hrun as (db1 & Hcheck & Hdb' & Hdry)%check_links_phases.
  pose proof (check_phase_analysed _ _ _ _ _ _ Hcheck)
    as (Hf & Hm & Hfx & Hmr & _ & _).
  split_and!.
  - rewrite Hdb'. cbn. by rewrite Hf.
  - rewrite Hdb'. cbn. by rewrite Hm.
  - destruct dry_run.
    + destruct (Hdry eq_refl) as [_ ->]. done.
    + destruct (apply_run_spec ROOT_DIR cwd _ _ _ _ Hcheck)
        as (db2 & fs2 & written & Hrun2 & _ & _ & _ & _ & Hsame).
      rewrite Hrun in Hrun2. by injection Hrun2 as -> ->.
  - intros Hd. destruct (Hdry Hd) as [-> ->]. by rewrite Hfx, Hmr.
Qed.

Lemma run_changes_neither_index_nor_table_witness :
  let mappings : gmap string string := {[ "nowhere.md" := "sub/x.md" ]} in
  ∃ db' fs',
    LinkCampaign.check_links "/repo" "/repo"
      (LinkCampaign.init mappings ["index.md"; "sub/x.md"])
      fs_two_broken_links false = Some (db', fs')
    ∧ LinkCampaign.all_files db' = ["index.md"; "sub/x.md"]
    ∧ LinkCampaign.custom_mappings db' = mappings
    ∧ (∀ p, fs_exists fs' p = fs_exists fs_two_broken_links p)
    ∧ (false = true →
       fs' = fs_two_broken_links ∧ LinkCampaign.fixed_links db' = []
       ∧ LinkCampaign.manual_review db' = []).
Proof.
  cbv zeta.
  destruct (LinkCampaign.check_links "/repo" "/repo"
              (LinkCampaign.init {[ "nowhere.md" := "sub/x.md" ]}
                 ["index.md"; "sub/x.md"])
              fs_two_broken_links false) as [[db' fs']|] eqn:Hrun;
    [|by vm_compute in Hrun].
  exists db', fs'. split; [reflexivity|].
  exact (run_changes_neither_index_nor_table "/repo" "/repo" _ _ _ _ _ _ Hrun).
Defined.


(** ** The documents written by a run in apply mode *)

Section write_once_facts.
Import PyStr PosixPath LinkCampaign.
Variables (ROOT_DIR cwd : string).

Lemma app_inj_l (x a b : string) : x +:+ a = x +:+ b → a = b.
Proof.
  induction x as [|c x IH]; [done|]. rewrite !app_cons. intros [= H]. auto.
Qed.

Lemma join_inj a b1 b2 :
  startswith b1 "/" = false → startswith b2 "/" = false →
  join a b1 = join a b2 → b1 = b2.
Proof.
  intros H1 H2. unfold join. rewrite H1, H2.
  destruct (_ || _).
  - apply app_inj_l.
  - intros H%app_inj_l. by apply (app_inj_l "/") in H.
Qed.

Lemma group_insert_keys li groups k :
  k ∈ (fst <$> group_insert li groups) →
  k ∈ (fst <$> groups) ∨ k = source li.
Proof.
  induction groups as [|[k' lis] groups IH]; cbn [group_insert].
  - intros ->%list_elem_of_singleton. by right.
  - case_bool_decide as Hk.
    + cbn [fmap list_fmap fst]. by left.
    + cbn [fmap list_fmap fst]. intros [->|Hin]%elem_of_cons.
      * left. by left.
      * destruct (IH Hin) as [?|?]; [|by right]. left. by right.
Qed.

Lemma group_insert_NoDup li groups :
  NoDup (fst <$> groups) → NoDup (fst <$> group_insert li groups).
Proof.
  induction groups as [|[k' lis] groups IH]; cbn [group_insert].
  - intros _. cbn. apply NoDup_singleton.
  - cbn [fmap list_fmap fst]. intros [Hk' Hnd]%NoDup_cons.
    case_bool_decide as Hk; cbn [fmap list_fmap fst].
    + by constructor.
    + constructor; [|by apply IH].
      intros [?|?]%group_insert_keys; [done|]. by subst.
Qed.

Lemma links_by_file_NoDup broken : NoDup (fst <$> links_by_file broken).
Proof.
  unfold links_by_file.
  assert (∀ groups, NoDup (fst <$> groups) →
            NoDup (fst <$> foldl (λ groups li, group_insert li groups)
                                 groups broken)) as H.
  { induction broken as [|li broken IH]; intros groups Hg; [done|].
    cbn [foldl]. by apply IH, group_insert_NoDup. }
  apply H. constructor.
Qed.

Lemma fix_groups_written groups db fs db' fs' :
  foldlM (fix_file ROOT_DIR) (db, fs) groups = Some (db', fs') →
  ∃ written,
    writes fs' = writes fs ++ written
    ∧ written `sublist_of` (join ROOT_DIR <$> (fst <$> groups)).
Proof.
  revert db fs. induction groups as [|[k lis] groups IH]; intros db fs.
  - intros [= <- <-]. exists []. by rewrite app_nil_r.
  - cbn [foldlM].
    destruct (fix_file ROOT_DIR (db, fs) (k, lis)) as [[db1 fs1]|] eqn:Hstep;
      [|done].
    cbn [mbind option_bind]. intros Hrest.
    apply fix_file_spec in Hstep
      as (content & content' & nf & nm & _ & _ & _ & _ & ->).
    destruct (IH _ _ Hrest) as (written & Hw & Hsub).
    cbn [fmap list_fmap fst]. case_bool_decide.
    + exists (join ROOT_DIR k :: written). cbn [fs_write writes] in Hw.
      rewrite Hw, <- app_assoc. split; [done|]. by constructor.
    + exists written. split; [done|]. by constructor.
Qed.

End write_once_facts.

(** X13. In a run in apply mode over an index of relative paths every
    document is written at most once, and only documents of the index are
    written: the broken links are grouped by document before any of them
    is fixed. *)
Theorem documents_are_written_at_most_once (ROOT_DIR cwd : string)
    (mappings : gmap string string) (index : list string) (fs fs' : filesystem)
    (db' : LinkCampaign.LinkDatabase) :
  LinkCampaign.check_links ROOT_DIR cwd (LinkCampaign.init mappings index)
    fs false = Some (db', fs') →
  Forall (λ file, PyStr.startswith file "/" = false) index →
  ∃ written,
    writes fs' = writes fs ++ written
    ∧ NoDup written
    ∧ ∀ p, p ∈ written →
           ∃ file, file ∈ index ∧ p = PosixPath.join ROOT_DIR file.
Proof.
  intros Hrun Hidx. unfold LinkCampaign.check_links in Hrun.
  cbn [LinkCampaign.all_files LinkCampaign.init] in Hrun.
  destruct (foldlM _ _ _) as [db1|] eqn:Hcheck; [|done].
  cbn [mbind option_bind negb] in Hrun. unfold LinkCampaign.fix_links in Hrun.
  apply check_phase_analysed in Hcheck as (_ & _ & _ & _ & _ & Hbr).
  destruct (links_by_file_spec (LinkCampaign.broken_links db1)) as [Hg Hperm].
  destruct (fix_groups_written _ _ _ _ _ _ Hrun) as (written & Hw & Hsub).
  assert (∀ k, k ∈ (fst <$> LinkCampaign.links_by_file
                              (LinkCampaign.broken_links db1)) → k ∈ index)
    as Hkeys.
  { intros k ([k' lis] & -> & Hin)%list_elem_of_fmap. cbn [fst].
    destruct (Hg k' lis Hin) as [Hne Hsrc].
    destruct lis as [|li lis]; [done|].
    rewrite <- (Hsrc li) by by left.
    assert (li ∈ LinkCampaign.broken_links db1) as Hli.
    { rewrite <- Hperm. apply list_elem_of_In, in_concat.
      exists (li :: lis). split; [|by left].
      apply list_elem_of_In, list_elem_of_fmap. by exists (k', li :: lis). }
    by destruct (Hbr li Hli) as (_ & ? & _). }
  exists written. split; [done|]. split.
  - eapply sublist_NoDup; [|exact Hsub].
    apply NoDup_fmap_2_strong; [|apply links_by_file_NoDup].
    intros k1 k2 H1%Hkeys H2%Hkeys. rewrite Forall_forall in Hidx.
    apply join_inj; by apply Hidx.
  - intros p Hp.
    assert (p ∈ PosixPath.join ROOT_DIR
                <$> (fst <$> LinkCampaign.links_by_file
                               (LinkCampaign.broken_links db1)))
      as (k & -> & Hk)%list_elem_of_fmap.
    { eapply sublist_submseteq, submseteq_Permutation in Hsub
        as (rest & Hsub).
      rewrite Hsub. apply elem_of_app. by left. }
    exists k. split; [by apply Hkeys|done].
Qed.

Lemma documents_are_written_at_most_once_witness :
  let fs :=
    FileSystem
      {[ "/repo/index.md" := "[a](x.md), [b](x.md) and [c](y.md)";
         "/repo/notes.md" := "[a](x.md)";
         "/repo/sub/x.md" := "x"; "/repo/sub/y.md" := "y" ]} ∅ [] in
  let index := ["index.md"; "notes.md"; "sub/x.md"; "sub/y.md"] in
  ∃ db' fs',
    (LinkCampaign.check_links "/repo" "/repo" (LinkCampaign.init ∅ index)
       fs false = Some (db', fs')
     ∧ Forall (λ file, PyStr.startswith file "/" = false) index)
    ∧ length (LinkCampaign.fixed_links db') = 4
    ∧ ∃ written,
        writes fs' = writes fs ++ written
        ∧ NoDup written
        ∧ ∀ p, p ∈ written →
               ∃ file, file ∈ index ∧ p = PosixPath.join "/repo" file.
Proof.
  cbv zeta.
  destruct (LinkCampaign.check_links "/repo" "/repo"
              (LinkCampaign.init ∅
                 ["index.md"; "notes.md"; "sub/x.md"; "sub/y.md"])
              (FileSystem
                 {[ "/repo/index.md" := "[a](x.md), [b](x.md) and [c](y.md)";
                    "/repo/notes.md" := "[a](x.md)";
                    "/repo/sub/x.md" := "x"; "/repo/sub/y.md" := "y" ]} ∅ [])
              false)
    as [[db' fs']|] eqn:Hrun; [|by vm_compute in Hrun].
  assert (Forall (λ file, PyStr.startswith file "/" = false)
            ["index.md"; "notes.md"; "sub/x.md"; "sub/y.md"]) as Hidx
    by (by repeat constructor).
  exists db', fs'. split; [by split|]. split.
  - vm_compute in Hrun. by injection Hrun as <- _.
  - exact (documents_are_written_at_most_once "/repo" "/repo" _ _ _ _ _
             Hrun Hidx).
Defined.


(** ** The rewriter, link by link *)

Section filter_facts.
Context {A : Type} (P : A → bool).



End filter_facts.

Section group_facts.
Import LinkCampaign.




End group_facts.

Section turn_facts.
Import PyStr PosixPath LinkCampaign.
Variables (ROOT_DIR cwd : string).











End turn_facts.



(** In the run on the document that repeats one broken link the first
    entry is fixed and the second, whose syntax is no longer in the
    content, goes to manual review. *)
Example repeated_link_second_entry_demoted :
  let fs :=
    FileSystem
      {[ "/repo/index.md" := "[a](x.md) and again [a](x.md)";
         "/repo/sub/x.md" := "x" ]} ∅ [] in
  let entry := LinkCampaign.LinkInfo "index.md" "a" "x.md" (Some "sub/x.md") in
  (λ r, (LinkCampaign.fixed_links r.1, LinkCampaign.manual_review r.1,
         files r.2 !! "/repo/index.md")) <$>
    LinkCampaign.check_links "/repo" "/repo"
      (LinkCampaign.init ∅ ["index.md"; "sub/x.md"]) fs false
  = Some ([entry], [entry], Some "[a](sub/x.md) and again [a](sub/x.md)").
Proof. by vm_compute. Qed.

(** ** A second analysis after the fixes *)

Section applied_facts.
Import PyStr PosixPath LinkCampaign.
Variables (ROOT_DIR cwd : string).



End applied_facts.



(** A file name with a closing parenthesis: the suggestion found by file
    name is written into the document, and the pattern reads it back only
    up to the parenthesis, so that the second analysis reports the link
    that the run has just written. *)
Example parenthesis_in_suggestion_read_back_truncated :
  let fs :=
    FileSystem
      {[ "/repo/index.md" := "see [t](x.md)";
         "/repo/docs(old)/x.md" := "x" ]} ∅ [] in
  let index := ["index.md"; "docs(old)/x.md"] in
  ∃ db1 fs1 db2,
    LinkCampaign.check_links "/repo" "/repo" (LinkCampaign.init ∅ index)
      fs false = Some (db1, fs1)
    ∧ LinkCampaign.fixed_links db1
      = [LinkCampaign.LinkInfo "index.md" "t" "x.md" (Some "docs(old)/x.md")]
    ∧ files fs1 !! "/repo/index.md" = Some "see [t](docs(old)/x.md)"
    ∧ LinkCampaign.check_links "/repo" "/repo" (LinkCampaign.init ∅ index)
        fs1 true = Some (db2, fs1)
    ∧ LinkCampaign.broken_links db2
      = [LinkCampaign.LinkInfo "index.md" "t" "docs(old" None].
Proof.
  intros fs index.
  destruct (LinkCampaign.check_links "/repo" "/repo"
              (LinkCampaign.init ∅ index) fs false)
    as [[db1 fs1]|] eqn:H1; [|by vm_compute in H1].
  destruct (LinkCampaign.check_links "/repo" "/repo"
              (LinkCampaign.init ∅ index) fs1 true)
    as [[db2 fs2]|] eqn:H2.
  2: { vm_compute in H1. injection H1 as <- <-. by vm_compute in H2. }
  exists db1, fs1, db2.
  vm_compute in H1. injection H1 as <- <-.
  vm_compute in H2. injection H2 as <- <-.
  split; [done|]. split; [done|]. split; [by vm_compute|].
  split; [by vm_compute|done].
Qed.

(** ** The walk of the directory tree *)

Section walk_facts.
Import PyStr PosixPath Normalised OsWalk.

(** Induction on a directory, with the property of every subdirectory. *)
Lemma directory_induction (P : directory → Prop) :
  (∀ files subdirs,
     Forall (λ entry, P entry.2) subdirs → P (Directory files subdirs)) →
  ∀ d, P d.
Proof.
  intros H. fix IH 1. intros [files subdirs]. apply H.
  induction subdirs as [|[name child] subdirs IHs]; constructor.
  - apply IH.
  - apply IHs.
Qed.

Lemma walk_elem keep top d root files :
  (root, files) ∈ walk keep top d ↔
  ∃ dirs sub,
    dir_at d dirs sub ∧ Forall (λ name, keep name = true) dirs
    ∧ root = foldl join top dirs ∧ files = dir_files sub.
Proof.
  split.
  - revert top. induction d as [fs subdirs IH] using directory_induction.
    intros top. cbn [walk].
    intros [[= -> ->]|Hin]%elem_of_cons.
    + by exists [], (Directory fs subdirs).
    + apply list_elem_of_In, in_flat_map in Hin as ([name child] & Hc & Hin).
      apply list_elem_of_In in Hc, Hin. cbn [fst snd] in Hin.
      destruct (keep name) eqn:Hkeep; [|by apply elem_of_nil in Hin].
      rewrite Forall_forall in IH.
      destruct (IH _ Hc _ Hin) as (dirs & sub & Hat & Hk & -> & ->).
      exists (name :: dirs), sub. split_and!; [|by constructor|done..].
      by exists child.
  - intros (dirs & sub & Hat & Hk & -> & ->).
    revert d top Hat Hk. induction dirs as [|name dirs IH]; intros d top.
    + cbn [dir_at]. intros -> _. destruct d. cbn [walk]. by left.
    + cbn [dir_at]. intros (child & Hc & Hat) [Hname Hk]%Forall_cons.
      destruct d as [fs subdirs]. cbn [walk dir_subdirs] in *. right.
      apply list_elem_of_In, in_flat_map. exists (name, child).
      split; [by apply list_elem_of_In|]. cbn [fst snd]. rewrite Hname.
      apply list_elem_of_In. cbn [foldl]. by apply IH.
Qed.

Lemma names_ok_dir_at ok d dirs sub :
  names_ok ok d = true → dir_at d dirs sub →
  Forall (λ name, ok name = true) dirs ∧ names_ok ok sub = true.
Proof.
  revert d. induction dirs as [|name dirs IH]; intros d Hd.
  - cbn [dir_at]. by intros ->.
  - cbn [dir_at]. intros (child & Hc & Hat).
    destruct d as [fs subdirs]. cbn [names_ok dir_subdirs] in *.
    apply andb_true_iff in Hd as [_ Hd]. rewrite forallb_forall in Hd.
    specialize (Hd _ (proj1 (list_elem_of_In _ _) Hc)).
    cbn [fst snd] in Hd. apply andb_true_iff in Hd as [Hname Hchild].
    destruct (IH _ Hchild Hat) as [Hdirs Hsub]. split; [|done].
    by constructor.
Qed.

Lemma names_ok_file_at ok d dirs name :
  names_ok ok d = true → file_at d dirs name →
  Forall (λ name, ok name = true) (dirs ++ [name]).
Proof.
  intros Hd (sub & Hat & Hin).
  destruct (names_ok_dir_at _ _ _ _ Hd Hat) as [Hdirs Hsub].
  apply Forall_app. split; [done|]. constructor; [|done].
  destruct sub as [fs subdirs]. cbn [names_ok dir_files] in *.
  apply andb_true_iff in Hsub as [Hfs _]. rewrite forallb_forall in Hfs.
  by apply Hfs, list_elem_of_In.
Qed.

Lemma foldl_join_abs_of base dirs :
  names base → names dirs →
  foldl join (abs_of base) dirs = abs_of (base ++ dirs).
Proof.
  intros Hbase Hdirs. revert base Hbase.
  induction Hdirs as [|name dirs Hname _ IH]; intros base Hbase.
  - by rewrite app_nil_r.
  - cbn [foldl]. change name with (rel_of [name]) at 1.
    rewrite join_abs_rel;
      [|by apply names_comps|by constructor; [apply is_name_comp|]|done].
    rewrite IH by (apply Forall_app; split; [done|by constructor]).
    by rewrite <- app_assoc.
Qed.

Lemma relpath_below cwd base l :
  names base → names l → l ≠ [] →
  relpath cwd (abs_of (base ++ l)) (abs_of base) = Some (rel_of l).
Proof.
  intros Hbase Hl Hne.
  rewrite relpath_abs_of by (done || by apply Forall_app).
  rewrite <- (app_nil_r base) at 1. rewrite rel_list_app.
  unfold rel_list. cbn [common_prefix_length length replicate drop app Nat.sub].
  by destruct l.
Qed.

Lemma relative_rel_of l : names l → l ≠ [] → relative (rel_of l) = true.
Proof.
  intros Hl Hne. unfold relative, rel_of.
  rewrite (split_join "/"); [|done|].
  - apply forallb_forall. intros x Hx%list_elem_of_In.
    rewrite Forall_forall in Hl. by apply Hl.
  - eapply Forall_impl; [exact (names_comps _ Hl)|]. by intros ? [_ ?].
Qed.

Section scan_loops.
Variables (ROOT_DIR cwd : string).
Variable is_markdown : string → bool.

Lemma add_files_spec root all_files files :
  root ≠ "" →
  ∃ all_files',
    add_files ROOT_DIR cwd is_markdown root all_files files = Some all_files'
    ∧ ∀ p, p ∈ all_files' ↔
           p ∈ all_files
           ∨ ∃ file, file ∈ files ∧ is_markdown file = true
                     ∧ relpath cwd (join root file) ROOT_DIR = Some p.
Proof.
  intros Hroot. unfold add_files. revert all_files.
  induction files as [|file files IH]; intros all_files.
  - exists all_files. split; [done|]. intros p. split; [by left|].
    intros [?|(? & []%elem_of_nil & _)]. done.
  - cbn [foldlM]. destruct (is_markdown file) eqn:Hmd.
    + destruct (relpath_is_Some cwd (join root file) ROOT_DIR) as [rel Hrel];
        [by apply join_not_empty|].
      rewrite Hrel. cbn [mbind option_bind].
      destruct (IH (all_files ∪ {[rel]})) as (acc & -> & Hacc).
      exists acc. split; [done|]. intros p. rewrite Hacc.
      rewrite elem_of_union, elem_of_singleton. split.
      * intros [[?| ->]|(f & Hf & ? & ?)]; [by left| |].
        -- right. exists file. split_and!; [by left|done..].
        -- right. exists f. split_and!; [by right|done..].
      * intros [?|(f & [->|Hf]%elem_of_cons & Hfm & Hfr)].
        -- by left; left.
        -- left; right. congruence.
        -- right. by exists f.
    + cbn [mbind option_bind].
      destruct (IH all_files) as (acc & -> & Hacc).
      exists acc. split; [done|]. intros p. rewrite Hacc. split.
      * intros [?|(f & Hf & ? & ?)]; [by left|].
        right. exists f. split_and!; [by right|done..].
      * intros [?|(f & [->|Hf]%elem_of_cons & Hfm & Hfr)].
        -- by left.
        -- congruence.
        -- right. by exists f.
Qed.

Lemma scan_loop_spec steps all_files :
  Forall (λ step : string * list string, step.1 ≠ "") steps →
  ∃ all_files',
    foldlM (λ all_files step,
              add_files ROOT_DIR cwd is_markdown step.1 all_files step.2)
      all_files steps = Some all_files'
    ∧ ∀ p, p ∈ all_files' ↔
           p ∈ all_files
           ∨ ∃ root files file,
               (root, files) ∈ steps ∧ file ∈ files
               ∧ is_markdown file = true
               ∧ relpath cwd (join root file) ROOT_DIR = Some p.
Proof.
  intros Hsteps. revert all_files.
  induction Hsteps as [|[root files] steps Hroot _ IH]; intros all_files.
  - exists all_files. split; [done|]. intros p. split; [by left|].
    intros [?|(? & ? & ? & []%elem_of_nil & _)]. done.
  - cbn [foldlM fst snd].
    destruct (add_files_spec root all_files files Hroot) as (acc1 & -> & H1).
    cbn [mbind option_bind].
    destruct (IH acc1) as (acc & -> & Hacc).
    exists acc. split; [done|]. intros p. rewrite Hacc, H1. split.
    + intros [[?|(f & ? & ? & ?)]|(r & fs & f & ? & ? & ? & ?)]; [by left| |].
      * right. exists root, files, f. split_and!; [by left|done..].
      * right. exists r, fs, f. split_and!; [by right|done..].
    + intros [?|(r & fs & f & [[= -> ->]|?]%elem_of_cons & ? & ? & ?)].
      * by left; left.
      * left; right. by exists f.
      * right. by exists r, fs, f.
Qed.
End scan_loops.

(** Both scans on a well-formed tree below a normalised root. *)
Lemma scan_spec ROOT_DIR cwd is_markdown keep tree :
  absolute ROOT_DIR = true → names_ok is_name tree = true →
  ∃ all_files,
    foldlM (λ all_files step,
              add_files ROOT_DIR cwd is_markdown step.1 all_files step.2)
      ∅ (walk keep ROOT_DIR tree) = Some all_files
    ∧ ∀ p, p ∈ all_files ↔
           ∃ dirs name,
             p = rel_of (dirs ++ [name]) ∧ file_at tree dirs name
             ∧ Forall (λ d, keep d = true) dirs
             ∧ is_markdown name = true.
Proof.
  intros (rs & Hrs & ->)%absolute_names Hwf.
  assert (∀ root files, (root, files) ∈ walk keep (abs_of rs) tree →
            ∃ dirs sub, dir_at tree dirs sub
                        ∧ Forall (λ d, keep d = true) dirs
                        ∧ names dirs
                        ∧ root = abs_of (rs ++ dirs)
                        ∧ files = dir_files sub) as Hwalk.
  { intros root files (dirs & sub & Hat & Hk & -> & ->)%walk_elem.
    destruct (names_ok_dir_at _ _ _ _ Hwf Hat) as [Hdirs _].
    exists dirs, sub. split_and!; try done. by apply foldl_join_abs_of. }
  destruct (scan_loop_spec (abs_of rs) cwd is_markdown
              (walk keep (abs_of rs) tree) ∅) as (acc & Hacc & Hin).
  { apply Forall_forall. intros [root files] (dirs & sub & _ & _ & _ & -> & _)%Hwalk.
    by destruct (rs ++ dirs). }
  exists acc. split; [done|]. intros p. rewrite Hin. split.
  - intros [[]%elem_of_empty|(root & files & file & Hstep & Hfile & Hmd & Hrel)].
    destruct (Hwalk _ _ Hstep) as (dirs & sub & Hat & Hk & Hdirs & -> & ->).
    assert (file_at tree dirs file) as Hfa by by exists sub.
    pose proof (names_ok_file_at _ _ _ _ Hwf Hfa) as Hnames.
    exists dirs, file. split_and!; try done.
    change file with (rel_of [file]) in Hrel.
    rewrite join_abs_rel in Hrel;
      [|by apply names_comps, Forall_app
       |apply names_comps; by apply Forall_app in Hnames as [_ ?]|done].
    rewrite <- app_assoc, relpath_below in Hrel; [|done|done|by destruct dirs].
    by injection Hrel as <-.
  - intros (dirs & name & -> & Hfa & Hk & Hmd). right.
    pose proof (names_ok_file_at _ _ _ _ Hwf Hfa) as Hnames.
    destruct Hfa as (sub & Hat & Hname).
    pose proof Hnames as [Hdirs Hn]%Forall_app.
    exists (abs_of (rs ++ dirs)), (dir_files sub), name.
    split_and!; try done.
    + apply walk_elem. exists dirs, sub. split_and!; try done.
      by rewrite foldl_join_abs_of.
    + change name with (rel_of [name]) at 1.
      rewrite join_abs_rel;
        [|by apply names_comps, Forall_app|by apply names_comps|done].
      rewrite <- app_assoc. apply relpath_below; [done|done|by destruct dirs].
Qed.

End walk_facts.

Section scan_facts.
Import PyStr.

Lemma endswith_lower s suf :
  endswith s suf = true → endswith (lower s) (lower suf) = true.
Proof.
  induction s as [|a s IH]; cbn [endswith lower].
  - rewrite !orb_false_r. intros <-%bool_decide_eq_true.
    by apply bool_decide_eq_true.
  - intros [H|H]%orb_true_iff; apply orb_true_iff.
    + left. apply bool_decide_eq_true in H. subst suf.
      by apply bool_decide_eq_true.
    + right. auto.
Qed.

Lemma names_without_char c tree dirs name :
  c ≠ "/"%char →
  OsWalk.names_ok (λ n, negb (Normalised.has_char c n)) tree = true →
  OsWalk.file_at tree dirs name →
  Normalised.has_char c (Normalised.rel_of (dirs ++ [name])) = false.
Proof.
  intros Hc Hok Hfa. apply has_char_join.
  - cbn [Normalised.has_char]. rewrite bool_decide_eq_false_2; [done|].
    congruence.
  - eapply Forall_impl; [exact (names_ok_file_at _ _ _ _ Hok Hfa)|].
    intros n Hn. by apply negb_true_iff in Hn.
Qed.
End scan_facts.

(** X14. [scan_all_files] of [link_campaign.py], on a tree of proper names
    below a normalised root, raises no exception and indexes exactly the
    files whose name ends in [.md] in any letter case and that are reached
    from the root through directories whose names do not start with a dot;
    each is indexed under its path relative to the root, the names
    separated by single slashes.  A hidden file is indexed, a file in a
    hidden directory is not. *)
Theorem scan_all_files_indexes_markdown_outside_hidden_directories
    (ROOT_DIR cwd : string) (tree : OsWalk.directory) :
  Normalised.absolute ROOT_DIR = true →
  OsWalk.names_ok Normalised.is_name tree = true →
  ∃ all_files,
    OsWalk.scan_all_files ROOT_DIR cwd tree = Some all_files
    ∧ ∀ p, p ∈ all_files ↔
           ∃ dirs name,
             p = Normalised.rel_of (dirs ++ [name])
             ∧ OsWalk.file_at tree dirs name
             ∧ Forall (λ d, PyStr.startswith d "." = false) dirs
             ∧ PyStr.endswith (PyStr.lower name) ".md" = true.
Proof.
  intros Hroot Hwf. unfold OsWalk.scan_all_files.
  destruct (scan_spec ROOT_DIR cwd (λ file, PyStr.endswith (PyStr.lower file) ".md")
              (λ d, negb (PyStr.startswith d ".")) tree Hroot Hwf)
    as (all_files & -> & Hin).
  exists all_files. split; [done|]. intros p. rewrite Hin.
  split; intros (dirs & name & ? & ? & Hk & ?); exists dirs, name;
    (split_and!; [done..| |done]);
    (eapply Forall_impl; [exact Hk|]); intros d; cbv beta;
    by rewrite negb_true_iff.
Qed.

Lemma scan_all_files_indexes_markdown_outside_hidden_directories_witness :
  (Normalised.absolute "/repo" = true
   ∧ OsWalk.names_ok Normalised.is_name example_tree = true)
  ∧ OsWalk.scan_all_files "/repo" "/home/dev" example_tree
    = Some (list_to_set ["README.md"; "docs/Guide.MD"; "docs/api.md";
                         "docs/build/out.md"; "node_modules/pkg.md"])
  ∧ ∃ all_files,
      OsWalk.scan_all_files "/repo" "/home/dev" example_tree = Some all_files
      ∧ ∀ p, p ∈ all_files ↔
             ∃ dirs name,
               p = Normalised.rel_of (dirs ++ [name])
               ∧ OsWalk.file_at example_tree dirs name
               ∧ Forall (λ d, PyStr.startswith d "." = false) dirs
               ∧ PyStr.endswith (PyStr.lower name) ".md" = true.
Proof.
  split; [by split|]. split; [vm_compute; reflexivity|].
  apply scan_all_files_indexes_markdown_outside_hidden_directories;
    reflexivity.
Defined.

(** X15. [find_markdown_files] of [simple_link_campaign.py] indexes, under
    the same conditions, exactly the files whose name ends in [.md] in
    small letters and that are reached through directories that are
    neither hidden nor named [node_modules], [__pycache__], [target],
    [build] or [dist]. *)
Theorem find_markdown_files_skips_build_directories
    (ROOT_DIR cwd : string) (tree : OsWalk.directory) :
  Normalised.absolute ROOT_DIR = true →
  OsWalk.names_ok Normalised.is_name tree = true →
  ∃ all_files,
    OsWalk.find_markdown_files ROOT_DIR cwd tree = Some all_files
    ∧ ∀ p, p ∈ all_files ↔
           ∃ dirs name,
             p = Normalised.rel_of (dirs ++ [name])
             ∧ OsWalk.file_at tree dirs name
             ∧ Forall
                 (λ d, PyStr.startswith d "." = false
                       ∧ d ∉ ["node_modules"; "__pycache__"; "target";
                              "build"; "dist"]) dirs
             ∧ PyStr.endswith name ".md" = true.
Proof.
  intros Hroot Hwf. unfold OsWalk.find_markdown_files.
  destruct (scan_spec ROOT_DIR cwd (λ file, PyStr.endswith file ".md")
              (λ d, negb (PyStr.startswith d ".")
                    && negb (bool_decide
                               (d ∈ ["node_modules"; "__pycache__"; "target";
                                     "build"; "dist"])))
              tree Hroot Hwf)
    as (all_files & -> & Hin).
  exists all_files. split; [done|]. intros p. rewrite Hin.
  split; intros (dirs & name & ? & ? & Hk & ?); exists dirs, name;
    (split_and!; [done..| |done]);
    (eapply Forall_impl; [exact Hk|]); intros d; cbv beta;
    rewrite andb_true_iff, !negb_true_iff, bool_decide_eq_false; done.
Qed.

Lemma find_markdown_files_skips_build_directories_witness :
  (Normalised.absolute "/repo" = true
   ∧ OsWalk.names_ok Normalised.is_name example_tree = true)
  ∧ OsWalk.find_markdown_files "/repo" "/home/dev" example_tree
    = Some (list_to_set ["README.md"; "docs/api.md"])
  ∧ ∃ all_files,
      OsWalk.find_markdown_files "/repo" "/home/dev" example_tree
        = Some all_files
      ∧ ∀ p, p ∈ all_files ↔
             ∃ dirs name,
               p = Normalised.rel_of (dirs ++ [name])
               ∧ OsWalk.file_at example_tree dirs name
               ∧ Forall
                   (λ d, PyStr.startswith d "." = false
                         ∧ d ∉ ["node_modules"; "__pycache__"; "target";
                                "build"; "dist"]) dirs
               ∧ PyStr.endswith name ".md" = true.
Proof.
  split; [by split|]. split; [vm_compute; reflexivity|].
  apply find_markdown_files_skips_build_directories; reflexivity.
Defined.

(** X16. On the same tree every document that [simple_link_campaign.py]
    indexes is indexed by [link_campaign.py] too: its scan enters fewer
    directories and accepts fewer file names. *)
Theorem simple_index_is_part_of_the_index_of_link_campaign
    (ROOT_DIR cwd : string) (tree : OsWalk.directory) :
  Normalised.absolute ROOT_DIR = true →
  OsWalk.names_ok Normalised.is_name tree = true →
  ∃ simple_files all_files,
    OsWalk.find_markdown_files ROOT_DIR cwd tree = Some simple_files
    ∧ OsWalk.scan_all_files ROOT_DIR cwd tree = Some all_files
    ∧ simple_files ⊆ all_files.
Proof.
  intros Hroot Hwf.
  destruct (scan_spec ROOT_DIR cwd (λ file, PyStr.endswith file ".md")
              (λ d, negb (PyStr.startswith d ".")
                    && negb (bool_decide
                               (d ∈ ["node_modules"; "__pycache__"; "target";
                                     "build"; "dist"])))
              tree Hroot Hwf)
    as (simple_files & Hs & Hsin).
  destruct (scan_spec ROOT_DIR cwd
              (λ file, PyStr.endswith (PyStr.lower file) ".md")
              (λ d, negb (PyStr.startswith d ".")) tree Hroot Hwf)
    as (all_files & Ha & Hain).
  exists simple_files, all_files. split_and!; [done..|].
  intros p (dirs & name & ? & ? & Hk & Hmd)%Hsin. apply Hain.
  exists dirs, name. split_and!; [done..| |].
  - eapply Forall_impl; [exact Hk|]. intros d; cbv beta.
    by intros [? _]%andb_true_iff.
  - by apply (endswith_lower name ".md").
Qed.

Lemma simple_index_is_part_of_the_index_of_link_campaign_witness :
  (Normalised.absolute "/repo" = true
   ∧ OsWalk.names_ok Normalised.is_name example_tree = true)
  ∧ ∃ simple_files all_files,
      OsWalk.find_markdown_files "/repo" "/home/dev" example_tree
        = Some simple_files
      ∧ OsWalk.scan_all_files "/repo" "/home/dev" example_tree
        = Some all_files
      ∧ simple_files ⊆ all_files.
Proof.
  split; [by split|].
  apply simple_index_is_part_of_the_index_of_link_campaign; reflexivity.
Defined.

(** X17. The index that either scan builds is normalised when no name in
    the tree holds a backslash, and free of hash signs when no name holds
    one: every enumeration of the set satisfies the conditions under which
    the suggestions found by file name are proved to resolve. *)
Theorem scanned_index_is_normalised (ROOT_DIR cwd : string)
    (tree : OsWalk.directory) (all_files : gset string)
    (index : list string) :
  Normalised.absolute ROOT_DIR = true →
  OsWalk.names_ok Normalised.is_name tree = true →
  OsWalk.names_ok (λ n, negb (Normalised.has_char "\" n)) tree = true →
  OsWalk.scan_all_files ROOT_DIR cwd tree = Some all_files
  ∨ OsWalk.find_markdown_files ROOT_DIR cwd tree = Some all_files →
  (∀ file, file ∈ index → file ∈ all_files) →
  Normalised.normalised_index index = true
  ∧ (OsWalk.names_ok (λ n, negb (Normalised.has_char "#" n)) tree = true →
     hash_free_index index = true).
Proof.
  intros Hroot Hwf Hbs Hscan Hindex.
  assert (∀ file, file ∈ index →
            ∃ dirs name, file = Normalised.rel_of (dirs ++ [name])
                         ∧ OsWalk.file_at tree dirs name) as Hfile.
  { intros file Hin%Hindex. destruct Hscan as [Hscan|Hscan].
    - unfold OsWalk.scan_all_files in Hscan.
      destruct (scan_spec ROOT_DIR cwd
                  (λ file, PyStr.endswith (PyStr.lower file) ".md")
                  (λ d, negb (PyStr.startswith d ".")) tree Hroot Hwf)
        as (s & Hs & Hsin).
      rewrite Hscan in Hs. injection Hs as <-.
      apply Hsin in Hin as (dirs & name & ? & ? & _). by exists dirs, name.
    - unfold OsWalk.find_markdown_files in Hscan.
      destruct (scan_spec ROOT_DIR cwd (λ file, PyStr.endswith file ".md")
                  (λ d, negb (PyStr.startswith d ".")
                        && negb (bool_decide
                                   (d ∈ ["node_modules"; "__pycache__";
                                         "target"; "build"; "dist"])))
                  tree Hroot Hwf)
        as (s & Hs & Hsin).
      rewrite Hscan in Hs. injection Hs as <-.
      apply Hsin in Hin as (dirs & name & ? & ? & _). by exists dirs, name. }
  split.
  - unfold Normalised.normalised_index. apply forallb_forall.
    intros file (dirs & name & -> & Hfa)%list_elem_of_In%Hfile.
    apply andb_true_iff. split.
    + apply relative_rel_of; [|by destruct dirs].
      exact (names_ok_file_at _ _ _ _ Hwf Hfa).
    + unfold Normalised.forward_slashes. apply negb_true_iff.
      by apply (names_without_char "\" tree).
  - intros Hhash. unfold hash_free_index. apply forallb_forall.
    intros file (dirs & name & -> & Hfa)%list_elem_of_In%Hfile.
    unfold Normalised.without_hash. apply negb_true_iff.
    by apply (names_without_char "#" tree).
Qed.

Lemma scanned_index_is_normalised_witness :
  let all_files : gset string :=
    list_to_set ["README.md"; "docs/Guide.MD"; "docs/api.md";
                 "docs/build/out.md"; "node_modules/pkg.md"] in
  let index := ["docs/api.md"; "README.md"; "node_modules/pkg.md";
                "docs/build/out.md"; "docs/Guide.MD"] in
  (Normalised.absolute "/repo" = true
   ∧ OsWalk.names_ok Normalised.is_name example_tree = true
   ∧ OsWalk.names_ok (λ n, negb (Normalised.has_char "\" n)) example_tree
     = true
   ∧ OsWalk.scan_all_files "/repo" "/home/dev" example_tree = Some all_files
   ∧ Forall (λ file, file ∈ all_files) index)
  ∧ Normalised.normalised_index index = true.
Proof.
  cbv zeta.
  assert (OsWalk.scan_all_files "/repo" "/home/dev" example_tree
          = Some (list_to_set ["README.md"; "docs/Guide.MD"; "docs/api.md";
                               "docs/build/out.md"; "node_modules/pkg.md"]))
    as Hscan by (vm_compute; reflexivity).
  assert (Forall (λ file : string,
            file ∈ (list_to_set ["README.md"; "docs/Guide.MD"; "docs/api.md";
                                 "docs/build/out.md"; "node_modules/pkg.md"]
                    : gset string))
            ["docs/api.md"; "README.md"; "node_modules/pkg.md";
             "docs/build/out.md"; "docs/Guide.MD"]) as Hall.
  { repeat constructor; by apply bool_decide_unpack. }
  split; [split_and!; [reflexivity..|exact Hscan|exact Hall]|].
  refine (proj1 (scanned_index_is_normalised "/repo" "/home/dev" example_tree
                   _ _ eq_refl eq_refl eq_refl (or_introl Hscan) _)).
  by apply Forall_forall.
Defined.


(** ** The report and the exit status of [link_campaign.py] *)

Section main_facts.
Import PyStr PosixPath LinkCampaign LinkCampaignMain.

Lemma join_relative_suffix a b :
  startswith b "/" = false → ∃ x, join a b = x +:+ b.
Proof.
  intros Hb. unfold join. rewrite Hb.
  destruct (_ || _).
  - by exists a.
  - exists (a +:+ "/"). by rewrite app_assoc_str.
Qed.

Lemma report_path_not_mapping_file ROOT_DIR :
  REPORT_PATH ROOT_DIR ≠ LINK_MAPPING_FILE ROOT_DIR.
Proof.
  unfold REPORT_PATH, LINK_MAPPING_FILE.
  destruct (join_relative_suffix ROOT_DIR "link_campaign_report.md" eq_refl)
    as [x ->].
  destruct (join_relative_suffix (join ROOT_DIR "scripts")
              "link_mappings.json" eq_refl) as [y ->].
  intros H. apply (f_equal (λ s, endswith s "d")) in H.
  rewrite !endswith_app in H by (done || cbn; lia). done.
Qed.

(** The analysis completes when the root is not the empty string and the
    files of the index can be read, and so does a run in apply mode. *)
Lemma check_links_total ROOT_DIR cwd mappings index fs dry_run :
  truthy ROOT_DIR = true →
  index_readable ROOT_DIR fs index = true →
  ∃ db1 db' fs',
    foldlM (check_file ROOT_DIR cwd fs) (init mappings index) index = Some db1
    ∧ check_links ROOT_DIR cwd (init mappings index) fs dry_run
      = Some (db', fs').
Proof.
  intros Hroot Hread.
  assert (ROOT_DIR ≠ "") as Hne
    by (unfold truthy in Hroot;
        by apply negb_true_iff, bool_decide_eq_false in Hroot).
  destruct (check_phase_total ROOT_DIR cwd fs mappings index Hne Hread)
    as [db1 Hcheck].
  exists db1. destruct dry_run.
  - exists db1, fs. split; [done|]. unfold check_links.
    cbn [all_files init]. by rewrite Hcheck.
  - destruct (apply_run_spec ROOT_DIR cwd _ _ _ _ Hcheck)
      as (db' & fs' & _ & Hrun & _).
    by exists db', fs'.
Qed.

Lemma generate_report_files ROOT_DIR db fs p :
  p ≠ REPORT_PATH ROOT_DIR → p ≠ LINK_MAPPING_FILE ROOT_DIR →
  files (generate_report ROOT_DIR db fs) !! p = files fs !! p.
Proof.
  intros Hr Hm. unfold generate_report.
  destruct (negb _); cbn [fs_write files].
  - by rewrite !lookup_insert_ne.
  - by rewrite lookup_insert_ne.
Qed.

Lemma generate_report_mapping_file ROOT_DIR db fs :
  fs_read (generate_report ROOT_DIR db fs) (LINK_MAPPING_FILE ROOT_DIR)
  = if fs_exists fs (LINK_MAPPING_FILE ROOT_DIR)
    then fs_read fs (LINK_MAPPING_FILE ROOT_DIR)
    else Some "{}".
Proof.
  pose proof (report_path_not_mapping_file ROOT_DIR) as Hne.
  unfold generate_report.
  assert (fs_exists (fs_write fs (REPORT_PATH ROOT_DIR) (report_text db))
            (LINK_MAPPING_FILE ROOT_DIR)
          = fs_exists fs (LINK_MAPPING_FILE ROOT_DIR)) as ->.
  { unfold fs_exists, fs_write. cbn [files others].
    by rewrite lookup_insert_ne. }
  destruct (fs_exists fs _); cbn [negb]; unfold fs_read, fs_write;
    cbn [files].
  - by rewrite lookup_insert_ne.
  - by rewrite lookup_insert_eq.
Qed.

Lemma generate_report_report ROOT_DIR db fs :
  fs_read (generate_report ROOT_DIR db fs) (REPORT_PATH ROOT_DIR)
  = Some (report_text db).
Proof.
  pose proof (report_path_not_mapping_file ROOT_DIR) as Hne.
  unfold generate_report.
  destruct (negb _); unfold fs_read, fs_write; cbn [files].
  - rewrite lookup_insert_ne by done. by rewrite lookup_insert_eq.
  - by rewrite lookup_insert_eq.
Qed.

End main_facts.

(** X18. Without [--fix], [main] of [link_campaign.py] exits with status 0
    whatever the analysis finds, when the root is not the empty string and
    the files of the index can be read.  The report then holds the number
    of documents and the number of broken links but names none of them
    (the two tables are filled by the rewriter only), and no file other
    than the report and the mappings file is changed. *)
Theorem dry_run_exits_with_zero (ROOT_DIR cwd : string)
    (json_dump : gmap string string → string) (args_report : bool)
    (mappings : gmap string string) (index : list string) (fs : filesystem) :
  PyStr.truthy ROOT_DIR = true →
  index_readable ROOT_DIR fs index = true →
  ∃ db fs',
    LinkCampaign.check_links ROOT_DIR cwd (LinkCampaign.init mappings index)
      fs true = Some (db, fs)
    ∧ LinkCampaignMain.main ROOT_DIR cwd json_dump false args_report mappings
        index fs = Some (0, fs')
    ∧ fs_read fs' (LinkCampaignMain.REPORT_PATH ROOT_DIR)
      = Some (LinkCampaignMain.report_title
              +:+ LinkCampaignMain.report_summary
                    (Report.str_len index)
                    (Report.str_len (LinkCampaign.broken_links db))
                    "0" "0"
              +:+ LinkCampaignMain.report_guidance)
    ∧ ∀ p, p ≠ LinkCampaignMain.REPORT_PATH ROOT_DIR →
           p ≠ LinkCampaignMain.LINK_MAPPING_FILE ROOT_DIR →
           files fs' !! p = files fs !! p.
Proof.
  intros Hroot Hread.
  destruct (check_links_total ROOT_DIR cwd mappings index fs true Hroot Hread)
    as (db1 & db & fs1 & Hcheck & Hrun).
  pose proof Hrun as (db2 & Hcheck2 & _ & Hdry)%check_links_phases.
  destruct (Hdry eq_refl) as [-> ->].
  pose proof (check_phase_analysed _ _ _ _ _ _ Hcheck2)
    as (Hf & _ & Hfx & Hmr & _ & _).
  cbn [LinkCampaign.init LinkCampaign.all_files LinkCampaign.fixed_links
       LinkCampaign.manual_review] in Hf, Hfx, Hmr.
  exists db2, (LinkCampaignMain.generate_report ROOT_DIR db2 fs).
  split; [done|]. split; [|split].
  - unfold LinkCampaignMain.main. cbn [negb]. rewrite Hrun.
    cbn [mbind option_bind]. rewrite Hmr. by destruct args_report.
  - rewrite generate_report_report. unfold LinkCampaignMain.report_text.
    by rewrite Hf, Hfx, Hmr.
  - intros p. apply generate_report_files.
Qed.

Lemma dry_run_exits_with_zero_witness :
  (PyStr.truthy "/repo" = true
   ∧ index_readable "/repo" fs_two_broken_links ["index.md"; "sub/x.md"]
     = true)
  ∧ ∃ db fs',
      LinkCampaign.check_links "/repo" "/repo"
        (LinkCampaign.init ∅ ["index.md"; "sub/x.md"])
        fs_two_broken_links true = Some (db, fs_two_broken_links)
      ∧ LinkCampaignMain.main "/repo" "/repo" (λ _, "{}") false false ∅
          ["index.md"; "sub/x.md"] fs_two_broken_links = Some (0, fs')
      ∧ fs_read fs' (LinkCampaignMain.REPORT_PATH "/repo")
        = Some (LinkCampaignMain.report_title
                +:+ LinkCampaignMain.report_summary
                      (Report.str_len ["index.md"; "sub/x.md"])
                      (Report.str_len (LinkCampaign.broken_links db))
                      "0" "0"
                +:+ LinkCampaignMain.report_guidance)
      ∧ ∀ p, p ≠ LinkCampaignMain.REPORT_PATH "/repo" →
             p ≠ LinkCampaignMain.LINK_MAPPING_FILE "/repo" →
             files fs' !! p = files fs_two_broken_links !! p.
Proof.
  split; [by split|].
  apply dry_run_exits_with_zero; reflexivity.
Defined.

(** X19. With [--fix], under the same conditions, [main] of
    [link_campaign.py] returns, and its exit status is 0 exactly when every
    broken link was rewritten, that is when [fixed_links] holds the entries
    of [broken_links]; it is 1 otherwise.  The flag [--report] does not
    keep the run from rewriting documents and does not change the exit
    status. *)
Theorem fix_run_exit_status (ROOT_DIR cwd : string)
    (json_dump : gmap string string → string) (args_report : bool)
    (mappings : gmap string string) (index : list string) (fs : filesystem) :
  PyStr.truthy ROOT_DIR = true →
  index_readable ROOT_DIR fs index = true →
  ∃ db' fs1 code fs',
    LinkCampaign.check_links ROOT_DIR cwd (LinkCampaign.init mappings index)
      fs false = Some (db', fs1)
    ∧ LinkCampaignMain.main ROOT_DIR cwd json_dump true args_report mappings
        index fs = Some (code, fs')
    ∧ (code = 0 ∨ code = 1)
    ∧ (code = 0 ↔
       LinkCampaign.fixed_links db' ≡ₚ LinkCampaign.broken_links db').
Proof.
  intros Hroot Hread.
  destruct (check_links_total ROOT_DIR cwd mappings index fs false Hroot Hread)
    as (db1 & db' & fs1 & Hcheck & Hrun).
  destruct (apply_run_spec ROOT_DIR cwd _ _ _ _ Hcheck)
    as (db2 & fs2 & written & Hrun2 & Hdb & Hperm & _).
  rewrite Hrun in Hrun2. injection Hrun2 as <- <-.
  assert (LinkCampaign.broken_links db' = LinkCampaign.broken_links db1)
    as Hbr by (by rewrite Hdb).
  rewrite <- Hbr in Hperm.
  unfold LinkCampaignMain.main. cbn [negb]. rewrite Hrun.
  cbn [mbind option_bind].
  eexists db', fs1, _, _. split; [done|]. split; [done|].
  destruct (LinkCampaign.manual_review db') as [|m ms] eqn:Hmr.
  - rewrite app_nil_r in Hperm. split; [by left|]. done.
  - split; [by right|]. split; [done|]. intros Hfb.
    apply Permutation_length in Hperm, Hfb.
    rewrite length_app in Hperm. cbn [length] in Hperm. lia.
Qed.

Lemma fix_run_exit_status_witness :
  (PyStr.truthy "/repo" = true
   ∧ index_readable "/repo" fs_two_broken_links ["index.md"; "sub/x.md"]
     = true)
  ∧ ∃ db' fs1 code fs',
      LinkCampaign.check_links "/repo" "/repo"
        (LinkCampaign.init ∅ ["index.md"; "sub/x.md"])
        fs_two_broken_links false = Some (db', fs1)
      ∧ LinkCampaignMain.main "/repo" "/repo" (λ _, "{}") true false ∅
          ["index.md"; "sub/x.md"] fs_two_broken_links = Some (code, fs')
      ∧ (code = 0 ∨ code = 1)
      ∧ (code = 0 ↔
         LinkCampaign.fixed_links db' ≡ₚ LinkCampaign.broken_links db').
Proof.
  split; [by split|].
  apply fix_run_exit_status; reflexivity.
Defined.

(** X20. With [--fix] and without [--report] the run ends by writing the
    table of mappings back to the mappings file, and the table written is
    the table that was loaded: nothing that the run resolved is added to
    it. *)
Theorem fix_run_saves_the_table_as_loaded (ROOT_DIR cwd : string)
    (json_dump : gmap string string → string)
    (mappings : gmap string string) (index : list string) (fs : filesystem) :
  PyStr.truthy ROOT_DIR = true →
  index_readable ROOT_DIR fs index = true →
  ∃ code fs',
    LinkCampaignMain.main ROOT_DIR cwd json_dump true false mappings index fs
      = Some (code, fs')
    ∧ fs_read fs' (LinkCampaignMain.LINK_MAPPING_FILE ROOT_DIR)
      = Some (json_dump mappings)
    ∧ last (writes fs') = Some (LinkCampaignMain.LINK_MAPPING_FILE ROOT_DIR).
Proof.
  intros Hroot Hread.
  destruct (check_links_total ROOT_DIR cwd mappings index fs false Hroot Hread)
    as (db1 & db' & fs1 & Hcheck & Hrun).
  pose proof Hrun as (db2 & Hcheck2 & Hdb & _)%check_links_phases.
  pose proof (check_phase_analysed _ _ _ _ _ _ Hcheck2)
    as (_ & Hm & _).
  unfold LinkCampaignMain.main. cbn [negb]. rewrite Hrun.
  cbn [mbind option_bind]. eexists _, _. split; [done|].
  unfold LinkCampaignMain.save_custom_mappings, fs_read, fs_write.
  cbn [files writes]. rewrite lookup_insert_eq, last_snoc.
  split; [|done]. rewrite Hdb. cbn. by rewrite Hm.
Qed.

Lemma fix_run_saves_the_table_as_loaded_witness :
  let json_dump (table : gmap string string) :=
    if bool_decide (table = ∅) then "{}" else "{...}" in
  (PyStr.truthy "/repo" = true
   ∧ index_readable "/repo" fs_two_broken_links ["index.md"; "sub/x.md"]
     = true)
  ∧ ∃ code fs',
      LinkCampaignMain.main "/repo" "/repo" json_dump true false
        {[ "nowhere.md" := "sub/x.md" ]} ["index.md"; "sub/x.md"]
        fs_two_broken_links = Some (code, fs')
      ∧ fs_read fs' (LinkCampaignMain.LINK_MAPPING_FILE "/repo")
        = Some (json_dump {[ "nowhere.md" := "sub/x.md" ]})
      ∧ last (writes fs')
        = Some (LinkCampaignMain.LINK_MAPPING_FILE "/repo").
Proof.
  cbv zeta. split; [by split|].
  apply fix_run_saves_the_table_as_loaded; reflexivity.
Defined.

(** The two modes on a document with a link that can be fixed and one
    that cannot: the paths written, in order, and the exit status. *)
Example link_campaign_main_on_two_broken_links :
  (λ r, (r.1, writes r.2)) <$>
    LinkCampaignMain.main "/repo" "/repo" (λ _, "{}") true false ∅
      ["index.md"; "sub/x.md"] fs_two_broken_links
  = Some (1, ["/repo/index.md"; "/repo/link_campaign_report.md";
              "/repo/scripts/link_mappings.json";
              "/repo/scripts/link_mappings.json"])
  ∧ (λ r, (r.1, writes r.2)) <$>
      LinkCampaignMain.main "/repo" "/repo" (λ _, "{}") false false ∅
        ["index.md"; "sub/x.md"] fs_two_broken_links
    = Some (0, ["/repo/link_campaign_report.md";
                "/repo/scripts/link_mappings.json"]).
Proof. split; vm_compute; reflexivity. Qed.


(** ** The main loop of [simple_link_campaign.py] *)

Section template_facts.
Import PyStr Re Normalised.

(** A replacement without a backslash stands for itself. *)
Lemma expand_template_literal template matched :
  has_char "\" template = false →
  expand_template template matched = Some template.
Proof.
  unfold expand_template. induction template as [|c t IH]; [done|].
  cbn [has_char tokens]. intros [Hc Ht]%orb_false_iff.
  apply bool_decide_eq_false in Hc. rewrite bool_decide_eq_false_2 by done.
  specialize (IH Ht). destruct (tokens t) as [ts|]; [|done].
  cbn in IH |- *. by rewrite IH.
Qed.

End template_facts.

Section frame_facts.

Lemma touches_only_refl paths fs : touches_only paths fs fs.
Proof.
  split_and!; [done|done|done|]. exists []. rewrite app_nil_r.
  split; [done|]. by intros p ?%elem_of_nil.
Qed.

Lemma touches_only_trans paths1 paths2 fs1 fs2 fs3 :
  touches_only paths1 fs1 fs2 → touches_only paths2 fs2 fs3 →
  touches_only (paths1 ++ paths2) fs1 fs3.
Proof.
  intros (Hd1 & Ho1 & Hf1 & w1 & Hw1 & Hin1) (Hd2 & Ho2 & Hf2 & w2 & Hw2 & Hin2).
  split_and!.
  - intros p. by rewrite Hd2, Hd1.
  - by rewrite Ho2.
  - intros p Hp. apply elem_of_app.
    destruct (decide (files fs2 !! p = files fs1 !! p)) as [Heq|Hne].
    + right. apply Hf2. by rewrite Heq.
    + left. by apply Hf1.
  - exists (w1 ++ w2). rewrite Hw2, Hw1, app_assoc. split; [done|].
    intros p [?|?]%elem_of_app; apply elem_of_app; [left|right]; auto.
Qed.

Lemma touches_only_exists paths fs fs' :
  touches_only paths fs fs' → ∀ p, fs_exists fs' p = fs_exists fs p.
Proof.
  intros (Hd & Ho & _) p. unfold fs_exists. rewrite Ho. f_equal.
  apply bool_decide_ext, Hd.
Qed.

End frame_facts.

Section simple_main_facts.
Import PyStr PosixPath SimpleLinkCampaign SimpleLinkCampaignMain.
Variables (ROOT_DIR cwd : string).
Variable custom_mappings : gmap string string.
Variable all_files : list string.

Lemma fix_links_in_file_frame fs file_path fixes :
  touches_only [join ROOT_DIR file_path] fs
    (fix_links_in_file ROOT_DIR fs file_path fixes).2.
Proof.
  unfold fix_links_in_file.
  destruct (fs_read fs (join ROOT_DIR file_path)) as [original|] eqn:Hread;
    cbn [snd]; [|apply touches_only_refl].
  destruct (foldlM apply_fix (original, 0) fixes) as [[content n]|];
    cbn [snd]; [|apply touches_only_refl].
  case_bool_decide; cbn [snd]; [|apply touches_only_refl].
  split_and!.
  - intros p. unfold fs_write. cbn [files].
    destruct (decide (p = join ROOT_DIR file_path)) as [->|Hp].
    + rewrite lookup_insert_eq. unfold fs_read in Hread. rewrite Hread.
      split; by eexists.
    + by rewrite lookup_insert_ne.
  - done.
  - intros p Hp. apply list_elem_of_singleton.
    destruct (decide (p = join ROOT_DIR file_path)) as [|Hne]; [done|].
    destruct Hp. unfold fs_write. cbn [files]. by rewrite lookup_insert_ne.
  - exists [join ROOT_DIR file_path]. split; [done|]. by intros p Hp.
Qed.

(** [fix_links_in_file] raises for a file that it can read when [re.sub]
    rejects the template, and only then. *)
Lemma fix_links_in_file_raises fs file_path old new :
  (fix_links_in_file ROOT_DIR fs file_path [(old, new)]).1 = None ↔
  is_Some (fs_read fs (join ROOT_DIR file_path))
  ∧ Re.expand_template ("](" +:+ new +:+ ")") ("](" +:+ old +:+ ")") = None.
Proof.
  unfold fix_links_in_file.
  destruct (fs_read fs (join ROOT_DIR file_path)) as [original|]; cbn [fst].
  2:{ split; [done|]. by intros [[? ?] _]. }
  cbn [foldlM]. rewrite apply_fix_eq. unfold Re.sub_template.
  destruct (Re.expand_template _ _) as [repl|]; cbn [mbind option_bind].
  - split; [|by intros [_ ?]].
    destruct (bool_decide (PyStr.replace _ _ _ ≠ original)); cbn [fst];
      by case_bool_decide.
  - split; [|done]. intros _. split; [by eexists|done].
Qed.

Lemma resolve_link_eq args_fix fixed manual fs entry :
  resolve_link ROOT_DIR cwd custom_mappings all_files args_fix
    (fixed, manual) entry fs
  = match accepted_fix cwd custom_mappings all_files entry with
    | Some suggested_fix =>
        if args_fix then
          let r := fix_links_in_file ROOT_DIR fs (source entry)
                     [(link entry, suggested_fix)] in
          ((λ _ : nat, (fixed ++ [(entry, suggested_fix)], manual)) <$> r.1,
           r.2)
        else (Some (fixed ++ [(entry, suggested_fix)], manual), fs)
    | None => (Some (fixed, manual ++ [entry]), fs)
    end.
Proof.
  unfold resolve_link, accepted_fix.
  destruct (find_best_match _ _ _ _ _) as [s|]; [|done].
  destruct (truthy s); [|done]. destruct args_fix; [|done]. cbv zeta.
  by destruct (fix_links_in_file _ _ _ _) as [[n|] fs1].
Qed.

(** The second loop of [main] changes documents of broken links with an
    accepted suggestion, and nothing else, whether it raises or not. *)
Lemma resolve_loop_frame args_fix l st fs :
  let r :=
    foldlE (resolve_link ROOT_DIR cwd custom_mappings all_files args_fix)
      st l fs in
  (args_fix = false → r.2 = fs)
  ∧ touches_only (fixed_documents ROOT_DIR cwd custom_mappings all_files l)
      fs r.2.
Proof.
  cbv zeta. revert st fs.
  induction l as [|entry l IH]; intros [fixed manual] fs; cbn [foldlE snd].
  { split; [done|]. apply touches_only_refl. }
  rewrite resolve_link_eq. unfold fixed_documents. cbn [List.filter].
  destruct (accepted_fix cwd custom_mappings all_files entry) as [s|]
    eqn:Hacc.
  2:{ rewrite bool_decide_eq_false_2 by (by intros [? ?]). apply IH. }
  rewrite bool_decide_eq_true_2 by by eexists. cbn [fmap list_fmap].
  destruct args_fix.
  - cbv zeta.
    pose proof (fix_links_in_file_frame fs (source entry) [(link entry, s)])
      as Hframe.
    destruct (fix_links_in_file ROOT_DIR fs (source entry) [(link entry, s)])
      as [[n|] fs1]; cbn [fst snd fmap option_fmap option_map] in *.
    + split; [done|].
      apply (touches_only_trans [_] _ fs fs1); [done|]. apply IH.
    + split; [done|].
      apply (touches_only_trans [_] [] fs fs1 fs1) in Hframe;
        [|apply touches_only_refl].
      destruct Hframe as (Hd & Ho & Hf & w & Hw & Hin).
      split_and!; [done|done|..].
      * intros p Hp. specialize (Hf p Hp).
        rewrite app_nil_r in Hf. apply list_elem_of_singleton in Hf as ->.
        by left.
      * exists w. split; [done|]. intros p Hp. specialize (Hin p Hp).
        rewrite app_nil_r in Hin. apply list_elem_of_singleton in Hin as ->.
        by left.
  - destruct (IH (fixed ++ [(entry, s)], manual) fs) as [Hdry Hframe].
    split; [done|].
    apply (touches_only_trans [_] _ fs fs); [apply touches_only_refl|done].
Qed.

(** What the second loop of [main] returns. *)
Lemma resolve_loop_result args_fix l fixed manual fs :
  (∀ entry, entry ∈ l → is_Some (fs_read fs (join ROOT_DIR (source entry)))) →
  (foldlE (resolve_link ROOT_DIR cwd custom_mappings all_files args_fix)
     (fixed, manual) l fs).1
  = if args_fix && existsb (rejected_fix cwd custom_mappings all_files) l
    then None
    else Some
           (fixed
              ++ omap (λ entry,
                         pair entry
                           <$> accepted_fix cwd custom_mappings all_files entry)
                   l,
            manual
              ++ List.filter
                   (λ entry,
                      negb (bool_decide
                              (is_Some (accepted_fix cwd custom_mappings
                                          all_files entry)))) l).
Proof.
  revert fixed manual fs.
  induction l as [|entry l IH]; intros fixed manual fs Hread;
    cbn [foldlE existsb omap list_omap List.filter].
  { rewrite andb_false_r, !app_nil_r. done. }
  rewrite resolve_link_eq. unfold rejected_fix at 1.
  destruct (accepted_fix cwd custom_mappings all_files entry) as [s|]
    eqn:Hacc; cbn [fmap option_fmap option_map].
  2:{ rewrite bool_decide_eq_false_2 by (by intros [? ?]). cbn [negb orb].
      rewrite IH by (intros e He; apply Hread; by right).
      by rewrite <- app_assoc. }
  rewrite (bool_decide_eq_true_2 (is_Some (Some s))) by by eexists.
  cbn [negb]. destruct args_fix; cbn [andb].
  2:{ rewrite IH by (intros e He; apply Hread; by right).
      cbn [andb]. by rewrite <- app_assoc. }
  cbv zeta.
  pose proof (fix_links_in_file_frame fs (source entry) [(link entry, s)])
    as (Hd & _).
  pose proof (fix_links_in_file_raises fs (source entry) (link entry) s)
    as Hraise.
  destruct (fix_links_in_file ROOT_DIR fs (source entry) [(link entry, s)])
    as [[n|] fs1]; cbn [fst snd fmap option_fmap option_map] in *.
  - rewrite bool_decide_eq_false_2.
    2:{ intros Hnone. assert (Some n = None) as Habs; [|done].
        apply Hraise. split; [|done]. apply Hread. by left. }
    cbn [orb]. rewrite IH.
    + cbn [andb]. by rewrite <- app_assoc.
    + intros e He. unfold fs_read. apply Hd. apply Hread. by right.
  - rewrite bool_decide_eq_true_2 by by apply Hraise. done.
Qed.

Lemma length_omap_filter {A B} (f : A → option B) (l : list A) :
  length (omap f l)
  + length (List.filter (λ x, negb (bool_decide (is_Some (f x)))) l)
  = length l.
Proof.
  induction l as [|x l IH]; [done|]. cbn [omap list_omap List.filter].
  destruct (f x) as [y|].
  - rewrite bool_decide_eq_true_2 by by eexists. cbn [negb length]. lia.
  - rewrite bool_decide_eq_false_2 by (by intros [? ?]). cbn [negb length].
    lia.
Qed.

Lemma filter_nil_Forall {A} (P : A → bool) (l : list A) :
  List.filter P l = [] ↔ Forall (λ x, P x = false) l.
Proof.
  induction l as [|x l IH]; [done|]. cbn [List.filter].
  destruct (P x) eqn:Hx.
  - split; [done|]. intros [? _]%Forall_cons. congruence.
  - rewrite IH. split; [by constructor|by intros [_ ?]%Forall_cons].
Qed.

End simple_main_facts.

Section accepted_fix_facts.
Import PyStr.

Lemma accepted_fix_is_Some cwd mappings index entry :
  is_Some (accepted_fix cwd mappings index entry) ↔
  ∃ suggestion,
    SimpleLinkCampaign.find_best_match cwd mappings index
      (SimpleLinkCampaign.link entry) (SimpleLinkCampaign.source entry)
    = Some suggestion
    ∧ suggestion ≠ "".
Proof.
  unfold accepted_fix.
  destruct (SimpleLinkCampaign.find_best_match _ _ _ _ _) as [s|].
  - destruct (truthy s) eqn:Hs; unfold truthy in Hs.
    + apply negb_true_iff, bool_decide_eq_false in Hs.
      split; [|by eexists]. intros _. by exists s.
    + apply negb_false_iff, bool_decide_eq_true in Hs. subst s.
      split; [by intros [? ?]|]. by intros (? & [= <-] & ?).
  - split; [by intros [? ?]|]. by intros (? & ? & ?).
Qed.
End accepted_fix_facts.

Section simple_check_facts.
Import PyStr PosixPath SimpleLinkCampaign SimpleLinkCampaignMain.
Variable ROOT_DIR : string.

Lemma check_link_eq fs file_path broken valid m :
  check_link ROOT_DIR fs file_path (broken, valid) m
  = if skipped m.2 then (broken, valid)
    else if fs_exists fs (join ROOT_DIR (resolved (entry_of file_path m)))
         then (broken, valid ++ [entry_of file_path m])
         else (broken ++ [entry_of file_path m], valid).
Proof.
  destruct m as [text link]. unfold check_link, entry_of. cbn [fst snd resolved].
  destruct (skipped link) eqn:Hs; [done|].
  assert (startswith link "#" = false) as ->.
  { unfold skipped in Hs. by repeat apply orb_false_iff in Hs as [Hs ?]. }
  done.
Qed.

Lemma check_links_loop_spec fs file_path l broken valid :
  foldl (check_link ROOT_DIR fs file_path) (broken, valid) l
  = (broken
       ++ (entry_of file_path
           <$> List.filter
                 (λ m, negb (skipped m.2)
                       && negb (fs_exists fs
                                  (join ROOT_DIR
                                     (resolved (entry_of file_path m))))) l),
     valid
       ++ (entry_of file_path
           <$> List.filter
                 (λ m, negb (skipped m.2)
                       && fs_exists fs
                            (join ROOT_DIR (resolved (entry_of file_path m))))
                 l)).
Proof.
  revert broken valid. induction l as [|m l IH]; intros broken valid.
  - cbn. by rewrite !app_nil_r.
  - cbn [foldl List.filter]. rewrite check_link_eq.
    destruct (skipped m.2); cbn [negb andb]; [apply IH|].
    destruct (fs_exists fs _); cbn [negb]; rewrite IH; cbn [fmap list_fmap];
      by rewrite <- app_assoc.
Qed.

(** [all_broken_links] and [all_valid_links] after the first loop of
    [main] over the files [l]. *)
Lemma check_all_loop_spec fs l st :
  foldl
    (λ st file_path,
       let '(broken_links, valid_links) :=
         check_links_in_file ROOT_DIR fs file_path in
       (st.1 ++ broken_links, st.2 ++ valid_links)) st l
  = (st.1 ++ concat ((λ f, (check_links_in_file ROOT_DIR fs f).1) <$> l),
     st.2 ++ concat ((λ f, (check_links_in_file ROOT_DIR fs f).2) <$> l)).
Proof.
  revert st. induction l as [|f l IH]; intros [b v].
  - cbn. by rewrite !app_nil_r.
  - cbn [foldl fmap list_fmap concat]. rewrite IH.
    destruct (check_links_in_file ROOT_DIR fs f) as [b1 v1].
    cbn [fst snd]. by rewrite <- !app_assoc.
Qed.

Lemma insert_sorted_perm x l : insert_sorted x l ≡ₚ x :: l.
Proof.
  induction l as [|y l IH]; cbn [insert_sorted]; [done|].
  destruct (String.leb x y); [done|]. rewrite IH. apply Permutation_swap.
Qed.

Lemma sorted_perm l : sorted l ≡ₚ l.
Proof.
  induction l as [|x l IH]; [done|]. unfold sorted. cbn [foldr].
  rewrite insert_sorted_perm. by constructor.
Qed.

Lemma check_all_elem index fs entry :
  entry ∈ (check_all ROOT_DIR index fs).1 ↔
  ∃ file_path, file_path ∈ index
               ∧ entry ∈ (check_links_in_file ROOT_DIR fs file_path).1.
Proof.
  unfold check_all. rewrite check_all_loop_spec. cbn [fst app].
  rewrite list_elem_of_In, in_concat. split.
  - intros (l & Hl & Hin). apply list_elem_of_In, list_elem_of_fmap in Hl
      as (f & -> & Hf).
    exists f. rewrite <- (sorted_perm index). split; [done|].
    by apply list_elem_of_In.
  - intros (f & Hf & Hin). exists (check_links_in_file ROOT_DIR fs f).1.
    split; [|by apply list_elem_of_In].
    apply list_elem_of_In, list_elem_of_fmap. exists f. split; [done|].
    by rewrite sorted_perm.
Qed.

End simple_check_facts.

Section simple_exit_facts.
Import PyStr PosixPath SimpleLinkCampaign SimpleLinkCampaignMain.

Lemma check_links_in_file_broken ROOT_DIR fs file_path content text link :
  fs_read fs (join ROOT_DIR file_path) = Some content →
  (text, link) ∈ Re.findall content →
  skipped link = false →
  fs_exists fs (join ROOT_DIR (normpath (join (dirname file_path) link)))
    = false →
  entry_of file_path (text, link)
    ∈ (check_links_in_file ROOT_DIR fs file_path).1.
Proof.
  intros Hread Hin Hs He. unfold check_links_in_file. rewrite Hread.
  rewrite check_links_loop_spec. cbn [fst app].
  apply list_elem_of_fmap. exists (text, link). split; [done|].
  apply list_elem_of_In, filter_In. split; [by apply list_elem_of_In|].
  cbn [snd]. rewrite Hs. cbn [negb andb]. apply negb_true_iff.
  unfold entry_of. cbn [resolved fst snd]. done.
Qed.

(** The document of an entry of [all_broken_links] was read. *)
Lemma check_all_readable ROOT_DIR index fs entry :
  entry ∈ (check_all ROOT_DIR index fs).1 →
  is_Some (fs_read fs (join ROOT_DIR (source entry))).
Proof.
  intros (file_path & _ & Hin)%check_all_elem.
  unfold check_links_in_file in Hin.
  destruct (fs_read fs (join ROOT_DIR file_path)) as [content|] eqn:Hread.
  - rewrite check_links_loop_spec in Hin. cbn [fst app] in Hin.
    apply list_elem_of_fmap in Hin as (m & -> & _).
    unfold entry_of. cbn [source]. by rewrite Hread.
  - by apply elem_of_nil in Hin.
Qed.

(** What [main] returns. *)
Lemma main_result ROOT_DIR cwd mappings index now args_fix args_report fs :
  (main ROOT_DIR cwd mappings index now args_fix args_report fs).1
  = if args_fix
       && existsb (rejected_fix cwd mappings index)
            (check_all ROOT_DIR index fs).1
    then None
    else Some
           (if forallb
                 (λ entry,
                    bool_decide (is_Some (accepted_fix cwd mappings index entry)))
                 (check_all ROOT_DIR index fs).1
            then 0 else 1).
Proof.
  unfold main.
  pose proof (check_all_readable ROOT_DIR index fs) as Hread.
  destruct (check_all ROOT_DIR index fs) as [broken valid].
  cbn [fst] in *.
  pose proof (resolve_loop_result ROOT_DIR cwd mappings index args_fix broken
                [] [] fs Hread) as Hloop.
  destruct (foldlE _ _ _ _) as [[[fixed manual]|] fs1]; cbn [fst] in *;
    destruct (args_fix && existsb _ broken); try done.
  injection Hloop as -> ->. cbn [app]. f_equal.
  pose proof (length_omap_filter
                (λ entry, pair entry <$> accepted_fix cwd mappings index entry)
                broken) as Hlen.
  cbv beta in Hlen. unfold fixed_record.
  assert (∀ entry : link_record,
            is_Some (pair entry <$> accepted_fix cwd mappings index entry)
            ↔ is_Some (accepted_fix cwd mappings index entry)) as Hsome.
  { intros entry. destruct (accepted_fix _ _ _ entry); cbn; split;
      intros [? ?]; done || by eexists. }
  destruct (forallb _ broken) eqn:Hall.
  - rewrite bool_decide_eq_true_2; [done|].
    match type of Hlen with
    | _ + length ?l = _ => assert (l = []) as Hnil
    end.
    { apply filter_nil_Forall, Forall_forall. intros entry Hin. cbv beta.
      apply negb_false_iff, bool_decide_eq_true, Hsome.
      rewrite forallb_forall in Hall.
      eapply bool_decide_eq_true, Hall. by apply list_elem_of_In. }
    rewrite Hnil in Hlen. cbn [length] in Hlen. lia.
  - rewrite bool_decide_eq_false_2; [done|]. intros Heq.
    match type of Hlen with
    | _ + length ?l = _ =>
        assert (l = []) as Hnil by (apply length_zero_iff_nil; lia)
    end.
    apply filter_nil_Forall in Hnil. rewrite Forall_forall in Hnil.
    assert (forallb
              (λ entry, bool_decide
                          (is_Some (accepted_fix cwd mappings index entry)))
              broken = true) as Htrue; [|congruence].
    apply forallb_forall. intros entry Hin%list_elem_of_In.
    specialize (Hnil entry Hin). cbv beta in Hnil.
    apply negb_false_iff, bool_decide_eq_true in Hnil.
    by apply bool_decide_eq_true, Hsome.
Qed.

(** [main] raises exactly when it is run with [--fix] and [re.sub] rejects
    the template made of the suggestion for a broken link. *)
Lemma main_raises ROOT_DIR cwd mappings index now args_fix args_report fs :
  (main ROOT_DIR cwd mappings index now args_fix args_report fs).1 = None ↔
  args_fix = true
  ∧ ∃ entry suggestion,
      entry ∈ (check_all ROOT_DIR index fs).1
      ∧ find_best_match cwd mappings index (link entry) (source entry)
        = Some suggestion
      ∧ suggestion ≠ ""
      ∧ Re.expand_template ("](" +:+ suggestion +:+ ")")
          ("](" +:+ link entry +:+ ")") = None.
Proof.
  rewrite main_result.
  destruct (args_fix && existsb _ _) eqn:Hraise.
  - split; [intros _|done].
    apply andb_true_iff in Hraise as [-> Hex]. split; [done|].
    apply existsb_exists in Hex as (entry & Hin & Hrej).
    unfold rejected_fix in Hrej.
    destruct (accepted_fix cwd mappings index entry) as [s|] eqn:Hacc;
      [|done].
    apply bool_decide_eq_true in Hrej. exists entry, s.
    destruct (proj1 (accepted_fix_is_Some cwd mappings index entry))
      as (s' & Hs' & Hne); [by eexists|].
    unfold accepted_fix in Hacc. rewrite Hs' in Hacc.
    destruct (truthy s'); [|done]. injection Hacc as ->.
    split_and!; [by apply list_elem_of_In|done..].
  - split; [done|]. intros (-> & entry & s & Hin & Hs & Hne & Hrej).
    exfalso. cbn [andb] in Hraise.
    assert (existsb (rejected_fix cwd mappings index)
              (check_all ROOT_DIR index fs).1 = true) as Htrue; [|congruence].
    apply existsb_exists. exists entry. split; [by apply list_elem_of_In|].
    unfold rejected_fix, accepted_fix. rewrite Hs.
    assert (truthy s = true) as ->.
    { unfold truthy. by rewrite bool_decide_eq_false_2. }
    by apply bool_decide_eq_true.
Qed.

End simple_exit_facts.

(** X21. [check_links_in_file] of [simple_link_campaign.py] sorts the
    links of a document by existence: an entry is in the first list exactly
    when the document can be read, the pattern extracts its text and target
    there, the target is not passed over, and the path it resolves to, the
    target as written (anchor included) joined to the directory of the
    document and normalised, does not exist below the root; it is in the
    second list exactly when that path exists.  A document that cannot be
    read gives two empty lists. *)
Theorem simple_check_sorts_links_by_existence (ROOT_DIR : string)
    (fs : filesystem) (file_path : string)
    (entry : SimpleLinkCampaign.link_record) :
  let found (present : bool) :=
    ∃ content,
      fs_read fs (PosixPath.join ROOT_DIR file_path) = Some content
      ∧ (SimpleLinkCampaign.text entry, SimpleLinkCampaign.link entry)
        ∈ Re.findall content
      ∧ SimpleLinkCampaign.skipped (SimpleLinkCampaign.link entry) = false
      ∧ SimpleLinkCampaign.source entry = file_path
      ∧ SimpleLinkCampaign.resolved entry
        = PosixPath.normpath
            (PosixPath.join (PosixPath.dirname file_path)
               (SimpleLinkCampaign.link entry))
      ∧ fs_exists fs
          (PosixPath.join ROOT_DIR (SimpleLinkCampaign.resolved entry))
        = present in
  (entry ∈ (SimpleLinkCampaign.check_links_in_file ROOT_DIR fs file_path).1
   ↔ found false)
  ∧ (entry ∈ (SimpleLinkCampaign.check_links_in_file ROOT_DIR fs file_path).2
     ↔ found true).
Proof.
  cbv zeta. unfold SimpleLinkCampaign.check_links_in_file.
  destruct (fs_read fs (PosixPath.join ROOT_DIR file_path)) as [content|].
  2:{ cbn [fst snd]. split; (split; [by intros ?%elem_of_nil|]);
        by intros (? & ? & _). }
  rewrite check_links_loop_spec. cbn [fst snd app].
  split; rewrite list_elem_of_fmap; split.
  - intros ([text link] & -> & Hin).
    apply list_elem_of_In, filter_In in Hin as [Hin Hc].
    apply list_elem_of_In in Hin.
    apply andb_true_iff in Hc as [Hs He]. apply negb_true_iff in Hs, He.
    exists content. by split_and!.
  - intros (c & [= <-] & Hin & Hs & Hsrc & Hres & He).
    exists (SimpleLinkCampaign.text entry, SimpleLinkCampaign.link entry).
    split.
    + destruct entry as [s t l r]. unfold entry_of. cbn in *. by subst.
    + apply list_elem_of_In, filter_In. split; [by apply list_elem_of_In|].
      cbn [snd]. rewrite Hs. cbn [negb andb]. apply negb_true_iff.
      unfold entry_of. cbn [SimpleLinkCampaign.resolved fst snd].
      by rewrite <- Hres.
  - intros ([text link] & -> & Hin).
    apply list_elem_of_In, filter_In in Hin as [Hin Hc].
    apply list_elem_of_In in Hin.
    apply andb_true_iff in Hc as [Hs He]. apply negb_true_iff in Hs.
    exists content. by split_and!.
  - intros (c & [= <-] & Hin & Hs & Hsrc & Hres & He).
    exists (SimpleLinkCampaign.text entry, SimpleLinkCampaign.link entry).
    split.
    + destruct entry as [s t l r]. unfold entry_of. cbn in *. by subst.
    + apply list_elem_of_In, filter_In. split; [by apply list_elem_of_In|].
      cbn [snd]. rewrite Hs. cbn [negb andb].
      unfold entry_of. cbn [SimpleLinkCampaign.resolved fst snd].
      by rewrite <- Hres.
Qed.

(** X22. [main] of [simple_link_campaign.py] returns, or raises the
    exception of [re.sub].  It raises exactly when it is run with [--fix]
    and the template made of the suggestion for a broken link is not well
    formed, which takes a backslash in a suggestion.  When it returns, the
    exit status is 0 exactly when [find_best_match] has a suggestion that is
    not empty for every broken link, and 1 otherwise: the links are checked
    before any fix, and applying the fixes does not count. *)
Theorem simple_exit_status_tells_missing_suggestions (ROOT_DIR cwd : string)
    (mappings : gmap string string) (index : list string) (now : string)
    (args_fix args_report : bool) (fs : filesystem) :
  let result :=
    (SimpleLinkCampaignMain.main ROOT_DIR cwd mappings index now args_fix
       args_report fs).1 in
  let all_broken_links :=
    (SimpleLinkCampaignMain.check_all ROOT_DIR index fs).1 in
  let suggested (entry : SimpleLinkCampaign.link_record)
      (suggestion : string) :=
    SimpleLinkCampaign.find_best_match cwd mappings index
      (SimpleLinkCampaign.link entry) (SimpleLinkCampaign.source entry)
    = Some suggestion
    ∧ suggestion ≠ "" in
  (result = None ↔
   args_fix = true
   ∧ ∃ entry suggestion,
       entry ∈ all_broken_links
       ∧ suggested entry suggestion
       ∧ Re.expand_template ("](" +:+ suggestion +:+ ")")
           ("](" +:+ SimpleLinkCampaign.link entry +:+ ")") = None)
  ∧ (∀ exit_status, result = Some exit_status →
       (exit_status = 0 ∨ exit_status = 1)
       ∧ (exit_status = 0 ↔
          ∀ entry, entry ∈ all_broken_links →
                   ∃ suggestion, suggested entry suggestion))
  ∧ ((∀ entry suggestion,
        entry ∈ all_broken_links → suggested entry suggestion →
        Normalised.has_char "\" suggestion = false) →
     is_Some result).
Proof.
  cbv zeta. split_and!.
  - rewrite main_raises. split.
    + intros (-> & entry & s & ? & ? & ? & ?). split; [done|].
      by exists entry, s.
    + intros (-> & entry & s & ? & [? ?] & ?). split; [done|].
      by exists entry, s.
  - intros exit_status. rewrite main_result.
    destruct (args_fix && existsb _ _); [done|]. intros [= <-].
    destruct (forallb _ _) eqn:Hall.
    + split; [by left|]. split; [|done]. intros _ entry Hin.
      apply accepted_fix_is_Some. rewrite forallb_forall in Hall.
      eapply bool_decide_eq_true, Hall. by apply list_elem_of_In.
    + split; [by right|]. split; [done|]. intros H. exfalso.
      assert (forallb
                (λ entry, bool_decide
                            (is_Some (accepted_fix cwd mappings index entry)))
                (SimpleLinkCampaignMain.check_all ROOT_DIR index fs).1 = true)
        as Htrue; [|congruence].
      apply forallb_forall. intros entry Hin%list_elem_of_In.
      by apply bool_decide_eq_true, accepted_fix_is_Some, H.
  - intros Hplain.
    destruct (SimpleLinkCampaignMain.main ROOT_DIR cwd mappings index now
                args_fix args_report fs).1 as [status|] eqn:Hres;
      [by eexists|].
    apply main_raises in Hres as (_ & entry & s & Hin & Hs & Hne & Hrej).
    rewrite expand_template_literal in Hrej; [done|].
    change ("](" +:+ s +:+ ")") with (String "]" (String "(" (s +:+ ")"))).
    cbn [Normalised.has_char]. rewrite bool_decide_eq_false_2 by done.
    rewrite bool_decide_eq_false_2 by done. cbn [orb].
    rewrite has_char_app, (Hplain entry s Hin (conj Hs Hne)). done.
Qed.

(** X23. A run of [main] of [simple_link_campaign.py] neither creates nor
    removes a path other than the report.  Without [--fix] it writes the
    report and nothing else; with [--fix] a file other than the report
    changes only if it is the document of a broken link with an accepted
    suggestion.  This holds of the file system that a run leaves when it
    raises as well. *)
Theorem simple_run_touches_only_report_and_fixed_documents
    (ROOT_DIR cwd : string)
    (mappings : gmap string string) (index : list string) (now : string)
    (args_fix args_report : bool) (fs : filesystem) :
  let fs' :=
    (SimpleLinkCampaignMain.main ROOT_DIR cwd mappings index now args_fix
       args_report fs).2 in
  let all_broken_links :=
    (SimpleLinkCampaignMain.check_all ROOT_DIR index fs).1 in
  (∀ p, p ≠ SimpleLinkCampaignMain.REPORT_PATH ROOT_DIR →
        fs_exists fs' p = fs_exists fs p)
  ∧ (∀ p, p ≠ SimpleLinkCampaignMain.REPORT_PATH ROOT_DIR →
          files fs' !! p ≠ files fs !! p →
          args_fix = true
          ∧ ∃ entry,
              entry ∈ all_broken_links
              ∧ is_Some (accepted_fix cwd mappings index entry)
              ∧ p = PosixPath.join ROOT_DIR (SimpleLinkCampaign.source entry))
  ∧ (args_fix = false →
     writes fs' = writes fs ++ [SimpleLinkCampaignMain.REPORT_PATH ROOT_DIR]).
Proof.
  cbv zeta.
  pose proof (main_result ROOT_DIR cwd mappings index now args_fix
                args_report fs) as Hres.
  unfold SimpleLinkCampaignMain.main in *.
  destruct (SimpleLinkCampaignMain.check_all ROOT_DIR index fs)
    as [broken valid].
  destruct (resolve_loop_frame ROOT_DIR cwd mappings index args_fix broken
              ([], []) fs) as [Hdry Hframe].
  pose proof (touches_only_exists _ _ _ Hframe) as Hex.
  destruct Hframe as (_ & _ & Hfiles & _).
  assert (∀ p, p ∈ fixed_documents ROOT_DIR cwd mappings index broken →
               ∃ entry, entry ∈ broken
                        ∧ is_Some (accepted_fix cwd mappings index entry)
                        ∧ p = PosixPath.join ROOT_DIR
                                (SimpleLinkCampaign.source entry)) as Hdoc.
  { intros p (entry & -> & Hin)%list_elem_of_fmap.
    apply list_elem_of_In, filter_In in Hin as [Hin Hacc].
    exists entry. split_and!; [by apply list_elem_of_In| |done].
    by apply bool_decide_eq_true in Hacc. }
  destruct (foldlE _ _ _ _) as [[[fixed manual]|] fs1]; cbn [fst snd] in *.
  - split_and!.
    + intros p Hp. rewrite <- Hex. unfold fs_exists, fs_write.
      cbn [files others]. by rewrite lookup_insert_ne.
    + intros p Hp Hne. unfold fs_write in Hne. cbn [files] in Hne.
      rewrite lookup_insert_ne in Hne by done.
      split; [|by apply Hdoc, Hfiles].
      destruct args_fix; [done|]. by rewrite Hdry in Hne.
    + intros Hf. rewrite (Hdry Hf). done.
  - split_and!.
    + intros p _. apply Hex.
    + intros p _ Hne. split; [|by apply Hdoc, Hfiles].
      destruct args_fix; [done|]. by rewrite Hdry in Hne.
    + intros ->. done.
Qed.

(** X24. [simple_link_campaign.py] looks for the target as it is
    written, anchor included.  A link with an anchor is therefore broken
    unless a path with the hash sign in its name exists, the search by file
    name finds nothing for it in an index without hash signs, and without
    an entry for it in the table the run cannot end with status 0, even
    when the document that the link points to exists: [main] returns 1,
    unless it is run with [--fix] and raises on the suggestion for a
    broken link. *)
Theorem anchored_link_makes_the_simple_run_fail (ROOT_DIR cwd : string)
    (mappings : gmap string string) (index : list string) (now : string)
    (args_fix args_report : bool) (fs : filesystem)
    (file_path content text link : string) :
  file_path ∈ index →
  fs_read fs (PosixPath.join ROOT_DIR file_path) = Some content →
  (text, link) ∈ Re.findall content →
  SimpleLinkCampaign.skipped link = false →
  Normalised.has_char "#" (PosixPath.basename link) = true →
  fs_exists fs
    (PosixPath.join ROOT_DIR
       (PosixPath.normpath
          (PosixPath.join (PosixPath.dirname file_path) link))) = false →
  hash_free_index index = true →
  mappings !! link = None →
  let result :=
    (SimpleLinkCampaignMain.main ROOT_DIR cwd mappings index now args_fix
       args_report fs).1 in
  result = Some 1
  ∨ (result = None
     ∧ args_fix = true
     ∧ ∃ entry suggestion,
         entry ∈ (SimpleLinkCampaignMain.check_all ROOT_DIR index fs).1
         ∧ SimpleLinkCampaign.find_best_match cwd mappings index
             (SimpleLinkCampaign.link entry) (SimpleLinkCampaign.source entry)
           = Some suggestion
         ∧ Re.expand_template ("](" +:+ suggestion +:+ ")")
             ("](" +:+ SimpleLinkCampaign.link entry +:+ ")") = None).
Proof.
  intros Hfile Hread Hin Hskip Hhash Hex Hidx Hm. cbv zeta.
  destruct (SimpleLinkCampaignMain.main ROOT_DIR cwd mappings index now
              args_fix args_report fs).1 as [status|] eqn:Hres.
  - left. rewrite main_result in Hres.
    destruct (args_fix && existsb _ _); [done|]. injection Hres as <-.
    destruct (forallb _ _) eqn:Hall; [exfalso|done].
    rewrite forallb_forall in Hall.
    specialize (Hall (entry_of file_path (text, link))).
    rewrite bool_decide_eq_true in Hall. destruct Hall as [s Hs].
    + apply list_elem_of_In, check_all_elem. exists file_path.
      split; [done|]. by eapply check_links_in_file_broken.
    + unfold accepted_fix, entry_of in Hs.
      cbn [SimpleLinkCampaign.link SimpleLinkCampaign.source fst snd] in Hs.
      by rewrite find_best_match_anchored in Hs.
  - right. apply main_raises in Hres as (-> & entry & s & ? & ? & _ & ?).
    split; [done|]. split; [done|]. by exists entry, s.
Qed.

Lemma anchored_link_makes_the_simple_run_fail_witness :
  let index := ["guide.md"; "index.md"] in
  let content := "See [install](guide.md#install)." in
  ("index.md" ∈ index
   ∧ fs_read fs_anchored_link (PosixPath.join "/repo" "index.md")
     = Some content
   ∧ ("install", "guide.md#install") ∈ Re.findall content
   ∧ SimpleLinkCampaign.skipped "guide.md#install" = false
   ∧ Normalised.has_char "#" (PosixPath.basename "guide.md#install") = true
   ∧ fs_exists fs_anchored_link
       (PosixPath.join "/repo"
          (PosixPath.normpath
             (PosixPath.join (PosixPath.dirname "index.md")
                "guide.md#install"))) = false
   ∧ hash_free_index index = true
   ∧ (∅ : gmap string string) !! "guide.md#install" = None)
  ∧ fs_exists fs_anchored_link "/repo/guide.md" = true
  ∧ (SimpleLinkCampaignMain.main "/repo" "/repo" ∅ index
       "2025-06-17 12:00:00" false false fs_anchored_link).1 = Some 1.
Proof.
  cbv zeta.
  assert ("index.md" ∈ ["guide.md"; "index.md"]) as Hfile by (right; left).
  assert (("install", "guide.md#install")
          ∈ Re.findall "See [install](guide.md#install).") as Hin
    by (vm_compute; left).
  split; [by split_and!|]. split; [reflexivity|].
  destruct (anchored_link_makes_the_simple_run_fail "/repo" "/repo" ∅
              ["guide.md"; "index.md"] "2025-06-17 12:00:00" false false
              fs_anchored_link "index.md" _ "install" "guide.md#install"
              Hfile eq_refl Hin eq_refl eq_refl eq_refl eq_refl
              (lookup_empty _))
    as [Hone|(_ & Hfix & _)]; [exact Hone|discriminate Hfix].
Defined.

(** A run with [--fix] on a document with two links to one target: the
    first fix rewrites both, the second changes nothing and is counted
    all the same, and the link without a suggestion sets the status. *)
Example simple_main_on_repeated_target :
  let fs :=
    FileSystem
      {[ "/repo/index.md" := "[a](x.md) and [gone](nowhere.md), [b](x.md)";
         "/repo/sub/x.md" := "x" ]} ∅ [] in
  SimpleLinkCampaignMain.sorted ["sub/x.md"; "index.md"; "Index.md"; "B"]
  = ["B"; "Index.md"; "index.md"; "sub/x.md"]
  ∧ (λ r, (r.1, writes r.2, files r.2 !! "/repo/index.md"))
      (SimpleLinkCampaignMain.main "/repo" "/repo" ∅ ["sub/x.md"; "index.md"]
         "2025-06-17 12:00:00" true false fs)
    = (Some 1, ["/repo/index.md"; "/repo/link_campaign_report.md"],
       Some "[a](sub/x.md) and [gone](nowhere.md), [b](sub/x.md)").
Proof. split; vm_compute; reflexivity. Qed.

(** A table that gives a path with backslashes: the dry run reports the
    suggestion and ends with status 0; the run with [--fix] raises in
    [re.sub], which reads the backslash and the letter after it as an
    escape, and writes neither the document nor the report. *)
Example simple_main_raises_on_backslash :
  let fs := FileSystem {[ "/repo/index.md" := "[a](old.md)" ]} ∅ [] in
  let mappings : gmap string string := {[ "old.md" := "docs\guide.md" ]} in
  (λ r, (r.1, writes r.2))
    (SimpleLinkCampaignMain.main "/repo" "/repo" mappings ["index.md"]
       "2025-06-17 12:00:00" false false fs)
  = (Some 0, ["/repo/link_campaign_report.md"])
  ∧ SimpleLinkCampaignMain.main "/repo" "/repo" mappings ["index.md"]
      "2025-06-17 12:00:00" true false fs
    = (None, fs)
  ∧ Re.sub_template "](old.md)" "](docs\new.md)" "[a](old.md)"
    = Some ("[a](docs" +:+ String "010" "ew.md)").
Proof. split_and!; vm_compute; reflexivity. Qed.


(** ** The replacement passed to [re.sub] *)

Section doubled_facts.
Import PyStr Re Normalised.


End doubled_facts.


Example doubled_backslashes_example :
  Re.sub_template "[a](old.md)" (PyStr.replace "[a](docs\new.md)" "\" "\\")
    "see [a](old.md)"
  = Some "see [a](docs\new.md)"
  ∧ Re.sub_template "[a](old.md)" "[a](docs\new.md)" "see [a](old.md)"
    = Some ("see [a](docs" +:+ String "010" "ew.md)")
  ∧ Re.sub_template "[a](old.md)" "[a](docs\guide.md)" "see [a](old.md)"
    = None.
Proof. split_and!; vm_compute; reflexivity. Qed.


(** ** [fix_critical_links.py] *)

Section critical_facts.
Import PyStr FixCriticalLinks.
Variable table : gmap string string.

Lemma critical_fix_link_count l content n :
  (foldl (fix_link table) (content, n) l).2
  = n + length (List.filter (critical_hit table) l).
Proof.
  revert content n. induction l as [|[text link] l IH]; intros content n.
  - cbn. lia.
  - cbn [foldl List.filter]. unfold fix_link at 2, critical_hit at 1.
    cbn [snd].
    destruct (_ || _); cbn [negb andb]; [apply IH|].
    destruct (table !! link) as [new|].
    + rewrite bool_decide_eq_true_2 by by eexists. rewrite IH.
      cbn [length]. lia.
    + rewrite bool_decide_eq_false_2 by (by intros [? ?]). apply IH.
Qed.

Lemma critical_fix_link_no_hit l content n :
  List.filter (critical_hit table) l = [] →
  foldl (fix_link table) (content, n) l = (content, n).
Proof.
  revert content n. induction l as [|[text link] l IH]; intros content n;
    [done|].
  cbn [foldl List.filter]. unfold fix_link at 2, critical_hit at 1.
  cbn [snd].
  destruct (_ || _); cbn [negb andb]; [apply IH|].
  destruct (table !! link) as [new|].
  - by rewrite bool_decide_eq_true_2 by by eexists.
  - rewrite bool_decide_eq_false_2 by (by intros [? ?]). apply IH.
Qed.
End critical_facts.

(** X25. [fix_file] of [fix_critical_links.py], on a file that can be
    read, returns the number of links of the original text that are not
    external and have an entry in the table.  The links are extracted once,
    before any replacement, so a link that occurs twice is counted twice
    although the first replacement rewrites both occurrences.  Without
    such a link the file is not written; in any case no other file changes
    and no path is created or removed. *)
Theorem critical_fix_counts_table_hits_of_the_original_text
    (table : gmap string string) (fs : filesystem)
    (file_path content : string) :
  fs_read fs file_path = Some content →
  let hits := List.filter (critical_hit table) (Re.findall content) in
  ∃ fs',
    FixCriticalLinks.fix_file table fs file_path = Some (length hits, fs')
    ∧ (hits = [] → fs' = fs)
    ∧ (∀ p, p ≠ file_path → files fs' !! p = files fs !! p)
    ∧ (∀ p, fs_exists fs' p = fs_exists fs p).
Proof.
  intros Hread hits. unfold FixCriticalLinks.fix_file.
  assert (fs_exists fs file_path = true) as ->.
  { unfold fs_exists. unfold fs_read in Hread. rewrite Hread.
    by rewrite bool_decide_eq_true_2 by by eexists. }
  rewrite Hread. cbn [negb mbind option_bind].
  pose proof (critical_fix_link_count table (Re.findall content) content 0)
    as Hcount.
  pose proof (critical_fix_link_no_hit table (Re.findall content) content 0)
    as Hnone.
  destruct (foldl _ _ _) as [content' n]. cbn [snd] in Hcount. subst n.
  eexists. split; [done|]. fold hits. split_and!.
  - intros Hh. specialize (Hnone Hh). injection Hnone as -> _.
    by rewrite bool_decide_eq_false_2 by (by intros ?).
  - intros p Hp. case_bool_decide; [|done].
    unfold fs_write. cbn [files]. by rewrite lookup_insert_ne.
  - intros p. case_bool_decide; [|done].
    unfold fs_exists, fs_write. cbn [files others].
    destruct (decide (p = file_path)) as [->|Hp].
    + rewrite lookup_insert_eq. unfold fs_read in Hread. rewrite Hread.
      by rewrite !bool_decide_eq_true_2 by by eexists.
    + by rewrite lookup_insert_ne.
Qed.

Lemma critical_fix_counts_table_hits_of_the_original_text_witness :
  fs_read fs_critical "/repo/README.md"
  = Some "[t](./troubleshooting.md), [t](./troubleshooting.md), [r](./related1.md) and [s](https://example.org)"
  ∧ ∃ fs',
      FixCriticalLinks.fix_file FixCriticalLinks.default_fixes fs_critical
        "/repo/README.md" = Some (3, fs')
      ∧ (∀ p, p ≠ "/repo/README.md" →
              files fs' !! p = files fs_critical !! p)
      ∧ (∀ p, fs_exists fs' p = fs_exists fs_critical p).
Proof.
  split; [reflexivity|].
  destruct (critical_fix_counts_table_hits_of_the_original_text
              FixCriticalLinks.default_fixes fs_critical "/repo/README.md"
              _ eq_refl) as (fs' & Hfix & _ & Hfiles & Hex).
  exists fs'. split; [exact Hfix|]. split; [exact Hfiles|exact Hex].
Defined.

(** The link that occurs twice is counted twice, the external link is
    left alone. *)
Example critical_fix_example :
  (λ r, (r.1, fs_read r.2 "/repo/README.md")) <$>
    FixCriticalLinks.fix_file FixCriticalLinks.default_fixes fs_critical
      "/repo/README.md"
  = Some (3, Some "[t](troubleshooting.md), [t](troubleshooting.md), [r](../INSTALLATION.md) and [s](https://example.org)").
Proof. vm_compute. reflexivity. Qed.
